(** * DocuAI: the processing pipeline, the chunker, the text extractor and
      hybrid ranking, embedded from the Python sources.

    Sources embedded here:
    - [backend/app/services/embeddings.py]  (EmbeddingService.chunk_text)
    - [backend/app/services/ocr.py]         (OCRService.extract_text)
    - [backend/app/models.py]               (the tables the tasks touch)
    - [backend/app/tasks/process.py]        (_slugify, _log_step,
                                             process_document, reprocess_document)
    - [backend/app/api/documents.py]        (search_documents, hybrid branch)

    Conventions.  A Python [str] is a list of Unicode code points; [len] is
    the list length.  Python [int]s are [Z].  Python [float]s are binary64
    primitive floats.  A [while] loop is a fuel-indexed function returning
    [None] when the fuel runs out.  A call that may raise returns a
    [result]; code that both changes the session and may raise runs in a
    state-and-exception monad.  What lies outside the program (the OCR
    engines, the language model, the embedding model, the file system,
    the clock, the Unicode tables) is a record of functions the code is
    given.  Operations of the relational store itself do not fail. *)

From Stdlib Require Import ZArith Lia Floats Sorted.
From stdpp Require Import base option list gmap pretty.

Local Open Scope Z_scope.
#[local] Set Warnings "-inexact-float".

(** ** Python strings *)

Module PyStr.

Definition codepoint := N.
Definition str := list codepoint.

(** [str.isspace] for one code point: the table of CPython's
    [_PyUnicode_IsWhitespace]. *)
Definition is_space (c : codepoint) : bool :=
  ((9 <=? c) && (c <=? 13)
   || (28 <=? c) && (c <=? 32)
   || (c =? 133) || (c =? 160) || (c =? 5760)
   || (8192 <=? c) && (c <=? 8202)
   || (c =? 8232) || (c =? 8233) || (c =? 8239) || (c =? 8287)
   || (c =? 12288))%N.

Fixpoint lstrip (s : str) : str :=
  match s with
  | [] => []
  | c :: s' => if is_space c then lstrip s' else s
  end.

Definition rstrip (s : str) : str := rev (lstrip (rev s)).

(** [s.strip()] *)
Definition strip (s : str) : str := rstrip (lstrip s).

(** Truth value of a string: non-empty. *)
Definition truthy (s : str) : bool :=
  match s with [] => false | _ => true end.

Definition len {A} (s : list A) : Z := Z.of_nat (length s).

(** Index normalisation of a slice bound, as [PySlice_AdjustIndices]
    does for step 1: a negative bound counts from the end, then the
    bound is clamped to [0, n]. *)
Definition adjust (n i : Z) : Z :=
  if i <? 0 then Z.max (i + n) 0 else Z.min i n.

(** [s[start:stop]], for strings and lists alike. *)
Definition slice {A} (s : list A) (start stop : Z) : list A :=
  let n := len s in
  let lo := adjust n start in
  let hi := adjust n stop in
  take (Z.to_nat (hi - lo)) (drop (Z.to_nat lo) s).

End PyStr.

Import PyStr.

(** ** embeddings.py: [EmbeddingService.chunk_text] *)

Module Embeddings.

(** One execution of the body of [if chunk.strip(): chunks.append(chunk.strip())]. *)
Definition emit (chunks : list str) (chunk : str) : list str :=
  if truthy (strip chunk) then chunks ++ [strip chunk] else chunks.

(** The [while start < text_len] loop; [fuel] bounds the number of times
    the loop condition is evaluated. *)
Fixpoint chunk_loop (fuel : nat) (text : str) (text_len chunk_size overlap : Z)
         (start : Z) (chunks : list str) : option (list str) :=
  match fuel with
  | O => None
  | S fuel' =>
      if start <? text_len then
        let end_ := start + chunk_size in
        let chunk := slice text start end_ in
        chunk_loop fuel' text text_len chunk_size overlap
                   (start + (chunk_size - overlap)) (emit chunks chunk)
      else Some chunks
  end.

Definition chunk_text (fuel : nat) (text : str) (chunk_size overlap : Z)
  : option (list str) :=
  if negb (truthy text) then Some []
  else chunk_loop fuel text (len text) chunk_size overlap 0 [].

End Embeddings.


(** ** Exceptions and Python literals *)

(** The outcome of a call that may raise; [exc] is [str(e)]. *)
Inductive result (A : Type) : Type :=
| Ok (a : A)
| Raise (exc : str).
Arguments Ok {A} a.
Arguments Raise {A} exc.

(** An ASCII literal as a Python string. *)
Definition py (s : String.string) : str :=
  map (fun a => Ascii.N_of_ascii a) (String.list_ascii_of_string s).

(** [str(n)] for an integer. *)
Definition str_of_Z (n : Z) : str := py (pretty.pretty n).

Arguments py : simpl never.
Arguments str_of_Z : simpl never.

(** POSIX [os.path.isabs] and [os.path.join] on two components. *)
Definition isabs (p : str) : bool :=
  match p with
  | c :: _ => (c =? 47)%N
  | [] => false
  end.

Definition path_join (a b : str) : str :=
  if isabs b then b
  else match last a with
       | None => b
       | Some c => if (c =? 47)%N then a ++ b else a ++ [47%N] ++ b
       end.

Arguments path_join : simpl never.

(** ** ocr.py: [OCRService.extract_text] *)

Module Ocr.

(** What the extractor reaches outside the program: the media directory
    of the settings, the file system, the Tesseract engine and the vision
    model (each engine call may raise). *)
Record Backend : Type := mkBackend {
  MEDIA_DIR : str;
  path_exists : str -> bool;
  _tesseract_ocr : str -> result str;
  _ollama_vision_ocr : str -> result str;
}.

Definition _resolve_path (b : Backend) (file_path : str) : str :=
  if isabs file_path then file_path
  else path_join (MEDIA_DIR b) file_path.

Definition extract_text (b : Backend) (file_path : str) : result str :=
  let abs_path := _resolve_path b file_path in
  if negb (path_exists b abs_path) then Ok []
  else
    let text :=
      match _tesseract_ocr b abs_path with
      | Ok t => t
      | Raise _ => []
      end in
    let text :=
      if len (strip text) <? 50 then
        match _ollama_vision_ocr b abs_path with
        | Ok vision_text =>
            if len (strip vision_text) >? len (strip text)
            then vision_text else text
        | Raise _ => text
        end
      else text in
    Ok (strip text).

End Ocr.


(** ** models.py: the tables *)

Module Models.

Definition UUID := N.
Definition datetime := Z.

Inductive DocumentStatus : Type := pending | processing | done | error.

(** A row of [documents] without its primary key [id]: the table maps the
    key to the row. *)
Record Document : Type := mkDocument {
  title : option str;
  content : option str;
  original_filename : str;
  file_path : str;
  thumbnail_path : option str;
  document_type_id : option N;
  correspondent_id : option N;
  created_date : option datetime;
  added_date : datetime;
  modified_date : datetime;
  status : DocumentStatus;
  embedding : option (list float);
  page_count : option Z;
  file_size : option Z;
  mime_type : option str;
}.

Record Tag : Type := mkTag {
  tag_id : N;
  tag_name : str;
  tag_color : str;
  tag_slug : str;
}.

Record DocumentTag : Type := mkDocumentTag {
  dt_document_id : UUID;
  dt_tag_id : N;
}.

Record Correspondent : Type := mkCorrespondent {
  corr_id : N;
  corr_name : str;
  corr_slug : str;
}.

Record DocumentType : Type := mkDocumentType {
  dtype_id : N;
  dtype_name : str;
  dtype_slug : str;
}.

Record CustomField : Type := mkCustomField {
  cf_id : N;
  cf_document_id : UUID;
  field_name : str;
  field_value : str;
  field_type : str;
}.

(** [created_at] is filled by the server and is not read by the tasks; the
    order of the table is the order of insertion. *)
Record ProcessingLog : Type := mkProcessingLog {
  log_id : N;
  log_document_id : UUID;
  step : str;
  log_status : str;
  message : str;
}.

(** Attribute assignment [doc.f = v]. *)
Definition set_title (v : option str) (d : Document) : Document :=
  mkDocument v (content d) (original_filename d) (file_path d) (thumbnail_path d)
    (document_type_id d) (correspondent_id d) (created_date d) (added_date d)
    (modified_date d) (status d) (embedding d) (page_count d) (file_size d)
    (mime_type d) .
Definition set_content (v : option str) (d : Document) : Document :=
  mkDocument (title d) v (original_filename d) (file_path d) (thumbnail_path d)
    (document_type_id d) (correspondent_id d) (created_date d) (added_date d)
    (modified_date d) (status d) (embedding d) (page_count d) (file_size d)
    (mime_type d) .
Definition set_thumbnail_path (v : option str) (d : Document) : Document :=
  mkDocument (title d) (content d) (original_filename d) (file_path d) v
    (document_type_id d) (correspondent_id d) (created_date d) (added_date d)
    (modified_date d) (status d) (embedding d) (page_count d) (file_size d)
    (mime_type d) .
Definition set_document_type_id (v : option N) (d : Document) : Document :=
  mkDocument (title d) (content d) (original_filename d) (file_path d)
    (thumbnail_path d) v (correspondent_id d) (created_date d) (added_date d)
    (modified_date d) (status d) (embedding d) (page_count d) (file_size d)
    (mime_type d) .
Definition set_correspondent_id (v : option N) (d : Document) : Document :=
  mkDocument (title d) (content d) (original_filename d) (file_path d)
    (thumbnail_path d) (document_type_id d) v (created_date d) (added_date d)
    (modified_date d) (status d) (embedding d) (page_count d) (file_size d)
    (mime_type d) .
Definition set_created_date (v : option datetime) (d : Document) : Document :=
  mkDocument (title d) (content d) (original_filename d) (file_path d)
    (thumbnail_path d) (document_type_id d) (correspondent_id d) v (added_date d)
    (modified_date d) (status d) (embedding d) (page_count d) (file_size d)
    (mime_type d) .
Definition set_modified_date (v : datetime) (d : Document) : Document :=
  mkDocument (title d) (content d) (original_filename d) (file_path d)
    (thumbnail_path d) (document_type_id d) (correspondent_id d) (created_date d)
    (added_date d) v (status d) (embedding d) (page_count d) (file_size d)
    (mime_type d) .
Definition set_status (v : DocumentStatus) (d : Document) : Document :=
  mkDocument (title d) (content d) (original_filename d) (file_path d)
    (thumbnail_path d) (document_type_id d) (correspondent_id d) (created_date d)
    (added_date d) (modified_date d) v (embedding d) (page_count d) (file_size d)
    (mime_type d) .
Definition set_embedding (v : option (list float)) (d : Document) : Document :=
  mkDocument (title d) (content d) (original_filename d) (file_path d)
    (thumbnail_path d) (document_type_id d) (correspondent_id d) (created_date d)
    (added_date d) (modified_date d) (status d) v (page_count d) (file_size d)
    (mime_type d) .
Definition set_page_count (v : option Z) (d : Document) : Document :=
  mkDocument (title d) (content d) (original_filename d) (file_path d)
    (thumbnail_path d) (document_type_id d) (correspondent_id d) (created_date d)
    (added_date d) (modified_date d) (status d) (embedding d) v (file_size d)
    (mime_type d) .
Definition set_file_size (v : option Z) (d : Document) : Document :=
  mkDocument (title d) (content d) (original_filename d) (file_path d)
    (thumbnail_path d) (document_type_id d) (correspondent_id d) (created_date d)
    (added_date d) (modified_date d) (status d) (embedding d) (page_count d) v
    (mime_type d) .
Definition set_mime_type (v : option str) (d : Document) : Document :=
  mkDocument (title d) (content d) (original_filename d) (file_path d)
    (thumbnail_path d) (document_type_id d) (correspondent_id d) (created_date d)
    (added_date d) (modified_date d) (status d) (embedding d) (page_count d)
    (file_size d) v.

(** The store: one table per model the tasks touch.  [documents] is keyed
    by its primary key; a table with an autoincrement key is the list of
    its rows in insertion order, with its sequence (the next key to hand
    out). *)
Record DB : Type := mkDB {
  documents : gmap UUID Document;
  tags : list Tag;
  tags_id_seq : N;
  document_types : list DocumentType;
  document_types_id_seq : N;
  correspondents : list Correspondent;
  correspondents_id_seq : N;
  document_tags : list DocumentTag;
  custom_fields : list CustomField;
  custom_fields_id_seq : N;
  processing_logs : list ProcessingLog;
  processing_logs_id_seq : N;
}.

Definition set_documents (v : gmap UUID Document) (s : DB) : DB :=
  mkDB v (tags s) (tags_id_seq s) (document_types s) (document_types_id_seq s)
    (correspondents s) (correspondents_id_seq s) (document_tags s) (custom_fields s)
    (custom_fields_id_seq s) (processing_logs s) (processing_logs_id_seq s) .
Definition set_tags (v : list Tag) (s : DB) : DB :=
  mkDB (documents s) v (tags_id_seq s) (document_types s) (document_types_id_seq s)
    (correspondents s) (correspondents_id_seq s) (document_tags s) (custom_fields s)
    (custom_fields_id_seq s) (processing_logs s) (processing_logs_id_seq s) .
Definition set_tags_id_seq (v : N) (s : DB) : DB :=
  mkDB (documents s) (tags s) v (document_types s) (document_types_id_seq s)
    (correspondents s) (correspondents_id_seq s) (document_tags s) (custom_fields s)
    (custom_fields_id_seq s) (processing_logs s) (processing_logs_id_seq s) .
Definition set_document_types (v : list DocumentType) (s : DB) : DB :=
  mkDB (documents s) (tags s) (tags_id_seq s) v (document_types_id_seq s)
    (correspondents s) (correspondents_id_seq s) (document_tags s) (custom_fields s)
    (custom_fields_id_seq s) (processing_logs s) (processing_logs_id_seq s) .
Definition set_document_types_id_seq (v : N) (s : DB) : DB :=
  mkDB (documents s) (tags s) (tags_id_seq s) (document_types s) v (correspondents s)
    (correspondents_id_seq s) (document_tags s) (custom_fields s)
    (custom_fields_id_seq s) (processing_logs s) (processing_logs_id_seq s) .
Definition set_correspondents (v : list Correspondent) (s : DB) : DB :=
  mkDB (documents s) (tags s) (tags_id_seq s) (document_types s)
    (document_types_id_seq s) v (correspondents_id_seq s) (document_tags s)
    (custom_fields s) (custom_fields_id_seq s) (processing_logs s)
    (processing_logs_id_seq s) .
Definition set_correspondents_id_seq (v : N) (s : DB) : DB :=
  mkDB (documents s) (tags s) (tags_id_seq s) (document_types s)
    (document_types_id_seq s) (correspondents s) v (document_tags s) (custom_fields s)
    (custom_fields_id_seq s) (processing_logs s) (processing_logs_id_seq s) .
Definition set_document_tags (v : list DocumentTag) (s : DB) : DB :=
  mkDB (documents s) (tags s) (tags_id_seq s) (document_types s)
    (document_types_id_seq s) (correspondents s) (correspondents_id_seq s) v
    (custom_fields s) (custom_fields_id_seq s) (processing_logs s)
    (processing_logs_id_seq s) .
Definition set_custom_fields (v : list CustomField) (s : DB) : DB :=
  mkDB (documents s) (tags s) (tags_id_seq s) (document_types s)
    (document_types_id_seq s) (correspondents s) (correspondents_id_seq s)
    (document_tags s) v (custom_fields_id_seq s) (processing_logs s)
    (processing_logs_id_seq s) .
Definition set_custom_fields_id_seq (v : N) (s : DB) : DB :=
  mkDB (documents s) (tags s) (tags_id_seq s) (document_types s)
    (document_types_id_seq s) (correspondents s) (correspondents_id_seq s)
    (document_tags s) (custom_fields s) v (processing_logs s)
    (processing_logs_id_seq s) .
Definition set_processing_logs (v : list ProcessingLog) (s : DB) : DB :=
  mkDB (documents s) (tags s) (tags_id_seq s) (document_types s)
    (document_types_id_seq s) (correspondents s) (correspondents_id_seq s)
    (document_tags s) (custom_fields s) (custom_fields_id_seq s) v
    (processing_logs_id_seq s) .
Definition set_processing_logs_id_seq (v : N) (s : DB) : DB :=
  mkDB (documents s) (tags s) (tags_id_seq s) (document_types s)
    (document_types_id_seq s) (correspondents s) (correspondents_id_seq s)
    (document_tags s) (custom_fields s) (custom_fields_id_seq s) (processing_logs s) v.

End Models.


(** ** process.py: the pipeline *)

Module Process.
Import Models.

(** *** What the tasks reach outside the program *)

Record ClassificationResult : Type := mkClassificationResult {
  cr_title : str;
  cr_tags : list str;
  cr_document_type : str;
  cr_correspondent : str;
  cr_date : option str;
  cr_summary : str;
}.

Record ExtractedField : Type := mkExtractedField {
  ef_name : str;
  ef_value : str;
  ef_type : str;
}.

(** The dict returned by [PDFService.get_file_info]; a key may be absent. *)
Record FileInfo : Type := mkFileInfo {
  fi_size : option Z;
  fi_mime_type : option str;
  fi_pages : option Z;
}.

(** [datetime.fromisoformat(result.date)]: a date, a [ValueError] (which
    the code swallows), or another exception (a [TypeError] when the
    model's JSON carried a date that is not a string), which reaches the
    handler of the stage. *)
Inductive iso_result : Type :=
| IsoOk (d : datetime)
| IsoValueError
| IsoError (exc : str).

(** The services, the settings and the run-time library, as the tasks
    call them.  Each service call covers the import of the service and
    the call itself, and may raise. *)
Record Env : Type := mkEnv {
  uuid_UUID : str -> result UUID;
  ocr_extract_text : str -> result str;
  classify : str -> list str -> list str -> list str -> result ClassificationResult;
  fromisoformat : str -> iso_result;
  extract_fields : str -> result (list ExtractedField);
  embed_text : str -> result (list float);
  THUMBNAIL_DIR : str;
  makedirs : str -> result unit;
  generate_thumbnail : str -> str -> result bool;
  get_file_info : str -> result FileInfo;
  utcnow : datetime;
  str_lower : str -> str;
  isalnum : codepoint -> bool;
}.

(** *** [_slugify] *)

(** [re.sub(p+, rep, s)] for a character class [p]: every maximal run of
    characters of the class becomes [rep]. *)
Fixpoint sub_runs (p : codepoint -> bool) (rep : str) (in_run : bool) (s : str) : str :=
  match s with
  | [] => []
  | c :: s' =>
      if p c then
        if in_run then sub_runs p rep true s' else rep ++ sub_runs p rep true s'
      else c :: sub_runs p rep false s'
  end.

Definition is_hyphen (c : codepoint) : bool := (c =? 45)%N.
Definition is_underscore (c : codepoint) : bool := (c =? 95)%N.

Fixpoint lstrip_chars (p : codepoint -> bool) (s : str) : str :=
  match s with
  | [] => []
  | c :: s' => if p c then lstrip_chars p s' else s
  end.

Definition strip_chars (p : codepoint -> bool) (s : str) : str :=
  rev (lstrip_chars p (rev (lstrip_chars p s))).

Definition _slugify (env : Env) (name : str) : str :=
  let slug := strip (str_lower env name) in
  (* [^\w\s-] removed *)
  let slug := filter (fun c => isalnum env c || is_underscore c
                               || is_space c || is_hyphen c) slug in
  (* [\s_]+ becomes - *)
  let slug := sub_runs (fun c => is_space c || is_underscore c) [45%N] false slug in
  (* -+ becomes -, then strip("-") *)
  let slug := strip_chars is_hyphen (sub_runs is_hyphen [45%N] false slug) in
  if truthy slug then slug else py "untitled".

(** *** The session *)

(** A session holds the committed store, the store as this transaction
    sees it, and the loaded [doc] object with its primary key.  Attribute
    assignments change the object, [flush] writes it to the transaction's
    store, [commit] makes the transaction's store the committed one.
    Closing a session drops what was not committed. *)
Record Session : Type := mkSession {
  committed : DB;
  db : DB;
  doc_key : UUID;
  doc : Document;
}.

Definition M (A : Type) : Type := Session -> Session * result A.

Definition ret {A} (a : A) : M A := fun s => (s, Ok a).
Definition raise {A} (exc : str) : M A := fun s => (s, Raise exc).
Definition bind {A B} (m : M A) (k : A -> M B) : M B :=
  fun s => match m s with
           | (s', Ok a) => k a s'
           | (s', Raise e) => (s', Raise e)
           end.

Notation "x <-- m ;;; k" := (bind m (fun x => k))
  (at level 100, m at next level, k at level 200, right associativity).
Notation "m ;;; k" := (bind m (fun _ => k))
  (at level 100, k at level 200, right associativity).

(** [try: body except Exception as e: handler(e)] *)
Definition try_except {A} (body : M A) (handler : str -> M A) : M A :=
  fun s => match body s with
           | (s', Ok a) => (s', Ok a)
           | (s', Raise e) => handler e s'
           end.

Definition lift {A} (r : result A) : M A := fun s => (s, r).
Definition get_db : M DB := fun s => (s, Ok (db s)).
Definition get_doc : M Document := fun s => (s, Ok (doc s)).
Definition modify_db (f : DB -> DB) : M unit :=
  fun s => (mkSession (committed s) (f (db s)) (doc_key s) (doc s), Ok tt).
(** [doc.f = v] *)
Definition assign (f : Document -> Document) : M unit :=
  fun s => (mkSession (committed s) (db s) (doc_key s) (f (doc s)), Ok tt).

Definition flush : M unit :=
  fun s =>
    (mkSession (committed s)
               (set_documents (<[doc_key s := doc s]> (documents (db s))) (db s))
               (doc_key s) (doc s),
     Ok tt).

Definition commit : M unit :=
  flush ;;; fun s => (mkSession (db s) (db s) (doc_key s) (doc s), Ok tt).

(** [for x in l: body(x)] *)
Fixpoint for_each {A} (l : list A) (body : A -> M unit) : M unit :=
  match l with
  | [] => ret tt
  | x :: l' => body x ;;; for_each l' body
  end.

(** [.scalar_one_or_none()] on the rows a query selects. *)
Definition scalar_one_or_none {A} (rows : list A) : result (option A) :=
  match rows with
  | [] => Ok None
  | [x] => Ok (Some x)
  | _ :: _ :: _ => Raise (py "Multiple rows were found when one or none was required")
  end.

(** [session.add(row); session.flush()] for each table with a sequence. *)
Definition add_log (document_id : UUID) (step_ status_ message_ : str) (d : DB) : DB :=
  set_processing_logs_id_seq (processing_logs_id_seq d + 1)%N
    (set_processing_logs
       (processing_logs d
        ++ [mkProcessingLog (processing_logs_id_seq d) document_id step_ status_ message_])
       d).

Definition add_tag (name slug color : str) (d : DB) : DB :=
  set_tags_id_seq (tags_id_seq d + 1)%N
    (set_tags (tags d ++ [mkTag (tags_id_seq d) name color slug]) d).

Definition add_document_type (name slug : str) (d : DB) : DB :=
  set_document_types_id_seq (document_types_id_seq d + 1)%N
    (set_document_types
       (document_types d ++ [mkDocumentType (document_types_id_seq d) name slug]) d).

Definition add_correspondent (name slug : str) (d : DB) : DB :=
  set_correspondents_id_seq (correspondents_id_seq d + 1)%N
    (set_correspondents
       (correspondents d ++ [mkCorrespondent (correspondents_id_seq d) name slug]) d).

Definition add_custom_field (document_id : UUID) (f : ExtractedField) (d : DB) : DB :=
  set_custom_fields_id_seq (custom_fields_id_seq d + 1)%N
    (set_custom_fields
       (custom_fields d
        ++ [mkCustomField (custom_fields_id_seq d) document_id
                          (ef_name f) (ef_value f) (ef_type f)]) d).

Definition add_document_tag (document_id : UUID) (tag : N) (d : DB) : DB :=
  set_document_tags (document_tags d ++ [mkDocumentTag document_id tag]) d.

Definition _log_step (document_id : UUID) (step_ status_ message_ : str) : M unit :=
  modify_db (add_log document_id step_ status_ message_) ;;; flush.

(** *** [process_document], stage by stage *)

(** A dict with string keys and values, in insertion order. *)
Definition dict := list (str * str).

(** Step 1: OCR.  [inl text] when the stage succeeds, [inr d] when it
    fails and the task returns the dict [d]. *)
Definition step_ocr (env : Env) (doc_uuid : UUID) : M (str + dict) :=
  try_except
    (d <-- get_doc ;;;
     text <-- lift (ocr_extract_text env (file_path d)) ;;;
     assign (set_content (Some text)) ;;;
     flush ;;;
     _log_step doc_uuid (py "ocr") (py "success")
       (py "Extracted " ++ str_of_Z (len text) ++ py " characters") ;;;
     ret (inl text))
    (fun e =>
       _log_step doc_uuid (py "ocr") (py "error") e ;;;
       assign (set_status error) ;;;
       commit ;;;
       ret (inr [(py "status", py "error"); (py "step", py "ocr"); (py "message", e)])).

Definition select_tag_by_slug (slug : str) (d : DB) : list Tag :=
  filter (fun t => tag_slug t = slug) (tags d).
Definition select_document_type_by_slug (slug : str) (d : DB) : list DocumentType :=
  filter (fun t => dtype_slug t = slug) (document_types d).
Definition select_correspondent_by_slug (slug : str) (d : DB) : list Correspondent :=
  filter (fun t => corr_slug t = slug) (correspondents d).
Definition select_document_tag (document_id : UUID) (tag : N) (d : DB) : list DocumentTag :=
  filter (fun a => dt_document_id a = document_id /\ dt_tag_id a = tag) (document_tags d).

(** One iteration of [for tag_name in result.tags]. *)
Definition classify_tag (env : Env) (doc_uuid : UUID) (tag_name : str) : M unit :=
  let slug := _slugify env tag_name in
  if negb (truthy slug) then ret tt
  else
    d <-- get_db ;;;
    found <-- lift (scalar_one_or_none (select_tag_by_slug slug d)) ;;;
    tag <-- match found with
           | Some t => ret (tag_id t)
           | None =>
               modify_db (add_tag tag_name slug (py "#3b82f6")) ;;;
               ret (tags_id_seq d)
           end ;;;
    d <-- get_db ;;;
    existing_assoc <-- lift (scalar_one_or_none (select_document_tag doc_uuid tag d)) ;;;
    match existing_assoc with
    | Some _ => ret tt
    | None => modify_db (add_document_tag doc_uuid tag)
    end.

Definition classify_document_type (env : Env) (name : str) : M unit :=
  if truthy name then
    let slug := _slugify env name in
    d <-- get_db ;;;
    found <-- lift (scalar_one_or_none (select_document_type_by_slug slug d)) ;;;
    dt <-- match found with
          | Some t => ret (dtype_id t)
          | None => modify_db (add_document_type name slug) ;;;
                    ret (document_types_id_seq d)
          end ;;;
    assign (set_document_type_id (Some dt))
  else ret tt.

Definition classify_correspondent (env : Env) (name : str) : M unit :=
  if truthy name then
    let slug := _slugify env name in
    d <-- get_db ;;;
    found <-- lift (scalar_one_or_none (select_correspondent_by_slug slug d)) ;;;
    corr <-- match found with
            | Some c => ret (corr_id c)
            | None => modify_db (add_correspondent name slug) ;;;
                      ret (correspondents_id_seq d)
            end ;;;
    assign (set_correspondent_id (Some corr))
  else ret tt.

(** [if result.title: ...; if result.date: try ... except ValueError: pass] *)
Definition apply_title_date (env : Env) (result_ : ClassificationResult) : M unit :=
  (if truthy (cr_title result_) then assign (set_title (Some (cr_title result_)))
   else ret tt) ;;;
  match cr_date result_ with
  | Some date =>
      if truthy date then
        match fromisoformat env date with
        | IsoOk dt => assign (set_created_date (Some dt))
        | IsoValueError => ret tt
        | IsoError e => raise e
        end
      else ret tt
  | None => ret tt
  end.

Definition call_classifier (env : Env) (text : str) : M ClassificationResult :=
  d <-- get_db ;;;
  let existing_tags := map tag_name (tags d) in
  let existing_types := map dtype_name (document_types d) in
  let existing_corr := map corr_name (correspondents d) in
  lift (classify env text existing_tags existing_types existing_corr).

(** Step 2: classification. *)
Definition step_classify (env : Env) (doc_uuid : UUID) (text : str) : M unit :=
  try_except
    (result_ <-- call_classifier env text ;;;
     apply_title_date env result_ ;;;
     classify_document_type env (cr_document_type result_) ;;;
     classify_correspondent env (cr_correspondent result_) ;;;
     for_each (cr_tags result_) (classify_tag env doc_uuid) ;;;
     flush ;;;
     _log_step doc_uuid (py "classify") (py "success")
       (py "Title: " ++ cr_title result_))
    (fun e => _log_step doc_uuid (py "classify") (py "error") e).

(** Step 3: field extraction. *)
Definition step_fields (env : Env) (doc_uuid : UUID) (text : str) : M unit :=
  try_except
    (fields <-- lift (extract_fields env text) ;;;
     for_each fields (fun field => modify_db (add_custom_field doc_uuid field)) ;;;
     flush ;;;
     _log_step doc_uuid (py "fields") (py "success")
       (py "Extracted " ++ str_of_Z (Z.of_nat (length fields)) ++ py " fields"))
    (fun e => _log_step doc_uuid (py "fields") (py "error") e).

(** Step 4: embeddings. *)
Definition step_embeddings (env : Env) (doc_uuid : UUID) (text : str) : M unit :=
  try_except
    (embedding_ <-- lift (embed_text env text) ;;;
     assign (set_embedding (Some embedding_)) ;;;
     flush ;;;
     _log_step doc_uuid (py "embeddings") (py "success")
       (py "Generated 384-dim embedding"))
    (fun e => _log_step doc_uuid (py "embeddings") (py "error") e).

(** [uuid.hex]: 32 lowercase hexadecimal digits. *)
Definition hex_digit (n : N) : codepoint :=
  if (n <? 10)%N then (48 + n)%N else (87 + n)%N.

Fixpoint hex_digits (k : nat) (n : N) (acc : str) : str :=
  match k with
  | O => acc
  | S k' => hex_digits k' (n / 16)%N (hex_digit (n mod 16)%N :: acc)
  end.

Definition uuid_hex (u : UUID) : str := hex_digits 32 u [].

Arguments uuid_hex : simpl never.

(** Truth value of an optional int and of an optional string. *)
Definition truthy_int (v : option Z) : bool :=
  match v with
  | Some n => negb (n =? 0)
  | None => false
  end.

Definition truthy_opt (v : option str) : bool :=
  match v with
  | Some s => truthy s
  | None => false
  end.

(** The assignments that follow [file_info = pdf_service.get_file_info(...)]. *)
Definition apply_file_info (file_info : FileInfo) : M unit :=
  assign (set_page_count (Some (default 0 (fi_pages file_info)))) ;;;
  d <-- get_doc ;;;
  (if negb (truthy_int (file_size d))
   then assign (set_file_size (Some (default 0 (fi_size file_info))))
   else ret tt) ;;;
  d <-- get_doc ;;;
  (if negb (truthy_opt (mime_type d))
   then assign (set_mime_type (Some (default [] (fi_mime_type file_info))))
   else ret tt).

(** Step 5: thumbnail and file info. *)
Definition step_thumbnail (env : Env) (doc_uuid : UUID) : M unit :=
  try_except
    (let thumb_relative := uuid_hex doc_uuid ++ py ".png" in
     let thumb_abs := path_join (THUMBNAIL_DIR env) thumb_relative in
     lift (makedirs env (THUMBNAIL_DIR env)) ;;;
     d <-- get_doc ;;;
     success <-- lift (generate_thumbnail env (file_path d) thumb_abs) ;;;
     (if success : bool then assign (set_thumbnail_path (Some thumb_relative))
      else ret tt) ;;;
     file_info <-- lift (get_file_info env (file_path d)) ;;;
     apply_file_info file_info ;;;
     flush ;;;
     _log_step doc_uuid (py "thumbnail") (py "success") (py "Thumbnail generated"))
    (fun e => _log_step doc_uuid (py "thumbnail") (py "error") e).

(** The body of the outer [try] once the document is loaded. *)
Definition process_body (env : Env) (document_id : str) (doc_uuid : UUID) : M dict :=
  assign (set_status processing) ;;;
  flush ;;;
  _log_step doc_uuid (py "start") (py "info") (py "Processing started") ;;;
  r <-- step_ocr env doc_uuid ;;;
  match r with
  | inr d => ret d
  | inl text =>
      step_classify env doc_uuid text ;;;
      step_fields env doc_uuid text ;;;
      step_embeddings env doc_uuid text ;;;
      step_thumbnail env doc_uuid ;;;
      assign (set_status done) ;;;
      assign (set_modified_date (utcnow env)) ;;;
      _log_step doc_uuid (py "complete") (py "success") (py "Processing complete") ;;;
      commit ;;;
      ret [(py "status", py "done"); (py "document_id", document_id)]
  end.

(** How a task ends: it returns a dict, it raises (no retry is asked
    for), or it asks for a retry in 60 seconds ([raise self.retry]). *)
Inductive Outcome : Type :=
| Returned (d : dict)
| Raised (exc : str)
| Retry (exc : str) (countdown : Z).

(** The outer [except Exception] of [process_document]. *)
Definition process_fatal (doc_uuid : UUID) (e : str) : M unit :=
  assign (set_status error) ;;;
  _log_step doc_uuid (py "fatal") (py "error") e ;;;
  commit.

(** A task maps the committed store to the committed store when the
    session is closed, and an outcome. *)
Definition process_document (env : Env) (document_id : str) (store : DB) : DB * Outcome :=
  match uuid_UUID env document_id with
  | Raise e => (store, Raised e)
  | Ok doc_uuid =>
      match documents store !! doc_uuid with
      | None =>
          (store, Returned [(py "status", py "error");
                            (py "message", py "Document not found")])
      | Some d =>
          match process_body env document_id doc_uuid (mkSession store store doc_uuid d) with
          | (s, Ok r) => (committed s, Returned r)
          | (s, Raise e) =>
              (committed (fst (process_fatal doc_uuid e s)), Retry e 60)
          end
      end
  end.

(** *** [reprocess_document] *)

Definition reocr (env : Env) (text : str) : M str :=
  if negb (truthy (strip text)) then
    try_except
      (d <-- get_doc ;;;
       text' <-- lift (ocr_extract_text env (file_path d)) ;;;
       assign (set_content (Some text')) ;;;
       flush ;;;
       ret text')
      (fun _ => ret text)
  else ret text.

Definition step_reclassify (env : Env) (doc_uuid : UUID) (text : str) : M unit :=
  try_except
    (result_ <-- call_classifier env text ;;;
     apply_title_date env result_ ;;;
     _log_step doc_uuid (py "reclassify") (py "success")
       (py "Title: " ++ cr_title result_))
    (fun e => _log_step doc_uuid (py "reclassify") (py "error") e).

(** [for cf in old_fields: session.delete(cf)] then [flush]. *)
Definition delete_old_fields (doc_uuid : UUID) : M unit :=
  modify_db (fun d =>
    set_custom_fields
      (filter (fun cf => cf_document_id cf <> doc_uuid) (custom_fields d)) d) ;;;
  flush.

Definition step_reextract_fields (env : Env) (doc_uuid : UUID) (text : str) : M unit :=
  try_except
    (fields <-- lift (extract_fields env text) ;;;
     for_each fields (fun field => modify_db (add_custom_field doc_uuid field)) ;;;
     flush ;;;
     _log_step doc_uuid (py "reextract_fields") (py "success")
       (str_of_Z (Z.of_nat (length fields)) ++ py " fields"))
    (fun e => _log_step doc_uuid (py "reextract_fields") (py "error") e).

Definition step_reembed (env : Env) (doc_uuid : UUID) (text : str) : M unit :=
  try_except
    (embedding_ <-- lift (embed_text env text) ;;;
     assign (set_embedding (Some embedding_)) ;;;
     flush ;;;
     _log_step doc_uuid (py "reembed") (py "success") (py "Embedding regenerated"))
    (fun e => _log_step doc_uuid (py "reembed") (py "error") e).

Definition reprocess_body (env : Env) (document_id : str) (doc_uuid : UUID) : M dict :=
  assign (set_status processing) ;;;
  flush ;;;
  _log_step doc_uuid (py "reprocess_start") (py "info") (py "Reprocessing started") ;;;
  d <-- get_doc ;;;
  text <-- reocr env (default [] (content d)) ;;;
  step_reclassify env doc_uuid text ;;;
  delete_old_fields doc_uuid ;;;
  step_reextract_fields env doc_uuid text ;;;
  step_reembed env doc_uuid text ;;;
  assign (set_status done) ;;;
  assign (set_modified_date (utcnow env)) ;;;
  _log_step doc_uuid (py "reprocess_complete") (py "success")
    (py "Reprocessing complete") ;;;
  commit ;;;
  ret [(py "status", py "done"); (py "document_id", document_id)].

(** The outer [except Exception] of [reprocess_document]. *)
Definition reprocess_fatal : M unit :=
  assign (set_status error) ;;;
  commit.

Definition reprocess_document (env : Env) (document_id : str) (store : DB) : DB * Outcome :=
  match uuid_UUID env document_id with
  | Raise e => (store, Raised e)
  | Ok doc_uuid =>
      match documents store !! doc_uuid with
      | None =>
          (store, Returned [(py "status", py "error");
                            (py "message", py "Document not found")])
      | Some d =>
          match reprocess_body env document_id doc_uuid (mkSession store store doc_uuid d) with
          | (s, Ok r) => (committed s, Returned r)
          | (s, Raise e) => (committed (fst (reprocess_fatal s)), Retry e 60)
          end
      end
  end.

End Process.


(** ** documents.py: [search_documents], the hybrid branch *)

Module Search.
Import Models.

(** A dict built by a comprehension over rows: a later row with the same
    key replaces an earlier one. *)
Definition dict_of_rows {V} (rows : list (UUID * V)) : gmap UUID V :=
  fold_left (fun m r => <[r.1 := r.2]> m) rows ∅.

(** [float(1 - row[1]) if row[1] is not None else 0.0] *)
Definition similarity (distance : option float) : float :=
  match distance with
  | Some d => (1 - d)%float
  | None => 0%float
  end.

Definition ft_scores_of (ft_result : list (UUID * float)) : gmap UUID float :=
  dict_of_rows ft_result.

Definition sem_scores_of (sem_result : list (UUID * option float)) : gmap UUID float :=
  dict_of_rows (map (fun r => (r.1, similarity r.2)) sem_result).


(** The body of [for did in all_ids]. *)
Definition combine (ft_scores sem_scores : gmap UUID float) (did : UUID) : UUID * float :=
  let ft := default 0%float (ft_scores !! did) in
  let sem := default 0%float (sem_scores !! did) in
  (did, (ft * 0.4 + sem * 0.6)%float).

(** [combined.sort(key=lambda x: x[1], reverse=True)]: a stable sort,
    largest key first; entries with equal keys keep their order.  The
    keys are compared with [<] only. *)
Fixpoint insert_desc (x : UUID * float) (l : list (UUID * float)) : list (UUID * float) :=
  match l with
  | [] => [x]
  | y :: l' => if (x.2 <? y.2)%float then y :: insert_desc x l' else x :: y :: l'
  end.

Definition sort_desc (l : list (UUID * float)) : list (UUID * float) :=
  foldr insert_desc [] l.

(** The sorted list [combined]; [iteration] is the order in which the
    loop visits the set [all_ids]. *)
Definition combined (ft_scores sem_scores : gmap UUID float) (iteration : list UUID)
  : list (UUID * float) :=
  sort_desc (map (combine ft_scores sem_scores) iteration).

Record Page : Type := mkPage {
  total : Z;
  page_ids : list UUID;
  score_map : gmap UUID float;
}.

(** The branch up to [score_map]; the rows of the page are then fetched
    by id and returned with these scores. *)
Definition hybrid (ft_result : list (UUID * float))
           (sem_result : list (UUID * option float))
           (iteration : list UUID) (page size : Z) : Page :=
  let offset := (page - 1) * size in
  let ft_scores := ft_scores_of ft_result in
  let sem_scores := sem_scores_of sem_result in
  let combined_ := combined ft_scores sem_scores iteration in
  mkPage (len combined_)
         (map fst (slice combined_ offset (offset + size)))
         (dict_of_rows combined_).




End Search.


(** ** Properties of chunk lists, used to state the theorems *)

Module EmbeddingsSpec.
Import Embeddings.

(** What the loop returns for the windows [text[start:start+chunk_size]]
    it cuts: each window stripped, blank windows dropped. *)
Definition emit_all (windows : list str) : list str :=
  fold_left emit windows [].

(** "The chunks cover the whole text, consecutive chunks overlapping by
    exactly [ov] characters except possibly the last pair": every chunk
    sits in the text at an offset, the first at 0, the last ends where
    the text ends, a chunk that is not the last but one starts its
    successor [ov] characters before its own end, and the last but one
    leaves no gap before the last. *)
Fixpoint laid_out (ov : nat) (text : str) (pos : nat) (chunks : list str) : Prop :=
  match chunks with
  | [] => False
  | c :: rest =>
      take (length c) (drop pos text) = c /\
      match rest with
      | [] => (pos + length c = length text)%nat
      | c' :: rest' =>
          match rest' with
          | [] => exists pos', (pos < pos' <= pos + length c)%nat /\
                               laid_out ov text pos' rest
          | _ :: _ => (ov <= length c)%nat /\ (ov <= length c')%nat /\
                      laid_out ov text (pos + length c - ov) rest
          end
      end
  end.

Definition overlap_cover (ov : nat) (text : str) (chunks : list str) : Prop :=
  match chunks with
  | [] => text = []
  | _ :: _ => laid_out ov text 0 chunks
  end.

End EmbeddingsSpec.

(** ** Properties of runs, used to state the theorems *)

Module ProcessSpec.
Import Models Process.

(** [frame p m]: running [m] leaves the projection [p] of the session as
    it was, whether [m] returns or raises. *)
Definition frame {X A} (p : Session -> X) (m : M A) : Prop :=
  forall s, p (m s).1 = p s.

(** What a stage must leave alone while it works: the committed store,
    the identity of the loaded document, its content, and the log. *)
Definition quiet_view (s : Session) : DB * UUID * option str * list ProcessingLog :=
  (committed s, doc_key s, content (doc s), processing_logs (db s)).

(** [logged u steps s s']: from [s] to [s'] the log of document [u] grew
    by entries with exactly these step names, in this order, and the rest
    of the quiet view is unchanged. *)
Definition logged (u : UUID) (steps : list str) (s s' : Session) : Prop :=
  committed s' = committed s /\ doc_key s' = doc_key s /\
  content (doc s') = content (doc s) /\
  exists new, (processing_logs (db s') = processing_logs (db s) ++ new)
              /\ (map step new = steps)
              /\ Forall (fun l => log_document_id l = u) new.

(** The body of a stage's [try]: if it raises, nothing was logged; if it
    returns, exactly the stage's entry was. *)
Definition stage_body {A} (u : UUID) (st : str) (m : M A) : Prop :=
  forall s, match m s with
            | (s', Ok _) => logged u [st] s s'
            | (s', Raise _) => logged u [] s s'
            end.

(** A non-fatal stage: it never raises and logs exactly one entry. *)
Definition stage (u : UUID) (st : str) (m : M unit) : Prop :=
  forall s, (m s).2 = Ok tt /\ logged u [st] s (m s).1.


(** The (name, value, type) triples of the fields of document [u], in
    table order. *)
Definition fields_of (u : UUID) (d : DB) : list (str * str * str) :=
  map (fun cf => (field_name cf, field_value cf, field_type cf))
      (filter (fun cf => cf_document_id cf = u) (custom_fields d)).

(** The text a rerun works on: the stored content, or, when that is blank,
    what a new text extraction returns (the stored content again if the
    extraction raises). *)
Definition rerun_text (env : Env) (d : Document) : str :=
  let text := default [] (content d) in
  if truthy (strip text) then text
  else match ocr_extract_text env (file_path d) with
       | Ok text' => text'
       | Raise _ => text
       end.

(** The content a rerun leaves: replaced only by a new extraction that
    returned. *)
Definition rerun_content (env : Env) (d : Document) : option str :=
  if truthy (strip (default [] (content d))) then content d
  else match ocr_extract_text env (file_path d) with
       | Ok text' => Some text'
       | Raise _ => content d
       end.

(** An extracted field as it is stored. *)
Definition triple (f : ExtractedField) : str * str * str :=
  (ef_name f, ef_value f, ef_type f).

(** [invariant I m]: running [m] from a session satisfying [I] leaves a
    session satisfying [I], whether [m] returns or raises. *)
Definition invariant {A} (I : Session -> Prop) (m : M A) : Prop :=
  forall s, I s -> I (m s).1.

(** [keeps R m]: the session [m] leaves is [R]-related to the one it
    started from, whether [m] returns or raises. *)
Definition keeps {A} (R : Session -> Session -> Prop) (m : M A) : Prop :=
  forall s, R s (m s).1.

(** The invariant of the tag tables as a predicate on sessions. *)
Definition tags_ok (s : Session) : Prop :=
  NoDup (map tag_slug (tags (db s))) /\ NoDup (document_tags (db s)).

Definition tag_tables (s : Session) : list Tag * list DocumentTag :=
  (tags (db s), document_tags (db s)).

(** The tables of tags and of associations only grow, at the end. *)
Definition vocabulary_grows (s s' : Session) : Prop :=
  (exists new, tags (db s') = tags (db s) ++ new)
  /\ (exists new, document_tags (db s') = document_tags (db s) ++ new).

End ProcessSpec.

(** ** A concrete environment and store *)

Module Sample.
Import Models Process.

Definition hex_value (c : codepoint) : option N :=
  if ((48 <=? c) && (c <=? 57))%N then Some (c - 48)%N
  else if ((97 <=? c) && (c <=? 102))%N then Some (c - 87)%N
  else if ((65 <=? c) && (c <=? 70))%N then Some (c - 55)%N
  else None.

Fixpoint hex_number (acc : N) (s : str) : option N :=
  match s with
  | [] => Some acc
  | c :: s' => match hex_value c with
               | Some v => hex_number (16 * acc + v)%N s'
               | None => None
               end
  end.

(** [uuid.UUID] on the canonical form: hyphens dropped, 32 hex digits. *)
Definition parse_uuid (s : str) : result UUID :=
  let hex := filter (fun c => c <> 45%N) s in
  if decide (length hex = 32%nat) then
    match hex_number 0 hex with
    | Some n => Ok n
    | None => Raise (py "badly formed hexadecimal UUID string")
    end
  else Raise (py "badly formed hexadecimal UUID string").

Definition ascii_lower (s : str) : str :=
  map (fun c => if ((65 <=? c) && (c <=? 90))%N then (c + 32)%N else c) s.

Definition ascii_alnum (c : codepoint) : bool :=
  ((48 <=? c) && (c <=? 57) || (65 <=? c) && (c <=? 90)
   || (97 <=? c) && (c <=? 122))%N.

(** The result of [ClassificationResult()]. *)
Definition no_classification : ClassificationResult :=
  {| cr_title := []; cr_tags := []; cr_document_type := []; cr_correspondent := [];
     cr_date := None; cr_summary := [] |}.

(** An environment whose services answer as given; as in the services'
    code, blank text is answered without calling a model: an empty
    classification, no fields, the zero vector. *)
Definition env (ocr : result str) (cls : result ClassificationResult)
           (fields : result (list ExtractedField)) (info : result FileInfo) : Env :=
  {| uuid_UUID := parse_uuid;
     ocr_extract_text := fun _ => ocr;
     classify := fun text _ _ _ =>
                   if truthy (strip text) then cls else Ok no_classification;
     fromisoformat := fun date =>
                        if decide (date = py "2024-01-15") then IsoOk 1705276800
                        else IsoValueError;
     extract_fields := fun text => if truthy (strip text) then fields else Ok [];
     embed_text := fun _ => Ok (replicate 384 0%float);
     THUMBNAIL_DIR := py "/data/thumbnails";
     makedirs := fun _ => Ok tt;
     generate_thumbnail := fun _ _ => Ok true;
     get_file_info := fun _ => info;
     utcnow := 1700000000;
     str_lower := ascii_lower;
     isalnum := ascii_alnum |}.

Definition doc_id_str : str := py "00000000-0000-0000-0000-000000000007".
Definition doc_id : UUID := 7%N.

Definition pending_doc : Document :=
  {| title := None; content := None;
     original_filename := py "scan.pdf"; file_path := py "2024/01/scan.pdf";
     thumbnail_path := None; document_type_id := None; correspondent_id := None;
     created_date := None; added_date := 1690000000; modified_date := 1690000000;
     status := pending; embedding := None;
     page_count := Some 3; file_size := Some 1234;
     mime_type := Some (py "application/pdf") |}.

Definition empty_store : DB :=
  {| documents := ∅;
     tags := []; tags_id_seq := 1;
     document_types := []; document_types_id_seq := 1;
     correspondents := []; correspondents_id_seq := 1;
     document_tags := [];
     custom_fields := []; custom_fields_id_seq := 1;
     processing_logs := []; processing_logs_id_seq := 1 |}.

(** One pending document, and one stale field attached to it. *)
Definition store : DB :=
  set_custom_fields_id_seq 2
    (set_custom_fields
       [mkCustomField 1 doc_id (py "Due Date") (py "2023-01-31") (py "date")]
       (set_documents {[ doc_id := pending_doc ]} empty_store)).

Definition invoice : ClassificationResult :=
  {| cr_title := py "Invoice 42";
     cr_tags := [py "Invoice"; py "invoice"; py "Tax 2024"];
     cr_document_type := py "Invoice";
     cr_correspondent := py "ACME GmbH";
     cr_date := Some (py "2024-01-15");
     cr_summary := py "An invoice." |}.

Definition invoice_fields : list ExtractedField :=
  [mkExtractedField (py "Total Amount") (py "12.50 EUR") (py "amount")].

Definition file_info : FileInfo :=
  {| fi_size := Some 1234; fi_mime_type := Some (py "application/pdf");
     fi_pages := Some 5 |}.

Definition good_env : Env :=
  env (Ok (py "Invoice 42 total 12.50 EUR")) (Ok invoice) (Ok invoice_fields)
      (Ok file_info).


(** A file system and two engines for the text extractor. *)
Definition backend (present : bool) (tesseract vision : result str) : Ocr.Backend :=
  {| Ocr.MEDIA_DIR := py "/data/media";
     Ocr.path_exists := fun _ => present;
     Ocr._tesseract_ocr := fun _ => tesseract;
     Ocr._ollama_vision_ocr := fun _ => vision |}.

(** Two documents and their scores for a query: full-text ranks and
    cosine distances. *)
Definition A : UUID := 10%N.
Definition B : UUID := 11%N.
Definition ft_result : list (UUID * float) := [(A, 0.8%float); (B, 0%float)].
Definition sem_result : list (UUID * option float) :=
  [(A, Some 0.8%float); (B, Some 0.1%float)].

(** The session of a task that has just loaded the document. *)
Definition session : Session := mkSession store store doc_id pending_doc.

End Sample.

(** ** Windows and chunks, used to state the theorems *)

Module ChunkSpec.
Import Embeddings.

(** The first [n] windows [text[start:start+chunk_size]] the loop cuts:
    the window [k] starts at [k * (chunk_size - overlap)]. *)
Definition chunk_windows (text : str) (chunk_size overlap : Z) (n : nat) : list str :=
  map (fun k => slice text (Z.of_nat k * (chunk_size - overlap))
                           (Z.of_nat k * (chunk_size - overlap) + chunk_size))
      (seq 0 n).

(** The number of windows that start inside the text. *)
Definition window_count (text : str) (chunk_size overlap : Z) : nat :=
  Z.to_nat ((len text + (chunk_size - overlap) - 1) / (chunk_size - overlap)).

(** What a chunk of [text] is: not empty, without white space at either
    end, a piece of the text, and no longer than [chunk_size] when that is
    not negative. *)
Definition good_chunk (text : str) (chunk_size : Z) (c : str) : Prop :=
  c <> [] /\ strip c = c
  /\ (exists pre post, text = pre ++ c ++ post)
  /\ (0 <= chunk_size -> len c <= chunk_size).

End ChunkSpec.

(** ** The shape of a slug, used to state the theorems *)

Module SlugSpec.
Import Process.

(** Two hyphens in a row somewhere in [s]. *)
Fixpoint double_hyphen (s : str) : bool :=
  match s with
  | c :: s' =>
      match s' with
      | d :: _ => (is_hyphen c && is_hyphen d) || double_hyphen s'
      | [] => false
      end
  | [] => false
  end.

(** Neither white space nor an underscore. *)
Definition slug_char (c : codepoint) : Prop := is_space c = false /\ c <> 95%N.

End SlugSpec.

(** ** Whole runs, used to state the theorems *)

Module RunSpec.
Import Models Process ProcessSpec.

(** The session a first-time run has reached when text extraction has
    returned [text]: status [processing], the [start] entry, the content
    and the [ocr] entry. *)
Definition ocr_done (u : UUID) (text : str) : M unit :=
  assign (set_status processing) ;;;
  flush ;;;
  _log_step u (py "start") (py "info") (py "Processing started") ;;;
  assign (set_content (Some text)) ;;;
  flush ;;;
  _log_step u (py "ocr") (py "success")
    (py "Extracted " ++ str_of_Z (len text) ++ py " characters").

(** The end of a first-time run. *)
Definition complete (env : Env) (u : UUID) : M unit :=
  assign (set_status done) ;;;
  assign (set_modified_date (utcnow env)) ;;;
  _log_step u (py "complete") (py "success") (py "Processing complete") ;;;
  commit.

(** What a store holds for the documents other than [u]. *)
Definition foreign (u : UUID) (d : DB)
  : gmap UUID Document * list CustomField * list DocumentTag * list ProcessingLog :=
  (delete u (documents d),
   filter (fun cf => cf_document_id cf <> u) (custom_fields d),
   filter (fun a => dt_document_id a <> u) (document_tags d),
   filter (fun l => log_document_id l <> u) (processing_logs d)).

(** [confined u Rel s]: the session works on document [u], and both the
    store of the transaction and the committed store satisfy [Rel]. *)
Definition confined (u : UUID) (Rel : DB -> Prop) (s : Session) : Prop :=
  doc_key s = u /\ Rel (db s) /\ Rel (committed s).

(** The log of [d] is the log of [d0] followed by entries of [u]. *)
Definition log_extends (u : UUID) (d0 d : DB) : Prop :=
  exists new, processing_logs d = processing_logs d0 ++ new
              /\ Forall (fun l => log_document_id l = u) new.

(** The updates a first-time run for document [u] makes to a store; a
    rerun makes the second, the sixth and the last three. *)
Inductive update_of (u : UUID) : (DB -> DB) -> Prop :=
| update_row row :
    update_of u (fun d => set_documents (<[u := row]> (documents d)) d)
| update_log st status_ msg : update_of u (add_log u st status_ msg)
| update_tag name slug color : update_of u (add_tag name slug color)
| update_document_type name slug : update_of u (add_document_type name slug)
| update_correspondent name slug : update_of u (add_correspondent name slug)
| update_custom_field f : update_of u (add_custom_field u f)
| update_document_tag tag : update_of u (add_document_tag u tag)
| update_delete_fields :
    update_of u (fun d => set_custom_fields
                            (filter (fun cf => cf_document_id cf <> u) (custom_fields d)) d).

Definition closed (u : UUID) (Rel : DB -> Prop) : Prop :=
  forall f d, update_of u f -> Rel d -> Rel (f d).

(** What a store holds about document [u]: its row, its custom fields,
    its tag associations and its log entries. *)
Definition about (u : UUID) (d : DB)
  : option Document * list CustomField * list DocumentTag * list ProcessingLog :=
  (documents d !! u,
   filter (fun cf => cf_document_id cf = u) (custom_fields d),
   filter (fun a => dt_document_id a = u) (document_tags d),
   filter (fun l => log_document_id l = u) (processing_logs d)).

(** [store'] has the log of [store] followed by entries of the document
    that [document_id] names. *)
Definition appends (env : Env) (document_id : str) (store store' : DB) : Prop :=
  exists new, processing_logs store' = processing_logs store ++ new
              /\ Forall (fun l => uuid_UUID env document_id = Ok (log_document_id l)) new.

(** The title the classification stage leaves on a document whose title
    was [old]. *)
Definition title_after (r : result ClassificationResult) (old : option str) : option str :=
  match r with
  | Ok result_ => if truthy (cr_title result_) then Some (cr_title result_) else old
  | Raise _ => old
  end.

(** The classifier as a stage calls it on a store. *)
Definition classifier_result (env : Env) (text : str) (d : DB) : result ClassificationResult :=
  classify env text (map tag_name (tags d)) (map dtype_name (document_types d))
           (map corr_name (correspondents d)).

(** The embedding the embedding stage leaves. *)
Definition embedding_after (r : result (list float)) (old : option (list float))
  : option (list float) :=
  match r with
  | Ok e => Some e
  | Raise _ => old
  end.

(** The tables of names and the links of a document to them. *)
Definition vocabulary (d : DB)
  : list Tag * list DocumentTag * list DocumentType * list Correspondent :=
  (tags d, document_tags d, document_types d, correspondents d).

(** What of a row only the thumbnail stage or the upload writes. *)
Definition file_facts (d : Document) :=
  (original_filename d, file_path d, thumbnail_path d, page_count d, file_size d,
   mime_type d, added_date d).

End RunSpec.
(** ** Pages of a hybrid search, used to state the theorems *)

Module SearchSpec.
Import Models Search.

(** The ids of the pages 1 to [n], one after the other. *)
Definition pages_upto (ft_result : list (UUID * float))
           (sem_result : list (UUID * option float))
           (iteration : list UUID) (size : Z) (n : nat) : list UUID :=
  concat (map (fun k => page_ids (hybrid ft_result sem_result iteration (Z.of_nat k + 1) size))
              (seq 0 n)).

End SearchSpec.

(** ** classifier.py, fields.py, embeddings.py: the services behind the pipeline *)

Module Services.
Import Models Process.

(** [s.split(sep)] for a separator of one character. *)
Fixpoint split_char (sep : codepoint) (s : str) : list str :=
  match s with
  | [] => [[]]
  | c :: s' =>
      if (c =? sep)%N then [] :: split_char sep s'
      else match split_char sep s' with
           | l :: ls => (c :: l) :: ls
           | [] => [[c]]
           end
  end.

(** [ClassificationResult()] and [ClassificationResult(title=t)] *)
Definition titled (t : str) : ClassificationResult :=
  {| cr_title := t; cr_tags := []; cr_document_type := []; cr_correspondent := [];
     cr_date := None; cr_summary := [] |}.

Definition _fallback_title (text : str) : str :=
  let lines := omap (fun l => if truthy (strip l) then Some (strip l) else None)
                    (split_char 10%N text) in
  match lines with
  | first :: _ => slice first 0 100
  | [] => py "Untitled Document"
  end.

(** [not text or not text.strip()] *)
Definition blank (text : str) : bool := negb (truthy text) || negb (truthy (strip text)).

(** [ClassifierService.classify].  [generate] is the body of the [try]:
    the request to the model with the prompt built from the truncated
    text and the three lists of names, and the parsing of the answer. *)
Definition classify
           (generate : str -> list str -> list str -> list str -> result ClassificationResult)
           (text : str) (existing_tags existing_types existing_correspondents : list str)
  : ClassificationResult :=
  if blank text then titled []
  else
    let truncated := slice text 0 4000 in
    match generate truncated existing_tags existing_types existing_correspondents with
    | Ok r => r
    | Raise _ => titled (_fallback_title text)
    end.

(** [FieldExtractor.extract_fields]; [extract] is the function from the
    truncation on, for a text that is not blank. *)
Definition extract_fields (extract : str -> list ExtractedField) (text : str)
  : list ExtractedField :=
  if blank text then [] else extract text.

(** [EmbeddingService.embed_text]; [encode] loads the model and encodes. *)
Definition embed_text (encode : str -> result (list float)) (text : str)
  : result (list float) :=
  if blank text then Ok (replicate 384 0%float) else encode text.

(** The services as the tasks import them, in the environment [base] of
    the run-time library and the thumbnail service. *)
Definition service_env (base : Env) (b : Ocr.Backend)
           (generate : str -> list str -> list str -> list str -> result ClassificationResult)
           (extract : str -> list ExtractedField)
           (encode : str -> result (list float)) : Env :=
  {| uuid_UUID := uuid_UUID base;
     ocr_extract_text := Ocr.extract_text b;
     Process.classify := fun text tags types corrs =>
                           Ok (classify generate text tags types corrs);
     fromisoformat := fromisoformat base;
     Process.extract_fields := fun text => Ok (extract_fields extract text);
     Process.embed_text := embed_text encode;
     THUMBNAIL_DIR := THUMBNAIL_DIR base;
     makedirs := makedirs base;
     generate_thumbnail := generate_thumbnail base;
     get_file_info := get_file_info base;
     utcnow := utcnow base;
     str_lower := str_lower base;
     isalnum := isalnum base |}.

End Services.

(** ** Titles and links, used to state the theorems *)

Module ServicesSpec.
Import Models Process Services.

(** [piece] is a contiguous piece of [text]. *)
Definition piece_of (text piece : str) : Prop :=
  exists pre post, text = pre ++ piece ++ post.


(** The links of a row that the classification stage sets. *)
Definition links (d : Document) : option N * option N * option datetime :=
  (document_type_id d, correspondent_id d, created_date d).

End ServicesSpec.

(** ** rag.py: [RAGService.answer] *)

Module Rag.
Import Models.

(** How the request to the language model ends: with the text of its
    answer, with [httpx.ConnectError], or with another exception. *)
Inductive llm_result : Type :=
| Answer (text : str)
| ConnectError
| OtherError (e : str).

(** What [answer] reaches outside the program: the embedding service, the
    rows of documents with an embedding ordered by cosine distance to the
    query (before the limit), and the language model on a prompt. *)
Record Backend : Type := mkBackend {
  embed_text : str -> result (list float);
  nearest : list float -> list (UUID * Document * option float);
  generate : str -> llm_result;
}.

Record ChatSource : Type := mkChatSource {
  cs_doc_id : UUID;
  cs_title : str;
  cs_snippet : str;
}.

Record Reply : Type := mkReply {
  reply_answer : str;
  reply_sources : list ChatSource;
}.

(** [sep.join(parts)] *)
Fixpoint join (sep : str) (parts : list str) : str :=
  match parts with
  | [] => []
  | [p] => p
  | p :: rest => p ++ sep ++ join sep rest
  end.

(** [1 - (distance if distance is not None else 1.0)] *)
Definition similarity (distance : option float) : float :=
  (1 - match distance with Some d => d | None => 1 end)%float.

(** [doc.title or doc.original_filename] *)
Definition title_or_filename (doc : Document) : str :=
  match title doc with
  | Some t => if truthy t then t else original_filename doc
  | None => original_filename doc
  end.

(** The body of [for doc, distance in rows]. *)
Definition visit (acc : list str * list ChatSource) (row : UUID * Document * option float)
  : list str * list ChatSource :=
  let '(id, doc, distance) := row in
  if (similarity distance <? 0.1)%float then acc
  else
    let snippet := slice (default [] (content doc)) 0 800 in
    let title_ := title_or_filename doc in
    (acc.1 ++ [py "[Document: " ++ title_ ++ py "]" ++ [10%N] ++ snippet],
     acc.2 ++ [mkChatSource id title_ (slice snippet 0 200)]).

Definition no_documents : str :=
  py "I don't have any documents to search through yet. Please upload some documents first.".

Definition no_relevant_documents : str :=
  py "I couldn't find any relevant documents for your question. Try rephrasing or uploading more documents.".

Definition user_prompt (context question : str) : str :=
  py "Context from documents:" ++ [10%N] ++ context ++ [10%N; 10%N]
  ++ py "Question: " ++ question ++ [10%N; 10%N]
  ++ py "Answer based on the documents above:".

Definition answer (b : Backend) (question : str) : result Reply :=
  match embed_text b question with
  | Raise e => Raise e
  | Ok query_embedding =>
      let rows := take 5 (nearest b query_embedding) in
      match rows with
      | [] => Ok (mkReply no_documents [])
      | _ :: _ =>
          let '(context_parts, sources) := fold_left visit rows ([], []) in
          match context_parts with
          | [] => Ok (mkReply no_relevant_documents [])
          | _ :: _ =>
              let context := join ([10%N; 10%N] ++ py "---" ++ [10%N; 10%N]) context_parts in
              let answer_text :=
                match generate b (user_prompt context question) with
                | Answer text => text
                | ConnectError =>
                    py "The AI model is currently unavailable. Here are the most relevant documents I found:"
                    ++ [10%N; 10%N]
                    ++ join [10%N]
                         (map (fun s => py "- " ++ cs_title s ++ py ": " ++ cs_snippet s)
                              sources)
                | OtherError e => py "Error generating answer: " ++ e
                end in
              Ok (mkReply answer_text sources)
          end
      end
  end.

End Rag.

(** ** Sources of an answer, used to state the theorems *)

Module RagSpec.
Import Models Rag.

(** A row the loop keeps: its similarity is not below 0.1. *)
Definition relevant (row : UUID * Document * option float) : Prop :=
  (similarity row.2 <? 0.1)%float = false.

#[global] Instance relevant_dec row : Decision (relevant row).
Proof. unfold relevant. apply _. Defined.

(** The source shown for a row: its id, its title or else its file name,
    and the first 200 characters of its content. *)
Definition source_of (row : UUID * Document * option float) : ChatSource :=
  mkChatSource row.1.1 (title_or_filename row.1.2)
               (take 200 (default [] (content row.1.2))).

End RagSpec.

(** ** watcher.py: [_wait_for_write] *)

Module Watcher.

(** How the wait ends: by [return] when the size is stable, or by leaving
    the loop when the time is up (a warning is logged). *)
Inductive wait_end : Type :=
| Stable
| TimedOut.

(** The loop of [_wait_for_write].  [getsize k] is what
    [os.path.getsize(file_path)] gives at the poll number [k] (it may raise
    [OSError]); [time.sleep] only lets time pass.  The result is how the
    wait ends and the number of polls made. *)
Fixpoint wait_loop (fuel : nat) (getsize : nat -> result Z) (poll : nat)
         (previous_size : Z) (waited check_interval max_wait : float)
  : option (wait_end * nat) :=
  match fuel with
  | O => None
  | S fuel' =>
      if (waited <? max_wait)%float then
        match getsize poll with
        | Raise _ =>
            wait_loop fuel' getsize (S poll) previous_size
                      (waited + check_interval)%float check_interval max_wait
        | Ok current_size =>
            if (current_size =? previous_size) && (current_size >? 0)
            then Some (Stable, S poll)
            else wait_loop fuel' getsize (S poll) current_size
                           (waited + check_interval)%float check_interval max_wait
        end
      else Some (TimedOut, poll)
  end.

(** [_wait_for_write(file_path)] with the defaults [check_interval=1.0]
    and [max_wait=60], as [on_created] calls it. *)
Definition _wait_for_write (fuel : nat) (getsize : nat -> result Z)
  : option (wait_end * nat) :=
  wait_loop fuel getsize 0 (-1) 0%float 1%float 60%float.

End Watcher.

(** ** Polls of the watcher, used to state the theorems *)

Module WatcherSpec.
Import Watcher.

(** The size the last poll before poll [k] that did not raise has seen,
    -1 when there is none. *)
Fixpoint previous_at (getsize : nat -> result Z) (k : nat) : Z :=
  match k with
  | O => -1
  | S k' => match getsize k' with
            | Ok c => c
            | Raise _ => previous_at getsize k'
            end
  end.

(** Poll [k] sees a size that is positive and the same as the one seen
    before. *)
Definition stable_at (getsize : nat -> result Z) (k : nat) : Prop :=
  exists c, getsize k = Ok c /\ c = previous_at getsize k /\ 0 < c.

(** The time waited after [j] polls. *)
Definition clock (j : nat) : float := Nat.iter j (fun w => (w + 1)%float) 0%float.

End WatcherSpec.

(** ** documents.py and tags.py: the endpoints that write *)

Module Api.
Import Models Process Services.

(** How a request ends: the endpoint returns, it raises an
    [HTTPException], or another exception escapes it.  In the last two
    cases [get_db] rolls the session back. *)
Inductive response (A : Type) : Type :=
| Returned (a : A)
| HTTPException (status_code : Z) (detail : str)
| Failed (exc : str).
Arguments Returned {A} a.
Arguments HTTPException {A} status_code detail.
Arguments Failed {A} exc.

(** [filename.rsplit(".", 1)[-1].lower() if "." in filename else ""] *)
Definition _get_extension (lower : str -> str) (filename : str) : str :=
  if bool_decide (46%N ∈ filename)
  then lower (default [] (last (split_char 46%N filename)))
  else [].

(** *** tags.py *)

(** [_slugify] of tags.py: as in process.py, without the fallback. *)
Definition _slugify (env : Env) (name : str) : str :=
  let slug := strip (str_lower env name) in
  let slug := filter (fun c => isalnum env c || is_underscore c
                               || is_space c || is_hyphen c) slug in
  let slug := sub_runs (fun c => is_space c || is_underscore c) [45%N] false slug in
  strip_chars is_hyphen (sub_runs is_hyphen [45%N] false slug).

Definition create_tag (env : Env) (name color : str) (d : DB) : DB * response Tag :=
  let slug := _slugify env name in
  match scalar_one_or_none (select_tag_by_slug slug d) with
  | Raise e => (d, Failed e)
  | Ok (Some _) =>
      (d, HTTPException 409 (py "Tag with slug '" ++ slug ++ py "' already exists"))
  | Ok None =>
      (add_tag name slug color d, Returned (mkTag (tags_id_seq d) name color slug))
  end.

(** *** documents.py *)

(** [delete_document]: the files the endpoint removes, and the store
    without the row; the rows of the document in the other tables go
    with it (the relationships cascade). *)
Record Disk : Type := mkDisk {
  MEDIA_DIR : str;
  THUMBNAIL_DIR : str;
  paths : gset str;
}.

Definition remove (p : str) (k : Disk) : Disk :=
  mkDisk (MEDIA_DIR k) (THUMBNAIL_DIR k) (paths k ∖ {[p]}).

Definition delete_row (u : UUID) (d : DB) : DB :=
  set_documents (delete u (documents d))
    (set_document_tags (filter (fun a => dt_document_id a <> u) (document_tags d))
       (set_custom_fields (filter (fun cf => cf_document_id cf <> u) (custom_fields d))
          (set_processing_logs
             (filter (fun l => log_document_id l <> u) (processing_logs d)) d))).

Definition delete_document (doc_id : UUID) (w : DB * Disk) : (DB * Disk) * response unit :=
  let '(d, k) := w in
  match documents d !! doc_id with
  | None => (w, HTTPException 404 (py "Document not found"))
  | Some doc =>
      let abs_path := path_join (MEDIA_DIR k) (file_path doc) in
      let k := if bool_decide (abs_path ∈ paths k) then remove abs_path k else k in
      let k :=
        match thumbnail_path doc with
        | Some t =>
            if truthy t then
              let thumb_abs := path_join (THUMBNAIL_DIR k) t in
              if bool_decide (thumb_abs ∈ paths k) then remove thumb_abs k else k
            else k
        | None => k
        end in
      ((delete_row doc_id d, k), Returned tt)
  end.

(** The body of a [PATCH]; a field that is absent or null is [None].  The
    custom fields of a request are given with string values. *)
Record DocumentUpdate : Type := mkDocumentUpdate {
  du_title : option str;
  du_tag_ids : option (list N);
  du_document_type_id : option N;
  du_correspondent_id : option N;
  du_created_date : option datetime;
  du_custom_fields : option (list ExtractedField);
}.

(** [if v is not None: doc.f = v] *)
Definition patch {A} (v : option A) (set : option A -> Document -> Document)
           (doc : Document) : Document :=
  match v with
  | Some _ => set v doc
  | None => doc
  end.

Definition replace_tags (doc_id : UUID) (tag_ids : option (list N)) (d : DB) : DB :=
  match tag_ids with
  | Some ids =>
      set_document_tags
        (filter (fun a => dt_document_id a <> doc_id) (document_tags d)
         ++ map (mkDocumentTag doc_id) ids) d
  | None => d
  end.

Definition replace_fields (doc_id : UUID) (fields : option (list ExtractedField)) (d : DB)
  : DB :=
  match fields with
  | Some fs =>
      fold_left (fun d f => add_custom_field doc_id f d) fs
        (set_custom_fields
           (filter (fun cf => cf_document_id cf <> doc_id) (custom_fields d)) d)
  | None => d
  end.

(** [accepts] says whether the database takes the flush: it checks the
    primary key of the associations and the foreign keys. *)
Definition update_document (accepts : DB -> bool) (utcnow : datetime) (doc_id : UUID)
           (data : DocumentUpdate) (d : DB) : DB * response Document :=
  match documents d !! doc_id with
  | None => (d, HTTPException 404 (py "Document not found"))
  | Some doc =>
      let doc := patch (du_title data) set_title doc in
      let doc := patch (du_document_type_id data) set_document_type_id doc in
      let doc := patch (du_correspondent_id data) set_correspondent_id doc in
      let doc := patch (du_created_date data) set_created_date doc in
      let d' := replace_tags doc_id (du_tag_ids data) d in
      let d' := replace_fields doc_id (du_custom_fields data) d' in
      let doc := set_modified_date utcnow doc in
      let d' := set_documents (<[doc_id := doc]> (documents d')) d' in
      if accepts d' then (d', Returned doc)
      else (d, Failed (py "IntegrityError"))
  end.

End Api.

Module ApiSpec.
Import Models Process ProcessSpec Api.

(** The rows [g] makes of the fields [fs]: all of document [doc_id], with
    the name, value and type of the field. *)
Definition rows_of (doc_id : UUID) (g : list CustomField) (fs : list ExtractedField) : Prop :=
  Forall (fun cf => cf_document_id cf = doc_id) g
  /\ map (fun cf => (field_name cf, field_value cf, field_type cf)) g = map triple fs.

End ApiSpec.

(** ** documents.py: [upload_documents] *)

Module Upload.
Import Models Process Api.


(** The settings and what the endpoint reaches outside the program while
    it handles one request.  [uuid4 n] is the [n]-th identifier drawn,
    [year_month k] is [datetime.utcnow().strftime("%Y/%m")] at the [k]-th
    file, [write] does [os.makedirs] and writes the file, [from_buffer]
    imports [magic] and asks it; both may raise. *)
Record Env : Type := mkEnv {
  lower : str -> str;
  ALLOWED_EXTENSIONS : list str;
  MAX_UPLOAD_SIZE_MB : Z;
  MEDIA_DIR : str;
  year_month : nat -> str;
  uuid4 : nat -> UUID;
  uuid_str : UUID -> str;
  repr : list str -> str;
  write : str -> list Byte.byte -> result unit;
  from_buffer : list Byte.byte -> result str;
  now : datetime;
}.






End Upload.

(** ** Stored uploads, used to state the theorems *)

Module UploadSpec.
Import Models Process Api Upload.




End UploadSpec.

(** ** pdf.py: [PDFService] *)

Module Pdf.
Import Models Process.

(** What the service reaches outside the program: the media directory of
    the settings, the file system, libmagic, [pdfinfo] (with the
    conversion of its page count), and the rendering of the thumbnail, the
    body of the [try] of [generate_thumbnail]. *)
Record Backend : Type := mkBackend {
  MEDIA_DIR : str;
  path_exists : str -> bool;
  getsize : str -> result Z;
  from_file : str -> result str;
  lower : str -> str;
  pdfinfo_pages : str -> result Z;
  render : str -> str -> result bool;
}.

Definition _resolve_path (b : Backend) (file_path : str) : str :=
  if isabs file_path then file_path
  else path_join (MEDIA_DIR b) file_path.

Definition mime_map : list (str * str) :=
  [(py "pdf", py "application/pdf"); (py "png", py "image/png");
   (py "jpg", py "image/jpeg"); (py "jpeg", py "image/jpeg");
   (py "tiff", py "image/tiff"); (py "tif", py "image/tiff");
   (py "webp", py "image/webp"); (py "bmp", py "image/bmp");
   (py "gif", py "image/gif")].

(** [d.get(k, default)] for a dict given by its items. *)
Fixpoint dict_get (d : list (str * str)) (k default_ : str) : str :=
  match d with
  | [] => default_
  | (k', v) :: d' => if decide (k' = k) then v else dict_get d' k default_
  end.

Definition _detect_mime (b : Backend) (path : str) : str :=
  match from_file b path with
  | Ok mime => mime
  | Raise _ =>
      let ext := Api._get_extension (lower b) path in
      dict_get mime_map ext (py "application/octet-stream")
  end.

(** [s.endswith(suffix)] *)
Definition endswith (s suffix : str) : bool :=
  bool_decide (drop (length s - length suffix) s = suffix).

Definition is_pdf (b : Backend) (abs_path : str) : bool :=
  bool_decide (_detect_mime b abs_path = py "application/pdf")
  || endswith (lower b abs_path) (py ".pdf").

Definition get_page_count (b : Backend) (file_path : str) : Z :=
  let abs_path := _resolve_path b file_path in
  if negb (path_exists b abs_path) then 0
  else if is_pdf b abs_path then
         match pdfinfo_pages b abs_path with
         | Ok pages => pages
         | Raise _ => 0
         end
       else 1.

Definition get_file_info (b : Backend) (file_path : str) : result FileInfo :=
  let abs_path := _resolve_path b file_path in
  if negb (path_exists b abs_path)
  then Ok (mkFileInfo (Some 0) (Some (py "unknown")) (Some 0))
  else
    match getsize b abs_path with
    | Raise e => Raise e
    | Ok size =>
        let mime := _detect_mime b abs_path in
        let pages := get_page_count b file_path in
        Ok (mkFileInfo (Some size) (Some mime) (Some pages))
    end.

Definition generate_thumbnail (b : Backend) (file_path output_path : str) : bool :=
  let abs_path := _resolve_path b file_path in
  if negb (path_exists b abs_path) then false
  else match render b abs_path output_path with
       | Ok success => success
       | Raise _ => false
       end.

(** The environment [base] with this service as the thumbnail stage
    imports it. *)
Definition pdf_env (base : Env) (b : Backend) : Env :=
  {| uuid_UUID := uuid_UUID base;
     ocr_extract_text := ocr_extract_text base;
     classify := classify base;
     fromisoformat := fromisoformat base;
     extract_fields := extract_fields base;
     embed_text := embed_text base;
     THUMBNAIL_DIR := THUMBNAIL_DIR base;
     makedirs := makedirs base;
     Process.generate_thumbnail := fun file_path output_path =>
                                     Ok (generate_thumbnail b file_path output_path);
     Process.get_file_info := get_file_info b;
     utcnow := utcnow base;
     str_lower := str_lower base;
     isalnum := isalnum base |}.

End Pdf.

(** ** The unique constraints, used to state the theorems *)

Module UniqueSpec.
Import Models Process.

(** What the unique constraints of the tables of names and the primary key
    of the associations ask of a store. *)
Definition unique_slugs (d : DB) : Prop :=
  NoDup (map tag_slug (tags d))
  /\ NoDup (map dtype_slug (document_types d))
  /\ NoDup (map corr_slug (correspondents d))
  /\ NoDup (document_tags d).

(** Both the store of the transaction and the committed store satisfy
    the constraints. *)
Definition consistent (s : Session) : Prop :=
  unique_slugs (db s) /\ unique_slugs (committed s).

End UniqueSpec.

(** ** backup.py: [download_backup] and [delete_backup] *)

Module Backup.
Import Models Services Api.

(** POSIX [os.path.basename]: what follows the last slash. *)
Definition basename (p : str) : str := default [] (last (split_char 47%N p)).

(** [download_backup]: the path of the file served and the name it is
    served under; [files] are the regular files on the disk. *)
Definition download_backup (BACKUP_DIR : str) (files : gset str) (filename : str)
  : response (str * str) :=
  let safe_name := basename filename in
  let filepath := path_join BACKUP_DIR safe_name in
  if negb (bool_decide (filepath ∈ files))
  then HTTPException 404 (py "Backup file not found")
  else Returned (filepath, safe_name).

(** [delete_backup]: the files left, and the detail of the answer. *)
Definition delete_backup (BACKUP_DIR : str) (files : gset str) (filename : str)
  : gset str * response str :=
  let safe_name := basename filename in
  let filepath := path_join BACKUP_DIR safe_name in
  if negb (bool_decide (filepath ∈ files))
  then (files, HTTPException 404 (py "Backup file not found"))
  else (files ∖ {[filepath]}, Returned (py "Deleted " ++ safe_name)).

End Backup.

(** ** Entries of a directory, used to state the theorems *)

Module BackupSpec.
Import Backup.

(** [path] is an entry of the directory [dir]: the directory, a slash
    unless the directory ends with one, and one name without a slash. *)
Definition entry_of (dir path : str) : Prop :=
  exists name, (47%N ∉ name)
               /\ (path = dir ++ [47%N] ++ name
                   \/ (last dir = Some 47%N /\ path = dir ++ name)).

End BackupSpec.


(** * Theorems *)

Module EmbeddingsFacts.
Import Embeddings EmbeddingsSpec.

Lemma chunk_loop_fuel_mono fuel k text n size ov start acc r :
  chunk_loop fuel text n size ov start acc = Some r ->
  chunk_loop (fuel + k) text n size ov start acc = Some r.
Proof.
  revert start acc. induction fuel as [|fuel IH]; intros start acc; simpl; [discriminate|].
  destruct (start <? n); [apply IH | auto].
Qed.

Lemma chunk_loop_terminates text n size ov :
  ov < size ->
  forall fuel start acc,
    (Z.to_nat (n - start) < fuel)%nat ->
    exists r, chunk_loop fuel text n size ov start acc = Some r.
Proof.
  intros Hlt. induction fuel as [|fuel IH]; intros start acc Hf; [lia|].
  simpl. destruct (Z.ltb_spec start n) as [Hs|Hs]; [|eauto].
  apply IH. lia.
Qed.

Lemma chunk_loop_diverges text n size ov :
  size <= ov ->
  forall fuel start acc,
    start < n ->
    chunk_loop fuel text n size ov start acc = None.
Proof.
  intros Hle. induction fuel as [|fuel IH]; intros start acc Hs; [reflexivity|].
  simpl. destruct (Z.ltb_spec start n) as [_|Hge]; [|lia].
  apply IH. lia.
Qed.

Lemma chunk_loop_fuel_det fuel1 fuel2 text n size ov start acc r1 r2 :
  chunk_loop fuel1 text n size ov start acc = Some r1 ->
  chunk_loop fuel2 text n size ov start acc = Some r2 ->
  r1 = r2.
Proof.
  intros H1 H2.
  apply (chunk_loop_fuel_mono _ fuel2) in H1.
  apply (chunk_loop_fuel_mono _ fuel1) in H2.
  rewrite (Nat.add_comm fuel2 fuel1) in H2. congruence.
Qed.

Lemma truthy_false (s : str) : truthy s = false <-> s = [].
Proof. destruct s; simpl; split; congruence. Qed.

Lemma slice_inside {A} (s : list A) (a b : Z) :
  0 <= a -> a <= b -> b <= len s ->
  slice s a b = take (Z.to_nat (b - a)) (drop (Z.to_nat a) s).
Proof.
  intros Ha Hab Hb. unfold slice, adjust.
  destruct (Z.ltb_spec a 0); [lia|]. destruct (Z.ltb_spec b 0); [lia|].
  rewrite !Z.min_l by lia. reflexivity.
Qed.

Lemma slice_past_end {A} (s : list A) (a b : Z) :
  0 <= a -> a <= len s -> len s <= b ->
  slice s a b = slice s a (len s).
Proof.
  intros Ha Hal Hb. unfold slice, adjust.
  destruct (Z.ltb_spec a 0); [lia|]. destruct (Z.ltb_spec b 0); [lia|].
  destruct (Z.ltb_spec (len s) 0); [lia|].
  rewrite (Z.min_r b) by lia. rewrite (Z.min_l (len s)) by lia. reflexivity.
Qed.

Lemma slice_length {A} (s : list A) (a b : Z) :
  0 <= a -> a <= b -> b <= len s ->
  length (slice s a b) = Z.to_nat (b - a).
Proof.
  intros Ha Hab Hb. rewrite slice_inside by lia.
  rewrite length_take, length_drop. unfold len in Hb. lia.
Qed.

(** C6, as the code has it: there is no validation of the parameters; the
    loop ends exactly when the text is empty or [overlap < chunk_size]. *)
Theorem chunk_text_terminates_iff (text : str) (chunk_size overlap : Z) :
  (exists fuel r, chunk_text fuel text chunk_size overlap = Some r)
  <-> (text = [] \/ overlap < chunk_size).
Proof.
  unfold chunk_text. split.
  - intros (fuel & r & H).
    destruct text as [|c text]; [left; reflexivity|right].
    simpl in H. destruct (Z.lt_ge_cases overlap chunk_size) as [|Hle]; [assumption|].
    rewrite (chunk_loop_diverges _ _ _ _ Hle) in H; [discriminate|].
    unfold len. simpl length. lia.
  - intros [->|Hlt].
    + exists O, []. reflexivity.
    + destruct (truthy text); simpl; [|exists O; eauto].
      destruct (chunk_loop_terminates text (len text) _ _ Hlt
                  (S (Z.to_nat (len text - 0))) 0 []) as [r Hr]; [lia|].
      eauto.
Qed.

(** C6, refuted as stated: with [chunk_size = overlap = 5] the one-character
    text ["a"] is accepted and the loop never ends. *)
Lemma chunk_text_accepts_equal_overlap :
  ~ (exists fuel chunks, chunk_text fuel [97%N] 5 5 = Some chunks).
Proof.
  intros (fuel & chunks & H). unfold chunk_text in H. simpl in H.
  rewrite chunk_loop_diverges in H; [discriminate|lia|reflexivity].
Qed.

(** C7, as the code has it: on a text of 1200 characters the loop cuts the
    three windows [text[0:500]], [text[450:950]], [text[900:1200]], which
    cover the text with overlaps of exactly 50; what is returned is each
    window stripped, blank windows dropped, hence the windows themselves
    when stripping changes none of them.  The empty text gives []. *)
Theorem chunk_text_1200 (text : str) :
  length text = 1200%nat ->
  let windows := [slice text 0 500; slice text 450 950; slice text 900 1200] in
  chunk_text 4 text 500 50 = Some (emit_all windows)
  /\ overlap_cover 50 text windows
  /\ (Forall (fun w => strip w = w) windows -> chunk_text 4 text 500 50 = Some windows)
  /\ (forall fuel size ov, chunk_text fuel [] size ov = Some []).
Proof.
  intros Hlen windows.
  assert (Hl : len text = 1200) by (unfold len; rewrite Hlen; reflexivity).
  assert (Hrun : chunk_text 4 text 500 50 = Some (emit_all windows)); [|split; [exact Hrun|]].
  2: split; [|split].
  3: { intros Hall. rewrite Hrun. f_equal. unfold emit_all, windows in *.
       apply Forall_cons in Hall as [H1 Hall]. apply Forall_cons in Hall as [H2 Hall].
       apply Forall_cons in Hall as [H3 _].
       assert (Hne : forall w : str, (0 < length w)%nat -> truthy w = true)
         by (intros [|c w] Hw; [simpl in Hw; lia|reflexivity]).
       cbn [fold_left]. unfold emit. rewrite H1, H2, H3.
       rewrite !Hne by (rewrite slice_length by lia; lia). reflexivity. }
  - unfold chunk_text. destruct text as [|c text']; [discriminate|].
    set (text := c :: text') in *. simpl truthy. simpl negb. cbv iota.
    rewrite Hl. unfold windows, emit_all. simpl.
    change (0 + (500 - 50) + (500 - 50) + 500) with 1400.
    change (0 + (500 - 50) + (500 - 50)) with 900.
    rewrite (slice_past_end text 900 1400) by lia. rewrite Hl. reflexivity.
  - unfold overlap_cover, windows, laid_out.
    rewrite !slice_length by lia.
    rewrite !slice_inside by lia.
    change (Z.to_nat (500 - 0)) with 500%nat.
    change (Z.to_nat (950 - 450)) with 500%nat.
    change (Z.to_nat (1200 - 900)) with 300%nat.
    change (Z.to_nat 0) with 0%nat. change (Z.to_nat 450) with 450%nat.
    change (Z.to_nat 900) with 900%nat.
    repeat split; try lia; try reflexivity.
    exists 900%nat. repeat split; try lia; try reflexivity.
  - reflexivity.
Qed.

Lemma chunk_text_1200_witness :
  length (replicate 1200 97%N) = 1200%nat /\
  chunk_text 4 (replicate 1200 97%N) 500 50
  = Some (emit_all [slice (replicate 1200 97%N) 0 500;
                    slice (replicate 1200 97%N) 450 950;
                    slice (replicate 1200 97%N) 900 1200]).
Proof.
  split; [reflexivity|].
  destruct (chunk_text_1200 (replicate 1200 97%N) eq_refl) as [Hrun _].
  exact Hrun.
Defined.

(** C7, refuted as stated: a text of 1200 blanks gives no chunk at all,
    so the chunks do not cover it. *)
Lemma chunk_text_blank_1200_not_covered :
  length (replicate 1200 32%N) = 1200%nat /\
  chunk_text 4 (replicate 1200 32%N) 500 50 = Some [] /\
  forall fuel chunks,
    chunk_text fuel (replicate 1200 32%N) 500 50 = Some chunks ->
    chunks = [] /\ ~ overlap_cover 50 (replicate 1200 32%N) chunks.
Proof.
  split; [reflexivity|]. split; [vm_compute; reflexivity|]. intros fuel chunks H.
  assert (H4 : chunk_text 4 (replicate 1200 32%N) 500 50 = Some [])
    by (vm_compute; reflexivity).
  unfold chunk_text in H, H4. simpl truthy in H, H4. simpl negb in H, H4.
  cbv iota in H, H4.
  rewrite (chunk_loop_fuel_det _ _ _ _ _ _ _ _ _ _ H H4).
  split; [reflexivity|]. simpl. discriminate.
Qed.

End EmbeddingsFacts.

Module OcrFacts.
Import Ocr.

(** C5, as the code has it: the extractor never raises.  A missing file
    gives the empty string, and so does a file in which neither engine
    finds text (each engine returning blank text or raising). *)
Theorem extract_text_never_raises (b : Backend) (file_path : str) :
  (exists text, extract_text b file_path = Ok text)
  /\ (path_exists b (_resolve_path b file_path) = false ->
      extract_text b file_path = Ok [])
  /\ ((forall t, _tesseract_ocr b (_resolve_path b file_path) = Ok t -> strip t = []) ->
      (forall t, _ollama_vision_ocr b (_resolve_path b file_path) = Ok t -> strip t = []) ->
      extract_text b file_path = Ok []).
Proof.
  unfold extract_text. split; [|split].
  - destruct (path_exists b _); simpl; eauto.
  - intros ->. reflexivity.
  - intros Ht Hv. destruct (path_exists b _); simpl; [|reflexivity].
    destruct (_tesseract_ocr b _) as [t|e] eqn:Et.
    + rewrite (Ht t eq_refl). simpl.
      destruct (_ollama_vision_ocr b _) as [v|e] eqn:Ev.
      * rewrite (Hv v eq_refl). simpl. rewrite (Ht t eq_refl). reflexivity.
      * rewrite (Ht t eq_refl). reflexivity.
    + simpl. destruct (_ollama_vision_ocr b _) as [v|e'] eqn:Ev.
      * rewrite (Hv v eq_refl). reflexivity.
      * reflexivity.
Qed.

Lemma extract_text_never_raises_witness :
  Ocr.path_exists (Sample.backend false (Ok (py "text")) (Ok (py "text")))
    (_resolve_path (Sample.backend false (Ok (py "text")) (Ok (py "text")))
       (py "2024/01/scan.pdf")) = false
  /\ extract_text (Sample.backend false (Ok (py "text")) (Ok (py "text")))
       (py "2024/01/scan.pdf") = Ok [].
Proof.
  split; [reflexivity|].
  destruct (extract_text_never_raises
              (Sample.backend false (Ok (py "text")) (Ok (py "text")))
              (py "2024/01/scan.pdf")) as (_ & Hmissing & _).
  apply Hmissing. reflexivity.
Defined.

(** C5, refuted as stated: for a path at which no file exists the
    extractor does not raise; it returns the empty string. *)
Lemma extract_text_missing_file_returns :
  ~ (forall b file_path,
        path_exists b (_resolve_path b file_path) = false ->
        exists e, extract_text b file_path = Raise e).
Proof.
  intros H.
  destruct (H (Sample.backend false (Ok (py "text")) (Ok (py "text")))
              (py "2024/01/scan.pdf") eq_refl) as [e He].
  discriminate He.
Qed.

End OcrFacts.


Module ProcessFacts.
Import Models Process ProcessSpec.

(** *** Running the monad *)

Lemma bind_run {A B} (m : M A) (k : A -> M B) s :
  bind m k s = match m s with
               | (s', Ok a) => k a s'
               | (s', Raise e) => (s', Raise e)
               end.
Proof. reflexivity. Qed.


Section Frame.
Context {X : Type} (p : Session -> X).

Lemma frame_ret {A} (a : A) : frame p (ret a).
Proof. intros s. reflexivity. Qed.

Lemma frame_raise {A} e : frame p (@raise A e).
Proof. intros s. reflexivity. Qed.

Lemma frame_lift {A} (r : result A) : frame p (lift r).
Proof. intros s. reflexivity. Qed.

Lemma frame_get_db : frame p get_db.
Proof. intros s. reflexivity. Qed.

Lemma frame_get_doc : frame p get_doc.
Proof. intros s. reflexivity. Qed.

Lemma frame_bind {A B} (m : M A) (k : A -> M B) :
  frame p m -> (forall a, frame p (k a)) -> frame p (bind m k).
Proof.
  intros Hm Hk s. rewrite bind_run. specialize (Hm s).
  destruct (m s) as [s' [a|e]]; simpl in *; [|assumption].
  rewrite Hk. assumption.
Qed.

Lemma frame_try_except {A} (body : M A) (handler : str -> M A) :
  frame p body -> (forall e, frame p (handler e)) -> frame p (try_except body handler).
Proof.
  intros Hb Hh s. unfold try_except. specialize (Hb s).
  destruct (body s) as [s' [a|e]]; simpl in *; [assumption|].
  rewrite Hh. assumption.
Qed.

Lemma frame_for_each {A} (l : list A) (body : A -> M unit) :
  (forall x, frame p (body x)) -> frame p (for_each l body).
Proof.
  intros Hb. induction l as [|x l IH]; simpl.
  - apply frame_ret.
  - apply frame_bind; auto.
Qed.

End Frame.

(** Symbolic execution of the frame rules; what is left are the
    assignments and store updates, closed by computation. *)
Ltac frame_step :=
  first
    [ apply frame_bind; [|intros ?]
    | apply frame_try_except; [|intros ?]
    | apply frame_for_each; intros ?
    | apply frame_ret
    | apply frame_raise
    | apply frame_lift
    | apply frame_get_db
    | apply frame_get_doc
    | progress cbv zeta
    | match goal with
      | |- frame _ (if ?b then _ else _) => destruct b
      | |- frame _ (match ?x with _ => _ end) => destruct x
      end
    | progress unfold call_classifier, apply_title_date, classify_document_type,
        classify_correspondent, classify_tag, apply_file_info
    | (intros ?; reflexivity) ].

Ltac frame_auto := repeat frame_step.

(** *** One log entry per stage *)



Lemma quiet_logged u s s' : quiet_view s' = quiet_view s -> logged u [] s s'.
Proof.
  unfold quiet_view. intros [= Hc Hk Hcont Hlog]. repeat split; try assumption.
  exists []. rewrite app_nil_r. repeat split; [assumption|constructor].
Qed.

Lemma logged_trans u a b s1 s2 s3 :
  logged u a s1 s2 -> logged u b s2 s3 -> logged u (a ++ b) s1 s3.
Proof.
  intros (Hc1 & Hk1 & Ht1 & n1 & Hl1 & Hs1 & Hf1) (Hc2 & Hk2 & Ht2 & n2 & Hl2 & Hs2 & Hf2).
  repeat split; try congruence.
  exists (n1 ++ n2). rewrite Hl2, Hl1, app_assoc, map_app, Hs1, Hs2.
  repeat split. apply Forall_app; auto.
Qed.

Lemma log_step_logged u st status_ msg s :
  (_log_step u st status_ msg s).2 = Ok tt /\
  logged u [st] s (_log_step u st status_ msg s).1.
Proof.
  split; [reflexivity|]. repeat split.
  eexists [_]. simpl. repeat split. constructor; [reflexivity|constructor].
Qed.


Lemma stage_body_bind {A B} u st (m : M A) (k : A -> M B) :
  frame quiet_view m -> (forall a, stage_body u st (k a)) ->
  stage_body u st (bind m k).
Proof.
  intros Hm Hk s. rewrite bind_run. specialize (Hm s).
  destruct (m s) as [s1 [a|e]]; simpl in Hm.
  - specialize (Hk a s1). destruct (k a s1) as [s2 [b|e]].
    + apply (logged_trans u [] [st] s s1 s2); [apply quiet_logged|]; assumption.
    + apply (logged_trans u [] [] s s1 s2); [apply quiet_logged|]; assumption.
  - apply quiet_logged. assumption.
Qed.

Lemma stage_body_log u st status_ msg : stage_body u st (_log_step u st status_ msg).
Proof.
  intros s. pose proof (log_step_logged u st status_ msg s) as [Hr Hl].
  destruct (_log_step u st status_ msg s) as [s' r]. simpl in *. subst r. assumption.
Qed.


Lemma stage_try_except u st (body : M unit) :
  stage_body u st body ->
  stage u st (try_except body (fun e => _log_step u st (py "error") e)).
Proof.
  intros Hb s. unfold try_except. specialize (Hb s).
  destruct (body s) as [s1 [[]|e]]; simpl.
  - split; [reflexivity|assumption].
  - pose proof (log_step_logged u st (py "error") e s1) as [Hr Hl].
    split; [assumption|].
    apply (logged_trans u [] [st] s s1); assumption.
Qed.

Ltac stage_auto :=
  apply stage_try_except;
  repeat first
    [ apply stage_body_log
    | apply stage_body_bind; [frame_auto | intros ?]
    | progress cbv zeta ].

Lemma step_classify_stage env u text : stage u (py "classify") (step_classify env u text).
Proof. unfold step_classify. stage_auto. Qed.

Lemma step_fields_stage env u text : stage u (py "fields") (step_fields env u text).
Proof. unfold step_fields. stage_auto. Qed.

Lemma step_embeddings_stage env u text :
  stage u (py "embeddings") (step_embeddings env u text).
Proof. unfold step_embeddings. stage_auto. Qed.

Lemma step_thumbnail_stage env u : stage u (py "thumbnail") (step_thumbnail env u).
Proof. unfold step_thumbnail. stage_auto. Qed.

Lemma step_reclassify_stage env u text :
  stage u (py "reclassify") (step_reclassify env u text).
Proof. unfold step_reclassify. stage_auto. Qed.

Lemma step_reextract_fields_stage env u text :
  stage u (py "reextract_fields") (step_reextract_fields env u text).
Proof. unfold step_reextract_fields. stage_auto. Qed.

Lemma step_reembed_stage env u text : stage u (py "reembed") (step_reembed env u text).
Proof. unfold step_reembed. stage_auto. Qed.

(** C10: a run for an id without a document record returns the error dict;
    it neither raises nor asks for a retry, and the store is the one it
    started from.  The same holds for a rerun. *)
Theorem process_document_not_found (env : Env) (document_id : str) (doc_uuid : UUID)
        (store : DB) :
  uuid_UUID env document_id = Ok doc_uuid ->
  documents store !! doc_uuid = None ->
  process_document env document_id store
  = (store, Returned [(py "status", py "error"); (py "message", py "Document not found")])
  /\ reprocess_document env document_id store
     = (store, Returned [(py "status", py "error"); (py "message", py "Document not found")]).
Proof.
  intros Hid Hnone. unfold process_document, reprocess_document.
  rewrite Hid, Hnone. split; reflexivity.
Qed.

Lemma process_document_not_found_witness :
  uuid_UUID Sample.good_env Sample.doc_id_str = Ok Sample.doc_id
  /\ documents Sample.empty_store !! Sample.doc_id = None
  /\ process_document Sample.good_env Sample.doc_id_str Sample.empty_store
     = (Sample.empty_store,
        Returned [(py "status", py "error"); (py "message", py "Document not found")]).
Proof.
  split; [vm_compute; reflexivity|]. split; [reflexivity|].
  apply (process_document_not_found Sample.good_env Sample.doc_id_str Sample.doc_id
           Sample.empty_store); [vm_compute; reflexivity|reflexivity].
Defined.



(** *** A whole run *)

Arguments step_classify : simpl never.
Arguments step_fields : simpl never.
Arguments step_embeddings : simpl never.
Arguments step_thumbnail : simpl never.
Arguments step_reclassify : simpl never.
Arguments step_reextract_fields : simpl never.
Arguments step_reembed : simpl never.
Arguments delete_old_fields : simpl never.

(** Run the stage at the head of the goal, keeping only what the stage
    lemma [H] says about the session it leaves. *)
Ltac run_stage_as H s' Hl :=
  match goal with
  | |- context [ ?m ?s ] =>
      match type of H with
      | stage _ _ m =>
          let Hr := fresh "Hr" in
          let r := fresh "r" in
          destruct (H s) as [Hr Hl];
          destruct (m s) as [s' r]; simpl in Hr, Hl; subst r; cbn iota beta
      end
  end.

Tactic Notation "run_stage" constr(H) "as" ident(s') ident(Hl) :=
  run_stage_as H s' Hl.

Lemma logged_one_more u steps st s s' status_ msg :
  logged u steps s s' ->
  exists new, (processing_logs (add_log u st status_ msg (db s'))
               = processing_logs (db s) ++ new)
              /\ map step new = steps ++ [st]
              /\ Forall (fun l => log_document_id l = u) new.
Proof.
  intros (_ & _ & _ & new & Hl & Hs & Hf). simpl. rewrite Hl, <- app_assoc.
  eexists. split; [reflexivity|]. rewrite map_app, Hs. repeat split.
  apply Forall_app. split; [assumption|]. repeat constructor.
Qed.

Lemma process_body_done env document_id u s text :
  doc_key s = u ->
  ocr_extract_text env (file_path (doc s)) = Ok text ->
  let r := process_body env document_id u s in
  r.2 = Ok [(py "status", py "done"); (py "document_id", document_id)]
  /\ committed r.1 = db r.1
  /\ documents (db r.1) !! u = Some (doc r.1)
  /\ status (doc r.1) = done
  /\ content (doc r.1) = Some text
  /\ exists new, processing_logs (db r.1) = processing_logs (db s) ++ new
       /\ map step new = [py "start"; py "ocr"; py "classify"; py "fields";
                          py "embeddings"; py "thumbnail"; py "complete"]
       /\ Forall (fun l => log_document_id l = u) new.
Proof.
  intros Hk Hocr r. subst r.
  unfold process_body, step_ocr, try_except, _log_step, commit, bind.
  cbn. rewrite Hocr. cbn.
  match goal with |- context [step_classify env u text ?x] => set (s1 := x) end.
  assert (H1 : exists l1 l2,
             processing_logs (db s1) = processing_logs (db s) ++ [l1; l2]
             /\ map step [l1; l2] = [py "start"; py "ocr"]
             /\ Forall (fun l => log_document_id l = u) [l1; l2]).
  { do 2 eexists. subst s1. cbn. rewrite <- app_assoc.
    split; [reflexivity|]. split; [reflexivity|]. repeat constructor. }
  assert (Hk1 : doc_key s1 = u) by exact Hk.
  assert (Hc1 : content (doc s1) = Some text) by reflexivity.
  destruct H1 as (l1 & l2 & Hlog1 & Hst1 & Hf1). clearbody s1.
  run_stage (step_classify_stage env u text) as s2 Hl2.
  run_stage (step_fields_stage env u text) as s3 Hl3.
  run_stage (step_embeddings_stage env u text) as s4 Hl4.
  run_stage (step_thumbnail_stage env u) as s5 Hl5.
  pose proof (logged_trans _ _ _ _ _ _ Hl2 Hl3) as L0.
  pose proof (logged_trans _ _ _ _ _ _ L0 Hl4) as L1.
  pose proof (logged_trans _ _ _ _ _ _ L1 Hl5) as L2.
  cbn in L2. cbn.
  destruct (logged_one_more u _ (py "complete") s1 s5 (py "success")
              (py "Processing complete") L2) as (new & Hn & Hs & Hf).
  destruct L2 as (_ & Hkey & Hcont & _).
  split; [reflexivity|]. split; [reflexivity|].
  split; [rewrite Hkey, Hk1; apply lookup_insert_eq|].
  split; [reflexivity|].
  split; [congruence|].
  exists ([l1; l2] ++ new). cbn in Hn. rewrite Hn, Hlog1, <- app_assoc.
  split; [reflexivity|]. rewrite map_app, Hst1, Hs.
  split; [reflexivity|]. apply Forall_app. split; assumption.
Qed.

(** *** Custom fields *)

Lemma fields_of_app u d rows :
  fields_of u (set_custom_fields (custom_fields d ++ rows) d)
  = fields_of u d
    ++ map (fun cf => (field_name cf, field_value cf, field_type cf))
           (filter (fun cf => cf_document_id cf = u) rows).
Proof. unfold fields_of. simpl. rewrite filter_app, map_app. reflexivity. Qed.

Lemma add_fields_run u fs s :
  (for_each fs (fun f => modify_db (add_custom_field u f)) s).2 = Ok tt
  /\ forall u',
      fields_of u' (db (for_each fs (fun f => modify_db (add_custom_field u f)) s).1)
      = fields_of u' (db s) ++ (if decide (u' = u) then map triple fs else []).
Proof.
  revert s. induction fs as [|f fs IH]; intros s.
  - split; [reflexivity|]. intros u'. simpl. destruct (decide _); rewrite app_nil_r; reflexivity.
  - simpl for_each. rewrite bind_run. cbn [modify_db].
    destruct (IH (mkSession (committed s) (add_custom_field u f (db s)) (doc_key s) (doc s)))
      as [Hr Hf].
    split; [assumption|]. intros u'. rewrite Hf. cbn [db].
    unfold fields_of at 1. cbn. rewrite filter_app, map_app, <- app_assoc. f_equal.
    rewrite filter_cons, filter_nil. cbn.
    repeat case_decide; simplify_eq; reflexivity.
Qed.

Lemma step_reclassify_fields env u text :
  frame (fun s => custom_fields (db s)) (step_reclassify env u text).
Proof. unfold step_reclassify, _log_step. frame_auto. Qed.

Lemma step_reembed_fields env u text :
  frame (fun s => custom_fields (db s)) (step_reembed env u text).
Proof. unfold step_reembed, _log_step. frame_auto. Qed.

Lemma delete_old_fields_run u s :
  (delete_old_fields u s).2 = Ok tt
  /\ logged u [] s (delete_old_fields u s).1
  /\ forall u', fields_of u' (db (delete_old_fields u s).1)
                = if decide (u' = u) then [] else fields_of u' (db s).
Proof.
  split; [reflexivity|]. split; [apply quiet_logged; reflexivity|].
  intros u'. unfold fields_of, delete_old_fields, bind, modify_db, flush. cbn.
  induction (custom_fields (db s)) as [|cf l IH]; [destruct (decide _); reflexivity|].
  rewrite (filter_cons _ cf). destruct (decide (cf_document_id cf <> u)) as [Hne|He].
  - rewrite !filter_cons. repeat case_decide; simplify_eq; cbn; rewrite ?IH; reflexivity.
  - rewrite filter_cons. apply dec_stable in He.
    repeat case_decide; simplify_eq; cbn; rewrite ?IH; reflexivity.
Qed.

Lemma step_reextract_fields_run env u text s :
  forall u',
    fields_of u' (db (step_reextract_fields env u text s).1)
    = fields_of u' (db s)
      ++ (if decide (u' = u)
          then match extract_fields env text with
               | Ok fs => map triple fs
               | Raise _ => []
               end
          else []).
Proof.
  intros u'. unfold step_reextract_fields, try_except, bind, lift.
  destruct (extract_fields env text) as [fs|e]; cbn beta iota.
  - destruct (add_fields_run u fs s) as [Hr Hf]. specialize (Hf u').
    destruct (for_each fs _ s) as [s' r]. simpl in Hr, Hf. subst r. cbn.
    exact Hf.
  - cbn. destruct (decide _); rewrite app_nil_r; reflexivity.
Qed.

(** Pose what the frame lemma [H] says about the computation at the head
    of the goal. *)
Ltac note_frame H Hf :=
  match goal with
  | |- context [ ?m ?s ] =>
      match type of H with
      | frame _ m => pose proof (H s) as Hf; cbn beta in Hf
      end
  end.

Arguments reocr : simpl never.
Arguments rerun_text : simpl never.
Arguments rerun_content : simpl never.

Lemma reocr_run env s text :
  text = default [] (content (doc s)) ->
  exists s2,
    reocr env text s = (s2, Ok (rerun_text env (doc s)))
    /\ committed s2 = committed s /\ doc_key s2 = doc_key s
    /\ processing_logs (db s2) = processing_logs (db s)
    /\ custom_fields (db s2) = custom_fields (db s)
    /\ content (doc s2) = rerun_content env (doc s).
Proof.
  intros ->. unfold reocr, rerun_text, rerun_content, try_except, bind.
  destruct (truthy (strip _)); cbn.
  - eexists. split; [reflexivity|]. repeat split.
  - destruct (ocr_extract_text env (file_path (doc s))); cbn;
      (eexists; split; [reflexivity|]; repeat split).
Qed.

Lemma reprocess_body_done env document_id u s :
  doc_key s = u ->
  let r := reprocess_body env document_id u s in
  r.2 = Ok [(py "status", py "done"); (py "document_id", document_id)]
  /\ committed r.1 = db r.1
  /\ documents (db r.1) !! u = Some (doc r.1)
  /\ status (doc r.1) = done
  /\ content (doc r.1) = rerun_content env (doc s)
  /\ (exists new, processing_logs (db r.1) = processing_logs (db s) ++ new
        /\ map step new = [py "reprocess_start"; py "reclassify";
                           py "reextract_fields"; py "reembed";
                           py "reprocess_complete"]
        /\ Forall (fun l => log_document_id l = u) new)
  /\ (forall u', fields_of u' (db r.1)
                 = if decide (u' = u)
                   then match extract_fields env (rerun_text env (doc s)) with
                        | Ok fs => map triple fs
                        | Raise _ => []
                        end
                   else fields_of u' (db s)).
Proof.
  intros Hk r. subst r.
  unfold reprocess_body, _log_step, commit, bind. cbn.
  match goal with
  | |- context [reocr env ?t ?x] =>
      destruct (reocr_run env x t eq_refl) as (s2 & E & C2 & K2 & L2 & F2 & T2);
      rewrite E
  end.
  cbn in C2, K2, L2, F2, T2. cbn.
  change (rerun_text env (set_status processing (doc s))) with (rerun_text env (doc s)).
  change (rerun_content env (set_status processing (doc s)))
    with (rerun_content env (doc s)) in T2.
  set (text := rerun_text env (doc s)).
  note_frame (step_reclassify_fields env u text) F3.
  run_stage (step_reclassify_stage env u text) as s3 Hl3. simpl in F3.
  destruct (delete_old_fields_run u s3) as (Hr4 & Hl4 & F4).
  destruct (delete_old_fields u s3) as [s4 r4]. simpl in Hr4, Hl4, F4. subst r4.
  cbn iota beta.
  pose proof (step_reextract_fields_run env u text s4) as F5.
  run_stage (step_reextract_fields_stage env u text) as s5 Hl5. simpl in F5.
  note_frame (step_reembed_fields env u text) F6.
  run_stage (step_reembed_stage env u text) as s6 Hl6. simpl in F6.
  pose proof (logged_trans _ _ _ _ _ _ Hl3 Hl4) as L0.
  pose proof (logged_trans _ _ _ _ _ _ L0 Hl5) as L1.
  pose proof (logged_trans _ _ _ _ _ _ L1 Hl6) as L6.
  cbn in L6. cbn.
  destruct (logged_one_more u _ (py "reprocess_complete") s2 s6 (py "success")
              (py "Reprocessing complete") L6) as (new & Hn & Hs & Hf).
  destruct L6 as (_ & Hkey & Hcont & _).
  split; [reflexivity|]. split; [reflexivity|].
  split; [rewrite Hkey, K2, Hk; apply lookup_insert_eq|].
  split; [reflexivity|].
  split; [congruence|].
  split.
  - eexists (_ :: new). cbn in Hn. rewrite Hn, L2, <- app_assoc.
    split; [reflexivity|]. cbn. rewrite Hs. split; [reflexivity|].
    constructor; [reflexivity|assumption].
  - intros u'. unfold fields_of in *. cbn. rewrite F6, F5, F4, F3, F2.
    destruct (decide (u' = u)); [reflexivity|apply app_nil_r].
Qed.

(** *** The tasks *)


Lemma process_document_done env document_id u store d text :
  uuid_UUID env document_id = Ok u ->
  documents store !! u = Some d ->
  ocr_extract_text env (file_path d) = Ok text ->
  let store' := (process_document env document_id store).1 in
  (process_document env document_id store).2
  = Returned [(py "status", py "done"); (py "document_id", document_id)]
  /\ (exists d', documents store' !! u = Some d' /\ status d' = done
                 /\ content d' = Some text)
  /\ exists new, processing_logs store' = processing_logs store ++ new
       /\ map step new = [py "start"; py "ocr"; py "classify"; py "fields";
                          py "embeddings"; py "thumbnail"; py "complete"]
       /\ Forall (fun l => log_document_id l = u) new.
Proof.
  intros Hid Hdoc Hocr. unfold process_document. rewrite Hid, Hdoc.
  destruct (process_body_done env document_id u (mkSession store store u d) text
              eq_refl Hocr) as (Hr & Hc & Hd & Hs & Ht & Hl).
  destruct (process_body env document_id u _) as [s r]. simpl in *. subst r.
  simpl. rewrite Hc. split; [reflexivity|]. split; [|assumption].
  exists (doc s). repeat split; assumption.
Qed.








(** *** Tags *)

Section Invariant.
Context (I : Session -> Prop).

Lemma invariant_ret {A} (a : A) : invariant I (ret a).
Proof. intros s H. exact H. Qed.

Lemma invariant_raise {A} e : invariant I (@raise A e).
Proof. intros s H. exact H. Qed.

Lemma invariant_lift {A} (r : result A) : invariant I (lift r).
Proof. intros s H. exact H. Qed.

Lemma invariant_get_db : invariant I get_db.
Proof. intros s H. exact H. Qed.

Lemma invariant_get_doc : invariant I get_doc.
Proof. intros s H. exact H. Qed.

Lemma invariant_bind {A B} (m : M A) (k : A -> M B) :
  invariant I m -> (forall a, invariant I (k a)) -> invariant I (bind m k).
Proof.
  intros Hm Hk s H. rewrite bind_run. specialize (Hm s H).
  destruct (m s) as [s' [a|e]]; simpl in *; [|assumption].
  apply Hk. assumption.
Qed.

Lemma invariant_try_except {A} (body : M A) (handler : str -> M A) :
  invariant I body -> (forall e, invariant I (handler e)) ->
  invariant I (try_except body handler).
Proof.
  intros Hb Hh s H. unfold try_except. specialize (Hb s H).
  destruct (body s) as [s' [a|e]]; simpl in *; [assumption|].
  apply Hh. assumption.
Qed.

Lemma invariant_for_each {A} (l : list A) (body : A -> M unit) :
  (forall x, invariant I (body x)) -> invariant I (for_each l body).
Proof.
  intros Hb. induction l as [|x l IH]; simpl.
  - apply invariant_ret.
  - apply invariant_bind; auto.
Qed.

End Invariant.

Lemma filter_nil_none {A} (P : A -> Prop) `{!forall x, Decision (P x)} (l : list A) x :
  filter P l = [] -> x ∈ l -> ~ P x.
Proof.
  intros Hnil Hin HP.
  assert (Hx : x ∈ filter P l) by (apply list_elem_of_filter; split; assumption).
  rewrite Hnil in Hx. inversion Hx.
Qed.

Lemma classify_tag_unique env u tag_name : invariant tags_ok (classify_tag env u tag_name).
Proof.
  intros s [Hslug Hassoc]. unfold classify_tag.
  destruct (negb (truthy _)); [split; assumption|].
  unfold bind, get_db, lift.
  set (slug := _slugify env tag_name).
  destruct (select_tag_by_slug slug (db s)) as [|t [|t' rows]] eqn:Etag;
    cbn; [| |split; assumption].
  - (* no tag with this slug: one is created *)
    assert (Hslug' : NoDup (map tag_slug (tags (db s)
                                           ++ [mkTag (tags_id_seq (db s)) tag_name
                                                     (py "#3b82f6") slug]))).
    { rewrite map_app. apply NoDup_app. split; [assumption|]. split.
      - intros x Hx Hx'. cbn in Hx'. apply list_elem_of_singleton in Hx'. subst x.
        apply list_elem_of_fmap in Hx as (t & Ht & Hin).
        apply (filter_nil_none _ _ t Etag Hin). symmetry. exact Ht.
      - cbn. apply NoDup_singleton. }
    destruct (filter _ (document_tags (db s))) as [|a [|a' rows]] eqn:Eassoc;
      cbn; try (split; assumption).
    split; [assumption|]. cbn. apply NoDup_app. split; [assumption|]. split.
    + intros x Hx Hx'. apply list_elem_of_singleton in Hx'. subst x.
      apply (filter_nil_none _ _ _ Eassoc Hx). split; reflexivity.
    + apply NoDup_singleton.
  - (* the tag exists *)
    unfold select_document_tag.
    destruct (filter _ (document_tags (db s))) as [|a [|a' rows]] eqn:Eassoc;
      cbn; try (split; assumption).
    split; [assumption|]. cbn. apply NoDup_app. split; [assumption|]. split.
    + intros x Hx Hx'. apply list_elem_of_singleton in Hx'. subst x.
      apply (filter_nil_none _ _ _ Eassoc Hx). split; reflexivity.
    + apply NoDup_singleton.
Qed.

Lemma invariant_of_frame {A} (m : M A) :
  frame tag_tables m -> invariant tags_ok m.
Proof.
  intros Hf s H. specialize (Hf s). unfold tag_tables in Hf.
  injection Hf as Ht Ha. unfold tags_ok. rewrite Ht, Ha. exact H.
Qed.

Section Keeps.
Context (R : Session -> Session -> Prop) `{!PreOrder R}.

Lemma keeps_ret {A} (a : A) : keeps R (ret a).
Proof. intros s. reflexivity. Qed.

Lemma keeps_bind {A B} (m : M A) (k : A -> M B) :
  keeps R m -> (forall a, keeps R (k a)) -> keeps R (bind m k).
Proof.
  intros Hm Hk s. rewrite bind_run. specialize (Hm s).
  destruct (m s) as [s' [a|e]]; simpl in *; [|assumption].
  transitivity s'; [assumption|apply Hk].
Qed.

Lemma keeps_try_except {A} (body : M A) (handler : str -> M A) :
  keeps R body -> (forall e, keeps R (handler e)) -> keeps R (try_except body handler).
Proof.
  intros Hb Hh s. unfold try_except. specialize (Hb s).
  destruct (body s) as [s' [a|e]]; simpl in *; [assumption|].
  transitivity s'; [assumption|apply Hh].
Qed.

Lemma keeps_for_each {A} (l : list A) (body : A -> M unit) :
  (forall x, keeps R (body x)) -> keeps R (for_each l body).
Proof.
  intros Hb. induction l as [|x l IH]; simpl.
  - apply keeps_ret.
  - apply keeps_bind; auto.
Qed.

End Keeps.

#[local] Instance vocabulary_grows_preorder : PreOrder vocabulary_grows.
Proof.
  split.
  - intros s. split; exists []; rewrite app_nil_r; reflexivity.
  - intros s1 s2 s3 [[t1 Ht1] [a1 Ha1]] [[t2 Ht2] [a2 Ha2]]. split.
    + exists (t1 ++ t2). rewrite Ht2, Ht1, app_assoc. reflexivity.
    + exists (a1 ++ a2). rewrite Ha2, Ha1, app_assoc. reflexivity.
Qed.

Lemma grows_of_frame {A} (m : M A) :
  frame tag_tables m -> keeps vocabulary_grows m.
Proof.
  intros Hf s. specialize (Hf s). unfold tag_tables in Hf.
  injection Hf as Ht Ha. split; exists []; rewrite app_nil_r; assumption.
Qed.

Lemma classify_tag_grows env u tag_name :
  keeps vocabulary_grows (classify_tag env u tag_name).
Proof.
  intros s. unfold classify_tag.
  destruct (negb (truthy _)); [reflexivity|].
  unfold bind, get_db, lift.
  destruct (select_tag_by_slug _ (db s)) as [|t [|t' rows]]; cbn; [| |reflexivity].
  - destruct (filter _ (document_tags (db s))) as [|a [|a' rows]]; cbn;
      (split; [eexists; reflexivity|]);
      first [eexists; reflexivity | exists []; rewrite app_nil_r; reflexivity].
  - unfold select_document_tag.
    destruct (filter _ (document_tags (db s))) as [|a [|a' rows]]; cbn;
      (split; [exists []; rewrite app_nil_r; reflexivity|]);
      first [eexists; reflexivity | exists []; rewrite app_nil_r; reflexivity].
Qed.

Lemma step_classify_unique env u text : invariant tags_ok (step_classify env u text).
Proof.
  unfold step_classify.
  apply invariant_try_except;
    [|intros e; apply invariant_of_frame; unfold _log_step; frame_auto].
  apply invariant_bind; [apply invariant_of_frame; frame_auto|intros result_].
  apply invariant_bind; [apply invariant_of_frame; frame_auto|intros _].
  apply invariant_bind; [apply invariant_of_frame; frame_auto|intros _].
  apply invariant_bind; [apply invariant_of_frame; frame_auto|intros _].
  apply invariant_bind;
    [apply invariant_for_each; intros x; apply classify_tag_unique|intros _].
  apply invariant_of_frame. unfold _log_step. frame_auto.
Qed.

Lemma step_classify_grows env u text : keeps vocabulary_grows (step_classify env u text).
Proof.
  unfold step_classify.
  apply keeps_try_except; [exact _| |intros e; apply grows_of_frame; unfold _log_step; frame_auto].
  apply keeps_bind; [exact _|apply grows_of_frame; frame_auto|intros result_].
  apply keeps_bind; [exact _|apply grows_of_frame; frame_auto|intros _].
  apply keeps_bind; [exact _|apply grows_of_frame; frame_auto|intros _].
  apply keeps_bind; [exact _|apply grows_of_frame; frame_auto|intros _].
  apply keeps_bind;
    [exact _|apply keeps_for_each; [exact _|intros x; apply classify_tag_grows]|intros _].
  apply grows_of_frame. unfold _log_step. frame_auto.
Qed.

(** C8: from a store in which no two tags share a slug and no (document,
    tag) pair is associated twice, running the classification stage twice
    on the same text leaves such a store; the two tables only grow, so a
    tag row is added only for a slug that no tag has yet, and an
    association only for a pair that is not yet associated. *)
Theorem classify_twice_no_duplicates (env : Env) (doc_uuid : UUID) (text : str)
        (s : Session) :
  NoDup (map tag_slug (tags (db s))) ->
  NoDup (document_tags (db s)) ->
  let s1 := (step_classify env doc_uuid text s).1 in
  let s2 := (step_classify env doc_uuid text s1).1 in
  NoDup (map tag_slug (tags (db s2)))
  /\ NoDup (document_tags (db s2))
  /\ (exists new1 new2, tags (db s1) = tags (db s) ++ new1
                        /\ tags (db s2) = tags (db s1) ++ new2)
  /\ (exists new1 new2, document_tags (db s1) = document_tags (db s) ++ new1
                        /\ document_tags (db s2) = document_tags (db s1) ++ new2).
Proof.
  intros Hslug Hassoc s1 s2.
  assert (H1 : tags_ok s1) by (apply step_classify_unique; split; assumption).
  assert (H2 : tags_ok s2) by (apply step_classify_unique; assumption).
  destruct H2 as [H2t H2a].
  destruct (step_classify_grows env doc_uuid text s) as [[t1 Ht1] [a1 Ha1]].
  destruct (step_classify_grows env doc_uuid text s1) as [[t2 Ht2] [a2 Ha2]].
  split; [assumption|]. split; [assumption|]. split.
  - exists t1, t2. split; assumption.
  - exists a1, a2. split; assumption.
Qed.

Lemma classify_twice_no_duplicates_witness :
  NoDup (map tag_slug (tags (db Sample.session)))
  /\ NoDup (document_tags (db Sample.session))
  /\ NoDup (map tag_slug
              (tags (db (step_classify Sample.good_env Sample.doc_id (py "Invoice 42")
                           (step_classify Sample.good_env Sample.doc_id
                              (py "Invoice 42") Sample.session).1).1))).
Proof.
  split; [vm_compute; constructor|]. split; [vm_compute; constructor|].
  apply (classify_twice_no_duplicates Sample.good_env Sample.doc_id (py "Invoice 42")
           Sample.session); vm_compute; constructor.
Defined.

(** *** Thumbnail and file info *)

(** C9, as the code has it: when the file info is obtained, [page_count]
    is replaced by its page count whether or not it was set; [file_size]
    is kept when it is set and not zero, [mime_type] when it is set and
    not empty, and otherwise they are filled from the file info.  When the
    stage raises before that, the three fields are unchanged. *)
Theorem thumbnail_stage_file_info (env : Env) (doc_uuid : UUID) (s : Session) :
  let s' := (step_thumbnail env doc_uuid s).1 in
  let thumb_abs := path_join (THUMBNAIL_DIR env) (uuid_hex doc_uuid ++ py ".png") in
  match makedirs env (THUMBNAIL_DIR env),
        generate_thumbnail env (file_path (doc s)) thumb_abs,
        get_file_info env (file_path (doc s)) with
  | Ok _, Ok _, Ok file_info =>
      page_count (doc s') = Some (default 0 (fi_pages file_info))
      /\ file_size (doc s')
         = (if truthy_int (file_size (doc s)) then file_size (doc s)
            else Some (default 0 (fi_size file_info)))
      /\ mime_type (doc s')
         = (if truthy_opt (mime_type (doc s)) then mime_type (doc s)
            else Some (default [] (fi_mime_type file_info)))
  | _, _, _ =>
      page_count (doc s') = page_count (doc s)
      /\ file_size (doc s') = file_size (doc s)
      /\ mime_type (doc s') = mime_type (doc s)
  end.
Proof.
  unfold step_thumbnail, apply_file_info, try_except, _log_step, bind, lift,
    get_doc, assign, ret, flush, modify_db.
  cbn.
  destruct (makedirs env (THUMBNAIL_DIR env)) as [[]|e1]; cbn; [|repeat split].
  destruct (generate_thumbnail env _ _) as [[|]|e2]; cbn; [| |repeat split].
  - destruct (get_file_info env _) as [fi|e3]; cbn; [|repeat split].
    destruct (truthy_int (file_size (doc s))); cbn;
      destruct (truthy_opt (mime_type (doc s))); cbn; repeat split.
  - destruct (get_file_info env _) as [fi|e3]; cbn; [|repeat split].
    destruct (truthy_int (file_size (doc s))); cbn;
      destruct (truthy_opt (mime_type (doc s))); cbn; repeat split.
Qed.

(** C9, refuted as stated: the document has 3 pages recorded, the file
    info reports 5, and after the stage the document has 5. *)
Lemma thumbnail_stage_overwrites_page_count :
  page_count (doc Sample.session) = Some 3
  /\ page_count (doc (step_thumbnail Sample.good_env Sample.doc_id Sample.session).1)
     = Some 5.
Proof. split; vm_compute; reflexivity. Qed.

End ProcessFacts.

Module SearchFacts.
Import Models Search.

(** *** The order of binary64 numbers that are not NaN *)







(** *** The sort *)

Lemma insert_desc_perm x l : insert_desc x l ≡ₚ x :: l.
Proof.
  induction l as [|y l IH]; simpl; [reflexivity|].
  destruct (x.2 <? y.2)%float; [|reflexivity].
  rewrite IH. apply Permutation_swap.
Qed.

Lemma sort_desc_perm l : sort_desc l ≡ₚ l.
Proof.
  induction l as [|x l IH]; simpl; [reflexivity|].
  rewrite insert_desc_perm, IH. reflexivity.
Qed.



(** *** The ranking *)

Lemma slice_page {A} (l : list A) (offset n : Z) :
  0 <= offset -> 0 <= n ->
  slice l offset (offset + n) = take (Z.to_nat n) (drop (Z.to_nat offset) l).
Proof.
  intros Ho Hn. unfold slice, adjust, len.
  destruct (Z.ltb_spec offset 0); [lia|]. destruct (Z.ltb_spec (offset + n) 0); [lia|].
  destruct (Z.le_gt_cases (Z.of_nat (length l)) offset) as [Hge|Hlt].
  - rewrite !Z.min_r by lia. rewrite !drop_ge by lia. rewrite !take_nil. reflexivity.
  - rewrite (Z.min_l offset) by lia.
    destruct (Z.le_gt_cases (offset + n) (Z.of_nat (length l))) as [Hin|Hout].
    + rewrite Z.min_l by lia. f_equal. lia.
    + rewrite Z.min_r by lia. rewrite !take_ge; [reflexivity| |];
        rewrite length_drop; lia.
Qed.

Lemma combined_elem ft sem iteration did score :
  (did, score) ∈ combined ft sem iteration
  <-> did ∈ iteration /\ score = (combine ft sem did).2.
Proof.
  unfold combined. rewrite sort_desc_perm, list_elem_of_fmap. split.
  - intros (x & Heq & Hin). unfold combine in *. injection Heq as -> ->.
    split; [assumption|reflexivity].
  - intros [Hin ->]. exists did. split; [reflexivity|assumption].
Qed.

Lemma combined_ids ft sem iteration :
  map fst (combined ft sem iteration) ≡ₚ iteration.
Proof.
  unfold combined. rewrite sort_desc_perm.
  induction iteration as [|x l IH]; [reflexivity|]. cbn. rewrite IH. reflexivity.
Qed.




End SearchFacts.

Module StripFacts.
Import Process.

Lemma lstrip_chars_split p s :
  exists pre, s = pre ++ lstrip_chars p s /\ Forall (fun c => p c = true) pre.
Proof.
  induction s as [|c s IH]; simpl.
  - exists []. split; [reflexivity|constructor].
  - destruct (p c) eqn:Hc.
    + destruct IH as (pre & Heq & Hall). exists (c :: pre). split.
      * simpl. f_equal. exact Heq.
      * constructor; assumption.
    + exists []. split; [reflexivity|constructor].
Qed.

Lemma lstrip_chars_head p s c r : lstrip_chars p s = c :: r -> p c = false.
Proof.
  induction s as [|d s IH]; simpl; [discriminate|].
  destruct (p d) eqn:Hd; [exact IH|]. intros [= <- _]. exact Hd.
Qed.

Lemma lstrip_chars_fixed p s : head s = None \/ (exists c, head s = Some c /\ p c = false) ->
  lstrip_chars p s = s.
Proof.
  destruct s as [|d s]; [reflexivity|]. simpl. intros [Hn|(c & [= <-] & Hc)]; [discriminate|].
  rewrite Hc. reflexivity.
Qed.

Lemma lstrip_chars_idem p s : lstrip_chars p (lstrip_chars p s) = lstrip_chars p s.
Proof.
  apply lstrip_chars_fixed. destruct (lstrip_chars p s) as [|c r] eqn:E; [left; reflexivity|].
  right. exists c. split; [reflexivity|]. eapply lstrip_chars_head. exact E.
Qed.

Lemma strip_chars_split p s :
  exists pre post, s = pre ++ strip_chars p s ++ post
                   /\ Forall (fun c => p c = true) pre /\ Forall (fun c => p c = true) post.
Proof.
  unfold strip_chars.
  destruct (lstrip_chars_split p s) as (pre & Hs & Hpre).
  destruct (lstrip_chars_split p (rev (lstrip_chars p s))) as (q & Hr & Hq).
  exists pre, (rev q). split; [|split; [assumption|]].
  - rewrite <- rev_app_distr, <- Hr, rev_involutive. exact Hs.
  - apply Forall_rev. exact Hq.
Qed.

Lemma strip_chars_head p s c : head (strip_chars p s) = Some c -> p c = false.
Proof.
  unfold strip_chars. intros Hh.
  destruct (lstrip_chars_split p (rev (lstrip_chars p s))) as (q & Hr & Hq).
  set (a := lstrip_chars p s) in *. set (b := lstrip_chars p (rev a)) in *.
  assert (Ha : a = rev b ++ rev q).
  { rewrite <- rev_app_distr, <- Hr, rev_involutive. reflexivity. }
  destruct (rev b) as [|d r] eqn:Eb; [discriminate|]. simpl in Hh. injection Hh as ->.
  apply (lstrip_chars_head p s c (r ++ rev q)). fold a. rewrite Ha. reflexivity.
Qed.

Lemma last_rev {A} (l : list A) : last (rev l) = head l.
Proof. destruct l as [|a l]; [reflexivity|]. simpl rev. apply last_snoc. Qed.

Lemma strip_chars_last p s c : last (strip_chars p s) = Some c -> p c = false.
Proof.
  unfold strip_chars. rewrite last_rev. intros Hh.
  destruct (lstrip_chars p (rev (lstrip_chars p s))) as [|d r] eqn:E; [discriminate|].
  simpl in Hh. injection Hh as ->. eapply lstrip_chars_head. exact E.
Qed.

Lemma strip_chars_idem p s : strip_chars p (strip_chars p s) = strip_chars p s.
Proof.
  assert (Hl : lstrip_chars p (strip_chars p s) = strip_chars p s).
  { apply lstrip_chars_fixed. destruct (head (strip_chars p s)) as [c|] eqn:E; [|left; reflexivity].
    right. exists c. split; [reflexivity|]. eapply strip_chars_head. exact E. }
  unfold strip_chars at 1. rewrite Hl. unfold strip_chars. rewrite rev_involutive.
  rewrite lstrip_chars_idem. reflexivity.
Qed.

Lemma lstrip_is_lstrip_chars s : lstrip s = lstrip_chars is_space s.
Proof. induction s as [|c s IH]; simpl; [reflexivity|]. rewrite IH. reflexivity. Qed.

Lemma strip_is_strip_chars s : strip s = strip_chars is_space s.
Proof.
  unfold strip, rstrip, strip_chars. rewrite !lstrip_is_lstrip_chars. reflexivity.
Qed.

Lemma strip_idem s : strip (strip s) = strip s.
Proof. rewrite !strip_is_strip_chars. apply strip_chars_idem. Qed.

Lemma strip_split s :
  exists pre post, s = pre ++ strip s ++ post
                   /\ Forall (fun c => is_space c = true) pre
                   /\ Forall (fun c => is_space c = true) post.
Proof. rewrite strip_is_strip_chars. apply strip_chars_split. Qed.

Lemma strip_length s : (length (strip s) <= length s)%nat.
Proof.
  destruct (strip_split s) as (pre & post & Hs & _). rewrite Hs at 2.
  rewrite !length_app. lia.
Qed.

End StripFacts.

Module ChunkFacts.
Import Embeddings EmbeddingsSpec EmbeddingsFacts ChunkSpec StripFacts.



Lemma chunk_loop_step fuel text n size ov start acc :
  chunk_loop (S fuel) text n size ov start acc
  = if start <? n
    then chunk_loop fuel text n size ov (start + (size - ov))
                    (emit acc (slice text start (start + size)))
    else Some acc.
Proof. reflexivity. Qed.

Lemma chunk_loop_run text n size ov :
  ov < size ->
  forall k start acc,
    (forall j, (j < k)%nat -> start + Z.of_nat j * (size - ov) < n) ->
    n <= start + Z.of_nat k * (size - ov) ->
    chunk_loop (S k) text n size ov start acc
    = Some (fold_left emit
              (map (fun j => slice text (start + Z.of_nat j * (size - ov))
                                        (start + Z.of_nat j * (size - ov) + size))
                   (seq 0 k)) acc).
Proof.
  intros Hlt. induction k as [|k IH]; intros start acc Hin Hout.
  - rewrite chunk_loop_step. destruct (Z.ltb_spec start n); [lia|]. reflexivity.
  - rewrite chunk_loop_step. specialize (Hin 0%nat ltac:(lia)) as H0.
    destruct (Z.ltb_spec start n); [|lia].
    rewrite IH.
    + cbn [seq map fold_left]. rewrite <- fmap_S_seq.
      change (map ?f (S <$> seq 0 k)) with (f <$> (S <$> seq 0 k)).
      rewrite <- list_fmap_compose. f_equal. f_equal.
      * apply list_fmap_ext. intros i j _. cbn. f_equal; lia.
      * f_equal. f_equal; lia.
    + intros j Hj. specialize (Hin (S j) ltac:(lia)). lia.
    + lia.
Qed.

Lemma chunk_text_closed_form (text : str) (chunk_size overlap : Z) :
  overlap < chunk_size ->
  chunk_text (S (window_count text chunk_size overlap)) text chunk_size overlap
  = Some (emit_all (chunk_windows text chunk_size overlap
                                  (window_count text chunk_size overlap))).
Proof.
  intros Hlt. unfold chunk_text. destruct text as [|c text'] eqn:Et.
  - cbn [truthy negb]. unfold window_count, len. cbn [length Z.of_nat].
    rewrite Z.div_small by lia. reflexivity.
  - rewrite <- Et. cbn [truthy negb]. replace (truthy text) with true by (rewrite Et; reflexivity).
    cbn [negb]. unfold window_count, chunk_windows, emit_all.
    set (step := chunk_size - overlap). set (n := len text).
    assert (Hq := Z.div_mod (n + step - 1) step ltac:(lia)).
    assert (Hr := Z.mod_pos_bound (n + step - 1) step ltac:(lia)).
    assert (Hn : 0 < n) by (subst n; rewrite Et; unfold len; simpl length; lia).
    set (q := (n + step - 1) / step) in *.
    assert (Hq0 : 0 <= q) by (apply Z.div_pos; lia).
    rewrite (chunk_loop_run text n chunk_size overlap Hlt (Z.to_nat q) 0 []).
    + reflexivity.
    + intros j Hj. fold step. nia.
    + fold step. nia.
Qed.


(** With an overlap smaller than the chunk size the loop ends after one
    pass per window that starts inside the text, [ceil(len(text) /
    (chunk_size - overlap))] of them: with any fuel beyond that number it
    returns these windows stripped, the blank ones dropped, in order. *)
Theorem chunk_text_windows (text : str) (chunk_size overlap : Z) (fuel : nat) :
  overlap < chunk_size ->
  (window_count text chunk_size overlap < fuel)%nat ->
  chunk_text fuel text chunk_size overlap
  = Some (emit_all (chunk_windows text chunk_size overlap
                                  (window_count text chunk_size overlap))).
Proof.
  intros Hlt Hfuel.
  pose proof (chunk_text_closed_form text chunk_size overlap Hlt) as Hw.
  unfold chunk_text in *. destruct (negb (truthy text)); [exact Hw|].
  replace fuel
    with (S (window_count text chunk_size overlap)
          + (fuel - S (window_count text chunk_size overlap)))%nat by lia.
  apply chunk_loop_fuel_mono. exact Hw.
Qed.

Lemma chunk_text_windows_witness :
  50 < 500
  /\ (window_count (replicate 1200 97%N) 500 50 < 10)%nat
  /\ chunk_text 10 (replicate 1200 97%N) 500 50
     = Some (emit_all (chunk_windows (replicate 1200 97%N) 500 50
                                     (window_count (replicate 1200 97%N) 500 50))).
Proof.
  split; [lia|]. split; [vm_compute; lia|].
  apply (chunk_text_windows (replicate 1200 97%N) 500 50 10); [lia|vm_compute; lia].
Defined.

Lemma slice_infix {A} (s : list A) a b : exists pre post, s = pre ++ slice s a b ++ post.
Proof.
  unfold slice. cbv zeta.
  match goal with
  | |- context [take ?k (drop ?lo s)] =>
      exists (take lo s), (drop k (drop lo s)); rewrite (take_drop k), (take_drop lo)
  end.
  reflexivity.
Qed.

Lemma slice_length_le {A} (s : list A) a size :
  0 <= a -> 0 <= size -> len (slice s a (a + size)) <= size.
Proof.
  intros Ha Hs. unfold slice, adjust, len.
  destruct (Z.ltb_spec a 0); [lia|]. destruct (Z.ltb_spec (a + size) 0); [lia|].
  rewrite length_take. lia.
Qed.

Lemma emit_all_good text size windows :
  Forall (fun w => (exists pre post, text = pre ++ w ++ post)
                   /\ (0 <= size -> len w <= size)) windows ->
  forall acc, Forall (good_chunk text size) acc ->
              Forall (good_chunk text size) (fold_left emit windows acc)
              /\ (length (fold_left emit windows acc) <= length acc + length windows)%nat.
Proof.
  induction 1 as [|w ws [(pre & post & Hw) Hlen] _ IH]; intros acc Hacc; cbn [fold_left].
  - split; [assumption|lia].
  - unfold emit at 2 4. destruct (truthy (strip w)) eqn:Ht.
    + destruct (IH (acc ++ [strip w])) as [Hg Hl].
      * apply Forall_app. split; [assumption|]. constructor; [|constructor].
        split; [intros E; rewrite E in Ht; discriminate|].
        split; [apply strip_idem|]. split.
        -- destruct (strip_split w) as (p & q & Hs & _).
           exists (pre ++ p), (q ++ post). rewrite Hw at 1. rewrite Hs at 1.
           rewrite <- !app_assoc. reflexivity.
        -- intros Hsz. specialize (Hlen Hsz). pose proof (strip_length w). unfold len in *. lia.
      * split; [assumption|]. rewrite length_app in Hl. cbn in Hl. cbn. lia.
    + destruct (IH acc Hacc) as [Hg Hl]. split; [assumption|]. cbn. lia.
Qed.

(** Whenever the loop returns, every chunk is non-empty, has no white
    space at either end, is a piece of the text and, for a chunk size
    that is not negative, has at most that many characters; there are at
    most as many chunks as windows start inside the text. *)
Theorem chunk_text_chunks (fuel : nat) (text : str) (chunk_size overlap : Z)
        (chunks : list str) :
  chunk_text fuel text chunk_size overlap = Some chunks ->
  Forall (good_chunk text chunk_size) chunks
  /\ (length chunks <= window_count text chunk_size overlap)%nat.
Proof.
  intros H. destruct text as [|c0 text'] eqn:Et.
  - injection H as <-. split; [constructor|cbn; lia].
  - rewrite <- Et in *.
    destruct (Z.lt_ge_cases overlap chunk_size) as [Hlt|Hge].
    + pose proof (chunk_text_closed_form text chunk_size overlap Hlt) as Hw.
      unfold chunk_text in H, Hw. replace (truthy text) with true in * by (rewrite Et; reflexivity).
      cbn [negb] in H, Hw.
      rewrite (chunk_loop_fuel_det _ _ _ _ _ _ _ _ _ _ H Hw).
      unfold emit_all.
      destruct (emit_all_good text chunk_size
                  (chunk_windows text chunk_size overlap
                     (window_count text chunk_size overlap))) with (acc := @nil str)
        as [Hg Hl]; [|constructor|].
      * unfold chunk_windows. apply Forall_fmap, Forall_forall. intros k _. cbn. split.
        -- apply slice_infix.
        -- intros Hs. apply slice_length_le; [nia|lia].
      * split; [assumption|]. unfold chunk_windows in Hl. rewrite length_map, length_seq in Hl.
        exact Hl.
    + unfold chunk_text in H. rewrite Et in H. cbn [truthy negb] in H. rewrite <- Et in H.
      rewrite chunk_loop_diverges in H; [discriminate|lia|].
      rewrite Et. unfold len. cbn [length]. lia.
Qed.

Lemma chunk_text_chunks_witness :
  chunk_text 5 (py "hello world") 5 2
  = Some [py "hello"; py "lo wo"; py "world"; py "ld"]
  /\ (length [py "hello"; py "lo wo"; py "world"; py "ld"]
      <= window_count (py "hello world") 5 2)%nat.
Proof.
  split; [vm_compute; reflexivity|].
  destruct (chunk_text_chunks 5 (py "hello world") 5 2
              [py "hello"; py "lo wo"; py "world"; py "ld"]) as [_ Hn];
    [vm_compute; reflexivity|exact Hn].
Defined.

End ChunkFacts.

Module OcrSelection.
Import Ocr StripFacts.



End OcrSelection.

Module SlugFacts.
Import Models Process SlugSpec StripFacts.



Lemma sub_runs_elems (Q : codepoint -> Prop) p rep b s :
  Forall Q rep -> Forall (fun c => p c = false -> Q c) s -> Forall Q (sub_runs p rep b s).
Proof.
  intros Hrep Hs. revert b. induction Hs as [|c s Hc _ IH]; intros b; simpl; [constructor|].
  destruct (p c) eqn:Hp.
  - destruct b; [apply IH|]. apply Forall_app. split; [assumption|apply IH].
  - constructor; [apply Hc; reflexivity|apply IH].
Qed.

Lemma sub_runs_hyphen b s :
  double_hyphen (sub_runs is_hyphen [45%N] b s) = false
  /\ (b = true -> head (sub_runs is_hyphen [45%N] b s) <> Some 45%N).
Proof.
  revert b. induction s as [|c s IH]; intros b; simpl.
  - split; [reflexivity|discriminate].
  - destruct (is_hyphen c) eqn:Hc.
    + destruct b.
      * apply IH.
      * destruct (IH true) as [Hd Hh]. specialize (Hh eq_refl). split; [|discriminate].
        cbn [app]. destruct (sub_runs is_hyphen [45%N] true s) as [|d r] eqn:E; [reflexivity|].
        cbn [double_hyphen] in *. fold double_hyphen in *. rewrite Hd.
        assert (is_hyphen d = false) as ->.
        { unfold is_hyphen. apply N.eqb_neq. intros ->. apply Hh. reflexivity. }
        rewrite andb_false_r. reflexivity.
    + destruct (IH false) as [Hd _]. split.
      * destruct (sub_runs is_hyphen [45%N] false s) as [|d r] eqn:E; [reflexivity|].
        cbn [double_hyphen] in *. fold double_hyphen in *. rewrite Hc, Hd. reflexivity.
      * intros _ [= ->]. discriminate Hc.
Qed.

Lemma double_hyphen_app a b : double_hyphen (a ++ b) = false ->
  double_hyphen a = false /\ double_hyphen b = false.
Proof.
  induction a as [|c a IH]; simpl; [auto|].
  destruct a as [|d a].
  - cbn [app]. destruct b as [|e b]; [auto|]. intros H.
    apply orb_false_iff in H as [_ H]. auto.
  - cbn [app] in *. intros H. apply orb_false_iff in H as [H1 H2].
    destruct (IH H2) as [Ha Hb]. split; [|assumption]. rewrite H1, Ha. reflexivity.
Qed.

(** Whatever the name, its slug is not empty, holds neither white space
    nor an underscore, neither starts nor ends with a hyphen, and has no
    two hyphens in a row. *)
Theorem slugify_shape (env : Env) (name : str) :
  let slug := _slugify env name in
  slug <> []
  /\ Forall slug_char slug
  /\ head slug <> Some 45%N
  /\ last slug <> Some 45%N
  /\ double_hyphen slug = false.
Proof.
  unfold _slugify. cbv zeta.
  set (s1 := filter _ (strip (str_lower env name))).
  set (s2 := sub_runs (fun c => is_space c || is_underscore c) [45%N] false s1).
  set (s3 := sub_runs is_hyphen [45%N] false s2).
  destruct (truthy (strip_chars is_hyphen s3)) eqn:Ht.
  - destruct (strip_chars_split is_hyphen s3) as (pre & post & Hs3 & _ & _).
    assert (H2 : Forall slug_char s2).
    { apply sub_runs_elems; [repeat constructor; discriminate|].
      apply Forall_forall. intros c _ Hc. apply orb_false_iff in Hc as [Hsp Hu].
      split; [assumption|]. intros ->. discriminate Hu. }
    assert (H3 : Forall slug_char s3).
    { apply sub_runs_elems; [repeat constructor; discriminate|].
      eapply Forall_impl; [exact H2|]. auto. }
    split; [intros E; rewrite E in Ht; discriminate|].
    split.
    { rewrite Hs3 in H3. apply Forall_app in H3 as [_ H3].
      apply Forall_app in H3 as [H3 _]. exact H3. }
    split.
    { intros Hh. apply strip_chars_head in Hh. discriminate Hh. }
    split.
    { intros Hl. apply strip_chars_last in Hl. discriminate Hl. }
    destruct (sub_runs_hyphen false s2) as [Hd _]. fold s3 in Hd.
    rewrite Hs3 in Hd. apply double_hyphen_app in Hd as [_ Hd].
    apply double_hyphen_app in Hd as [Hd _]. exact Hd.
  - split; [discriminate|]. split; [repeat constructor; discriminate|].
    split; [discriminate|]. split; [discriminate|]. reflexivity.
Qed.

End SlugFacts.

Module RunFacts.
Import Models Process ProcessSpec ProcessFacts RunSpec.

Lemma bind_ok {A B} (m : M A) (k : A -> M B) s a :
  (m s).2 = Ok a -> bind m k s = k a (m s).1.
Proof.
  intros H. rewrite bind_run. destruct (m s) as [s' r]. simpl in H. subst r. reflexivity.
Qed.

Lemma process_body_head env u s text {B} (K : str + dict -> M B) :
  ocr_extract_text env (file_path (doc s)) = Ok text ->
  (assign (set_status processing) ;;;
   flush ;;;
   _log_step u (py "start") (py "info") (py "Processing started") ;;;
   r <-- step_ocr env u ;;;
   K r) s
  = K (inl text) (ocr_done u text s).1.
Proof.
  intros Hocr. unfold step_ocr, ocr_done, try_except, _log_step, bind.
  cbn. rewrite Hocr. cbn. reflexivity.
Qed.

Lemma process_body_tail env u text {B} (b : B) s1 :
  (step_classify env u text ;;;
   step_fields env u text ;;;
   step_embeddings env u text ;;;
   step_thumbnail env u ;;;
   assign (set_status done) ;;;
   assign (set_modified_date (utcnow env)) ;;;
   _log_step u (py "complete") (py "success") (py "Processing complete") ;;;
   commit ;;;
   ret b) s1
  = let s2 := (step_classify env u text s1).1 in
    let s3 := (step_fields env u text s2).1 in
    let s4 := (step_embeddings env u text s3).1 in
    let s5 := (step_thumbnail env u s4).1 in
    ((complete env u s5).1, Ok b).
Proof.
  cbv zeta.
  rewrite (bind_ok _ _ _ tt (proj1 (step_classify_stage env u text _))).
  rewrite (bind_ok _ _ _ tt (proj1 (step_fields_stage env u text _))).
  rewrite (bind_ok _ _ _ tt (proj1 (step_embeddings_stage env u text _))).
  rewrite (bind_ok _ _ _ tt (proj1 (step_thumbnail_stage env u _))).
  generalize ((step_thumbnail env u
                 (step_embeddings env u text
                    (step_fields env u text (step_classify env u text s1).1).1).1).1).
  intros s5. reflexivity.
Qed.

Lemma process_body_stages env document_id u s text :
  ocr_extract_text env (file_path (doc s)) = Ok text ->
  process_body env document_id u s
  = let s1 := (ocr_done u text s).1 in
    let s2 := (step_classify env u text s1).1 in
    let s3 := (step_fields env u text s2).1 in
    let s4 := (step_embeddings env u text s3).1 in
    let s5 := (step_thumbnail env u s4).1 in
    ((complete env u s5).1, Ok [(py "status", py "done"); (py "document_id", document_id)]).
Proof.
  intros Hocr. unfold process_body.
  rewrite (process_body_head env u s text _ Hocr).
  apply process_body_tail.
Qed.

Section Confined.
Context (u : UUID) (Rel : DB -> Prop) (HRel : closed u Rel).

Lemma confined_assign f : invariant (confined u Rel) (assign f).
Proof. intros s H. exact H. Qed.

Lemma confined_modify f : update_of u f -> invariant (confined u Rel) (modify_db f).
Proof.
  intros Hf s (Hk & Hd & Hc). split; [exact Hk|]. split; [|exact Hc].
  apply HRel; assumption.
Qed.

Lemma confined_flush : invariant (confined u Rel) flush.
Proof.
  intros s (Hk & Hd & Hc). split; [exact Hk|]. split; [|exact Hc].
  cbn. rewrite Hk. apply (HRel _ _ (update_row u (doc s))). exact Hd.
Qed.

Lemma confined_commit : invariant (confined u Rel) commit.
Proof.
  intros s H. destruct (confined_flush s H) as (Hk & Hd & Hc).
  split; [exact Hk|]. split; exact Hd.
Qed.

Lemma confined_log_step st status_ msg :
  invariant (confined u Rel) (_log_step u st status_ msg).
Proof.
  apply invariant_bind; [apply confined_modify; constructor|intros _; apply confined_flush].
Qed.

End Confined.

Ltac confined_step H :=
  first
    [ apply (confined_log_step _ _ H)
    | apply (confined_flush _ _ H)
    | apply (confined_commit _ _ H)
    | apply (confined_modify _ _ H); constructor
    | apply confined_assign
    | apply invariant_bind; [|intros ?]
    | apply invariant_try_except; [|intros ?]
    | apply invariant_for_each; intros ?
    | apply invariant_ret
    | apply invariant_raise
    | apply invariant_lift
    | apply invariant_get_db
    | apply invariant_get_doc
    | progress cbv zeta
    | match goal with
      | |- invariant _ (if ?b then _ else _) => destruct b
      | |- invariant _ (match ?x with _ => _ end) => destruct x
      end
    | progress unfold call_classifier, apply_title_date, classify_document_type,
        classify_correspondent, classify_tag, apply_file_info ].

Ltac confined_auto H := repeat confined_step H.

Lemma process_body_confined env document_id u Rel :
  closed u Rel -> invariant (confined u Rel) (process_body env document_id u).
Proof.
  intros H.
  unfold process_body, step_ocr, step_classify, step_fields, step_embeddings,
    step_thumbnail.
  confined_auto H.
Qed.

Lemma process_fatal_confined u e Rel :
  closed u Rel -> invariant (confined u Rel) (process_fatal u e).
Proof. intros H. unfold process_fatal. confined_auto H. Qed.

Lemma reprocess_body_confined env document_id u Rel :
  closed u Rel -> invariant (confined u Rel) (reprocess_body env document_id u).
Proof.
  intros H.
  unfold reprocess_body, reocr, step_reclassify, delete_old_fields,
    step_reextract_fields, step_reembed.
  confined_auto H.
Qed.

Lemma reprocess_fatal_confined u Rel :
  closed u Rel -> invariant (confined u Rel) reprocess_fatal.
Proof. intros H. unfold reprocess_fatal. confined_auto H. Qed.

Lemma process_document_confined env document_id u Rel store :
  closed u Rel -> uuid_UUID env document_id = Ok u -> Rel store ->
  Rel (process_document env document_id store).1.
Proof.
  intros H Hid Hs. unfold process_document. rewrite Hid.
  destruct (documents store !! u) as [d|]; [|exact Hs].
  pose proof (process_body_confined env document_id u Rel H (mkSession store store u d))
    as Hb.
  destruct (process_body env document_id u _) as [s [r|e]]; cbn [fst] in *.
  - apply Hb. repeat split; assumption.
  - apply (process_fatal_confined u e Rel H s). apply Hb. repeat split; assumption.
Qed.

Lemma reprocess_document_confined env document_id u Rel store :
  closed u Rel -> uuid_UUID env document_id = Ok u -> Rel store ->
  Rel (reprocess_document env document_id store).1.
Proof.
  intros H Hid Hs. unfold reprocess_document. rewrite Hid.
  destruct (documents store !! u) as [d|]; [|exact Hs].
  pose proof (reprocess_body_confined env document_id u Rel H (mkSession store store u d))
    as Hb.
  destruct (reprocess_body env document_id u _) as [s [r|e]]; cbn [fst] in *.
  - apply Hb. repeat split; assumption.
  - apply (reprocess_fatal_confined u Rel H s). apply Hb. repeat split; assumption.
Qed.

Lemma filter_snoc_out {A} (P : A -> Prop) `{!forall x, Decision (P x)} (l : list A) x :
  ~ P x -> filter P (l ++ [x]) = filter P l.
Proof.
  intros Hn. rewrite filter_app, filter_cons, decide_False by exact Hn.
  rewrite filter_nil. apply app_nil_r.
Qed.

Lemma foreign_update u f d : update_of u f -> foreign u (f d) = foreign u d.
Proof.
  intros Hf. destruct Hf; unfold foreign; cbn.
  - rewrite delete_insert_eq. reflexivity.
  - rewrite filter_snoc_out by (cbn; intros H; apply H; reflexivity). reflexivity.
  - reflexivity.
  - reflexivity.
  - reflexivity.
  - rewrite filter_snoc_out by (cbn; intros H; apply H; reflexivity). reflexivity.
  - rewrite filter_snoc_out by (cbn; intros H; apply H; reflexivity). reflexivity.
  - rewrite list_filter_filter. do 3 f_equal. apply list_filter_iff. intros x. tauto.
Qed.

Lemma filter_narrow {A} (P Q : A -> Prop) `{!forall x, Decision (P x)}
      `{!forall x, Decision (Q x)} (l l' : list A) :
  (forall x, P x -> Q x) -> filter Q l = filter Q l' -> filter P l = filter P l'.
Proof.
  intros HPQ Heq.
  assert (E : forall m : list A, filter P m = filter P (filter Q m)).
  { intros m. rewrite list_filter_filter. apply list_filter_iff. intros x. split.
    - intros HP. split; [exact HP|apply HPQ; exact HP].
    - intros [HP _]. exact HP. }
  rewrite (E l), (E l'), Heq. reflexivity.
Qed.

Lemma foreign_about u u' d d' :
  u' <> u -> foreign u d = foreign u d' -> about u' d = about u' d'.
Proof.
  intros Hne. unfold foreign, about. intros [= Hdoc Hcf Htag Hlog].
  f_equal; [f_equal; [f_equal|]|].
  - rewrite <- (lookup_delete_ne (documents d) u u') by congruence.
    rewrite <- (lookup_delete_ne (documents d') u u') by congruence.
    rewrite Hdoc. reflexivity.
  - eapply filter_narrow; [|exact Hcf]. cbn. congruence.
  - eapply filter_narrow; [|exact Htag]. cbn. congruence.
  - eapply filter_narrow; [|exact Hlog]. cbn. congruence.
Qed.

(** A first-time run and a rerun for document [u] leave what the store
    holds about every other document as it was: row, custom fields, tag
    associations and log entries, whatever the outcome of the run. *)
Theorem run_leaves_other_documents (env : Env) (document_id : str) (store : DB)
        (u u' : UUID) :
  uuid_UUID env document_id = Ok u ->
  u' <> u ->
  about u' (process_document env document_id store).1 = about u' store
  /\ about u' (reprocess_document env document_id store).1 = about u' store.
Proof.
  intros Hid Hne.
  assert (H : closed u (fun d => foreign u d = foreign u store)).
  { intros f d Hf Hd. rewrite foreign_update by exact Hf. exact Hd. }
  split; apply (foreign_about u); try exact Hne.
  - apply (process_document_confined env document_id u _ store H Hid). reflexivity.
  - apply (reprocess_document_confined env document_id u _ store H Hid). reflexivity.
Qed.

Lemma run_leaves_other_documents_witness :
  uuid_UUID Sample.good_env Sample.doc_id_str = Ok Sample.doc_id
  /\ 8%N <> Sample.doc_id
  /\ about 8%N (process_document Sample.good_env Sample.doc_id_str Sample.store).1
     = about 8%N Sample.store.
Proof.
  split; [vm_compute; reflexivity|]. split; [unfold Sample.doc_id; lia|].
  destruct (run_leaves_other_documents Sample.good_env Sample.doc_id_str Sample.store
              Sample.doc_id 8%N) as [Hrun _];
    [vm_compute; reflexivity|unfold Sample.doc_id; lia|exact Hrun].
Defined.

Lemma log_extends_update u d0 f d :
  update_of u f -> log_extends u d0 d -> log_extends u d0 (f d).
Proof.
  intros Hf (new & Hl & Hall). destruct Hf; try (exists new; split; assumption).
  eexists (new ++ [_]). cbn. rewrite Hl, <- app_assoc. split; [reflexivity|].
  apply Forall_app. split; [exact Hall|]. repeat constructor.
Qed.

(** The processing log is append-only: whatever the outcome of a
    first-time run or of a rerun, the log it leaves is the log it found
    followed by entries of the document the task was called for. *)
Theorem run_appends_to_log (env : Env) (document_id : str) (store : DB) :
  appends env document_id store (process_document env document_id store).1
  /\ appends env document_id store (reprocess_document env document_id store).1.
Proof.
  assert (Hrun : forall store',
             store' = (process_document env document_id store).1
             \/ store' = (reprocess_document env document_id store).1 ->
             appends env document_id store store').
  { intros store' Hs. unfold appends.
    destruct (uuid_UUID env document_id) as [u|e] eqn:Hid.
    - assert (H : closed u (log_extends u store)).
      { intros f d Hf Hd. apply log_extends_update; assumption. }
      assert (H0 : log_extends u store store).
      { exists []. rewrite app_nil_r. split; [reflexivity|constructor]. }
      assert (Hx : log_extends u store store').
      { destruct Hs as [-> | ->].
        - apply (process_document_confined env document_id u _ store H Hid H0).
        - apply (reprocess_document_confined env document_id u _ store H Hid H0). }
      destruct Hx as (new & Hl & Hall). exists new. split; [exact Hl|].
      eapply Forall_impl; [exact Hall|]. cbn. intros l ->. reflexivity.
    - exists []. rewrite app_nil_r. split; [|constructor].
      destruct Hs as [-> | ->]; unfold process_document, reprocess_document;
        rewrite Hid; reflexivity. }
  split; apply Hrun; [left|right]; reflexivity.
Qed.

(** *** The row and the tables a first-time run leaves *)

Ltac frame_run :=
  repeat first
    [ frame_step
    | progress unfold ocr_done, complete, step_classify, step_fields, step_embeddings,
        step_thumbnail, step_reclassify, step_reextract_fields, step_reembed,
        delete_old_fields, reocr, _log_step, commit ].

Ltac by_frame p :=
  lazymatch goal with
  | |- context [(?m ?s).1] =>
      let F := fresh in
      assert (F : frame p m) by frame_run; exact (F s)
  end.

Lemma frame_after_bind {X A B} (p : Session -> X) (m : M A) (k : A -> M B) s :
  (forall a, frame p (k a)) -> p (bind m k s).1 = p (m s).1.
Proof.
  intros Hk. rewrite bind_run. destruct (m s) as [s' [a|e]]; [apply Hk|reflexivity].
Qed.

Lemma frame_after_try {X A} (p : Session -> X) (body : M A) handler s :
  (forall e, frame p (handler e)) -> p (try_except body handler s).1 = p (body s).1.
Proof.
  intros Hh. unfold try_except. destruct (body s) as [s' [a|e]]; [reflexivity|apply Hh].
Qed.

Lemma complete_run env u s :
  doc_key s = u ->
  let s' := (complete env u s).1 in
  committed s' = db s'
  /\ documents (db s') !! u = Some (set_modified_date (utcnow env) (set_status done (doc s)))
  /\ custom_fields (db s') = custom_fields (db s)
  /\ vocabulary (db s') = vocabulary (db s).
Proof.
  intros <-. cbn. split; [reflexivity|]. split; [|split; reflexivity].
  apply lookup_insert_eq.
Qed.

Lemma call_classifier_run env text s :
  call_classifier env text s = (s, classifier_result env text (db s)).
Proof. reflexivity. Qed.

Lemma step_classify_title env u text s :
  title (doc (step_classify env u text s).1)
  = title_after (classifier_result env text (db s)) (title (doc s)).
Proof.
  unfold step_classify.
  rewrite (frame_after_try (fun s => title (doc s))) by (intros e; frame_run).
  rewrite bind_run, call_classifier_run.
  destruct (classifier_result env text (db s)) as [r|e]; [|reflexivity].
  cbn [title_after].
  rewrite (frame_after_bind (fun s => title (doc s))) by (intros a; frame_run).
  unfold apply_title_date.
  rewrite (frame_after_bind (fun s => title (doc s))) by (intros a; frame_run).
  destruct (truthy (cr_title r)); reflexivity.
Qed.

Lemma step_fields_run env u text s :
  forall u',
    fields_of u' (db (step_fields env u text s).1)
    = fields_of u' (db s)
      ++ (if decide (u' = u)
          then match extract_fields env text with
               | Ok fs => map triple fs
               | Raise _ => []
               end
          else []).
Proof.
  intros u'. unfold step_fields, try_except, bind, lift.
  destruct (extract_fields env text) as [fs|e]; cbn beta iota.
  - destruct (add_fields_run u fs s) as [Hr Hf]. specialize (Hf u').
    destruct (for_each fs _ s) as [s' r]. simpl in Hr, Hf. subst r. cbn.
    exact Hf.
  - cbn. destruct (decide _); rewrite app_nil_r; reflexivity.
Qed.

Lemma step_embeddings_embedding env u text s :
  embedding (doc (step_embeddings env u text s).1)
  = embedding_after (embed_text env text) (embedding (doc s)).
Proof.
  unfold step_embeddings, try_except, bind, lift.
  destruct (embed_text env text) as [e|e]; reflexivity.
Qed.

Lemma step_reembed_embedding env u text s :
  embedding (doc (step_reembed env u text s).1)
  = embedding_after (embed_text env text) (embedding (doc s)).
Proof.
  unfold step_reembed, try_except, bind, lift.
  destruct (embed_text env text) as [e|e]; reflexivity.
Qed.

(** What a first-time run whose text extraction returns leaves, in terms
    of the sessions between its stages. *)
Lemma process_document_stages env document_id u store d text :
  uuid_UUID env document_id = Ok u ->
  documents store !! u = Some d ->
  ocr_extract_text env (file_path d) = Ok text ->
  exists s1 s2 s3 s4 s5,
    s1 = (ocr_done u text (mkSession store store u d)).1
    /\ s2 = (step_classify env u text s1).1
    /\ s3 = (step_fields env u text s2).1
    /\ s4 = (step_embeddings env u text s3).1
    /\ s5 = (step_thumbnail env u s4).1
    /\ doc_key s5 = u
    /\ (process_document env document_id store).1 = db (complete env u s5).1.
Proof.
  intros Hid Hdoc Hocr. do 5 eexists. do 5 (split; [reflexivity|]).
  split.
  - assert (F : frame doc_key
                  (ocr_done u text ;;; step_classify env u text ;;;
                   step_fields env u text ;;; step_embeddings env u text ;;;
                   step_thumbnail env u)) by frame_run.
    specialize (F (mkSession store store u d)).
    rewrite (bind_ok _ _ _ tt) in F by reflexivity.
    rewrite (bind_ok _ _ _ tt (proj1 (step_classify_stage env u text _))) in F.
    rewrite (bind_ok _ _ _ tt (proj1 (step_fields_stage env u text _))) in F.
    rewrite (bind_ok _ _ _ tt (proj1 (step_embeddings_stage env u text _))) in F.
    exact F.
  - unfold process_document. rewrite Hid, Hdoc.
    rewrite (process_body_stages env document_id u (mkSession store store u d) text Hocr).
    cbv zeta. cbn [fst].
    generalize (step_thumbnail env u
                  (step_embeddings env u text
                     (step_fields env u text
                        (step_classify env u text
                           (ocr_done u text (mkSession store store u d)).1).1).1).1).1.
    intros s5. reflexivity.
Qed.

Lemma process_document_fields (env : Env) (document_id : str) (u : UUID) (store : DB)
        (d : Document) (text : str) :
  uuid_UUID env document_id = Ok u ->
  documents store !! u = Some d ->
  ocr_extract_text env (file_path d) = Ok text ->
  fields_of u (process_document env document_id store).1
  = fields_of u store
    ++ match extract_fields env text with
       | Ok fs => map triple fs
       | Raise _ => []
       end.
Proof.
  intros Hid Hdoc Hocr.
  destruct (process_document_stages env document_id u store d text Hid Hdoc Hocr)
    as (s1 & s2 & s3 & s4 & s5 & E1 & E2 & E3 & E4 & E5 & Hk & ->).
  destruct (complete_run env u s5 Hk) as (_ & _ & Hcf & _).
  assert (F1 : custom_fields (db s1) = custom_fields store).
  { subst s1. reflexivity. }
  assert (F2 : custom_fields (db s2) = custom_fields (db s1)).
  { subst s2. by_frame (fun s => custom_fields (db s)). }
  pose proof (step_fields_run env u text s2 u) as F3. rewrite <- E3 in F3.
  assert (F4 : custom_fields (db s4) = custom_fields (db s3)).
  { subst s4. by_frame (fun s => custom_fields (db s)). }
  assert (F5 : custom_fields (db s5) = custom_fields (db s4)).
  { subst s5. by_frame (fun s => custom_fields (db s)). }
  rewrite decide_True in F3 by reflexivity.
  unfold fields_of in *. rewrite Hcf, F5, F4, F3, F2, F1. reflexivity.
Qed.

Lemma process_document_row (env : Env) (document_id : str) (u : UUID) (store : DB)
        (d : Document) (text : str) :
  uuid_UUID env document_id = Ok u ->
  documents store !! u = Some d ->
  ocr_extract_text env (file_path d) = Ok text ->
  exists d',
    documents (process_document env document_id store).1 !! u = Some d'
    /\ status d' = done
    /\ content d' = Some text
    /\ title d' = title_after (classifier_result env text store) (title d)
    /\ embedding d' = embedding_after (embed_text env text) (embedding d)
    /\ (original_filename d', file_path d', added_date d')
       = (original_filename d, file_path d, added_date d).
Proof.
  intros Hid Hdoc Hocr.
  destruct (process_document_stages env document_id u store d text Hid Hdoc Hocr)
    as (s1 & s2 & s3 & s4 & s5 & E1 & E2 & E3 & E4 & E5 & Hk & ->).
  destruct (complete_run env u s5 Hk) as (_ & Hrow & _ & _).
  eexists. split; [exact Hrow|]. split; [reflexivity|].
  set (p := fun s : Session => (content (doc s), title (doc s), embedding (doc s),
                                 (original_filename (doc s), file_path (doc s),
                                  added_date (doc s)))).
  set (q := fun s : Session => (content (doc s), embedding (doc s),
                                 (original_filename (doc s), file_path (doc s),
                                  added_date (doc s)))).
  set (r := fun s : Session => (content (doc s), title (doc s),
                                 (original_filename (doc s), file_path (doc s),
                                  added_date (doc s)))).
  assert (F5 : p s5 = p s4).
  { subst s5. by_frame p. }
  assert (F4 : r s4 = r s3).
  { subst s4. by_frame r. }
  pose proof (step_embeddings_embedding env u text s3) as G4. rewrite <- E4 in G4.
  assert (F3 : p s3 = p s2).
  { subst s3. by_frame p. }
  assert (F2 : q s2 = q s1).
  { subst s2. by_frame q. }
  pose proof (step_classify_title env u text s1) as G2. rewrite <- E2 in G2.
  assert (F1 : vocabulary (db s1) = vocabulary store /\ title (doc s1) = title d
               /\ q s1 = (Some text, embedding d,
                          (original_filename d, file_path d, added_date d))).
  { subst s1. repeat split. }
  destruct F1 as (V1 & T1 & Q1).
  assert (C1 : classifier_result env text (db s1) = classifier_result env text store).
  { unfold vocabulary in V1. injection V1 as Ht _ Hd Hc.
    unfold classifier_result. rewrite Ht, Hd, Hc. reflexivity. }
  rewrite C1, T1 in G2.
  subst p q r. cbn beta in *.
  injection F5 as A5 B5 C5 D5 D5' D5''. injection F4 as A4 B4 D4 D4' D4''.
  injection F3 as A3 B3 C3 D3 D3' D3''. injection F2 as A2 C2 D2 D2' D2''.
  injection Q1 as A1 C1' D1 D1' D1''.
  cbn. repeat split; congruence.
Qed.








(** A rerun changes neither the tables of tags, document types and
    correspondents nor the tag associations, and on the row of its document
    it leaves the document type, the correspondent, the thumbnail, the
    page count and the file facts as they were, whatever the classifier
    returns. *)
Theorem rerun_keeps_links (env : Env) (document_id : str) (u : UUID) (store : DB)
        (d : Document) :
  uuid_UUID env document_id = Ok u ->
  documents store !! u = Some d ->
  let store' := (reprocess_document env document_id store).1 in
  vocabulary store' = vocabulary store
  /\ exists d', documents store' !! u = Some d'
                /\ document_type_id d' = document_type_id d
                /\ correspondent_id d' = correspondent_id d
                /\ file_facts d' = file_facts d.
Proof.
  intros Hid Hdoc store'. subst store'. unfold reprocess_document. rewrite Hid, Hdoc.
  set (s := mkSession store store u d).
  destruct (reprocess_body_done env document_id u s eq_refl) as (Hr & Hc & Hrow & _).
  assert (F : frame (fun s => (vocabulary (db s), document_type_id (doc s),
                               correspondent_id (doc s), file_facts (doc s)))
                    (reprocess_body env document_id u)).
  { unfold reprocess_body. frame_run. }
  specialize (F s). cbn beta in F.
  destruct (reprocess_body env document_id u s) as [s' r]. cbn [fst snd] in *. subst r.
  cbn [fst]. rewrite Hc.
  assert (Hv : vocabulary (db s') = vocabulary store)
    by exact (f_equal (fun x => x.1.1.1) F).
  assert (Ht : document_type_id (doc s') = document_type_id d)
    by exact (f_equal (fun x => x.1.1.2) F).
  assert (Hco : correspondent_id (doc s') = correspondent_id d)
    by exact (f_equal (fun x => x.1.2) F).
  assert (Hf : file_facts (doc s') = file_facts d)
    by exact (f_equal (fun x => x.2) F).
  split; [exact Hv|]. exists (doc s'). repeat split; assumption.
Qed.

Lemma rerun_keeps_links_witness :
  uuid_UUID Sample.good_env Sample.doc_id_str = Ok Sample.doc_id
  /\ documents Sample.store !! Sample.doc_id = Some Sample.pending_doc
  /\ vocabulary (reprocess_document Sample.good_env Sample.doc_id_str Sample.store).1
     = vocabulary Sample.store.
Proof.
  split; [vm_compute; reflexivity|]. split; [vm_compute; reflexivity|].
  destruct (rerun_keeps_links Sample.good_env Sample.doc_id_str Sample.doc_id
              Sample.store Sample.pending_doc) as [Hv _];
    [vm_compute; reflexivity|vm_compute; reflexivity|exact Hv].
Defined.

End RunFacts.

Module SearchPages.
Import Models Search SearchFacts SearchSpec.

Lemma take_plus {A} (l : list A) a b : take (a + b) l = take a l ++ take b (drop a l).
Proof.
  revert l. induction a as [|a IH]; intros l; [reflexivity|].
  destruct l as [|x l]; cbn; [rewrite take_nil; reflexivity|]. rewrite IH. reflexivity.
Qed.

Lemma pages_take {A} (l : list A) (size : nat) (n : nat) :
  concat (map (fun k => take size (drop (k * size) l)) (seq 0 n)) = take (n * size) l.
Proof.
  induction n as [|n IH]; [reflexivity|].
  rewrite seq_S, map_app, concat_app, IH. cbn [map concat Nat.add]. rewrite app_nil_r.
  replace (S n * size)%nat with (n * size + size)%nat by lia.
  rewrite take_plus. reflexivity.
Qed.

(** Hybrid search pages partition the ranked list: for a page size of at
    least 1, the pages 1 to [n] one after the other are the first
    [n * size] ranked ids; so they are all the ids, each once and in rank
    order, as soon as [n * size] reaches the total, and a page that starts
    at or after the total is empty. *)
Theorem hybrid_pages_partition
        (ft_result : list (UUID * float)) (sem_result : list (UUID * option float))
        (iteration : list UUID) (size : Z) (n : nat) :
  1 <= size ->
  let ranked := map fst (combined (ft_scores_of ft_result) (sem_scores_of sem_result)
                                  iteration) in
  pages_upto ft_result sem_result iteration size n = take (n * Z.to_nat size) ranked
  /\ (len ranked <= Z.of_nat n * size ->
      pages_upto ft_result sem_result iteration size n = ranked)
  /\ (len ranked <= Z.of_nat n * size ->
      page_ids (hybrid ft_result sem_result iteration (Z.of_nat n + 1) size) = []).
Proof.
  intros Hsize ranked.
  assert (Hpage : forall k : nat,
             page_ids (hybrid ft_result sem_result iteration (Z.of_nat k + 1) size)
             = take (Z.to_nat size) (drop (k * Z.to_nat size) ranked)).
  { intros k. unfold hybrid, page_ids. rewrite slice_page by nia.
    unfold ranked.
    repeat match goal with |- context [map fst ?l] => change (map fst l) with (fst <$> l) end.
    rewrite fmap_take, fmap_drop. do 2 f_equal. nia. }
  assert (Hall : pages_upto ft_result sem_result iteration size n
                 = take (n * Z.to_nat size) ranked).
  { unfold pages_upto. rewrite <- pages_take. f_equal. apply map_ext. intros k. apply Hpage. }
  split; [exact Hall|]. split.
  - intros Hn. rewrite Hall. apply take_ge. unfold len in Hn. nia.
  - intros Hn. rewrite Hpage, drop_ge; [apply take_nil|]. unfold len in Hn. nia.
Qed.

Lemma hybrid_pages_partition_witness :
  1 <= 1
  /\ pages_upto Sample.ft_result Sample.sem_result [Sample.A; Sample.B] 1 2
     = [Sample.B; Sample.A].
Proof.
  split; [lia|].
  destruct (hybrid_pages_partition Sample.ft_result Sample.sem_result
              [Sample.A; Sample.B] 1 2) as [Hall _]; [lia|].
  rewrite Hall. vm_compute. reflexivity.
Defined.

Lemma dict_of_rows_step {V} (rows : list (UUID * V)) (m : gmap UUID V) k :
  k ∉ map fst rows -> fold_left (fun m r => <[r.1 := r.2]> m) rows m !! k = m !! k.
Proof.
  revert m. induction rows as [|r rows IH]; intros m Hk; [reflexivity|].
  cbn [fold_left]. rewrite IH.
  - apply lookup_insert_ne. intros E. apply Hk. cbn. apply elem_of_cons. left.
    symmetry. exact E.
  - intros Hin. apply Hk. cbn. apply elem_of_cons. right. exact Hin.
Qed.

Lemma dict_of_rows_lookup {V} (rows : list (UUID * V)) k v :
  NoDup (map fst rows) -> (k, v) ∈ rows -> dict_of_rows rows !! k = Some v.
Proof.
  unfold dict_of_rows. generalize (∅ : gmap UUID V).
  induction rows as [|r rows IH]; intros m Hnd Hin; [inversion Hin|].
  cbn [map] in Hnd. apply NoDup_cons in Hnd as [Hr Hnd]. cbn [fold_left].
  apply elem_of_cons in Hin as [<-|Hin].
  - rewrite dict_of_rows_step by exact Hr. cbn. apply lookup_insert_eq.
  - apply IH; assumption.
Qed.

Lemma dict_of_rows_dom {V} (rows : list (UUID * V)) k :
  k ∈ dom (dict_of_rows rows) <-> k ∈ map fst rows.
Proof.
  unfold dict_of_rows.
  assert (H : forall m : gmap UUID V,
             k ∈ dom (fold_left (fun m r => <[r.1 := r.2]> m) rows m)
             <-> k ∈ dom m \/ k ∈ map fst rows).
  { induction rows as [|r rows IH]; intros m; cbn [fold_left map].
    - rewrite elem_of_nil. tauto.
    - rewrite IH, dom_insert, elem_of_union, elem_of_singleton, elem_of_cons. tauto. }
  rewrite H, dom_empty, elem_of_empty. tauto.
Qed.

(** The score map of a hybrid search holds every id of the ranked list, on
    the page or not, with its combined score. *)
Theorem hybrid_score_map
        (ft_result : list (UUID * float)) (sem_result : list (UUID * option float))
        (iteration : list UUID) (page size : Z) :
  NoDup iteration ->
  let ft_scores := ft_scores_of ft_result in
  let sem_scores := sem_scores_of sem_result in
  let r := hybrid ft_result sem_result iteration page size in
  (forall did, did ∈ dom (score_map r) <-> did ∈ iteration)
  /\ (forall did, did ∈ iteration ->
                  score_map r !! did
                  = Some (default 0 (ft_scores !! did) * 0.4
                          + default 0 (sem_scores !! did) * 0.6)%float)
  /\ (forall did, did ∈ page_ids r -> is_Some (score_map r !! did)).
Proof.
  intros Hnd ft_scores sem_scores r.
  assert (Hdom : forall did, did ∈ dom (score_map r) <-> did ∈ iteration).
  { intros did. unfold r, hybrid, score_map. rewrite dict_of_rows_dom.
    rewrite (combined_ids _ _ iteration). reflexivity. }
  split; [exact Hdom|]. split.
  - intros did Hin. unfold r, hybrid, score_map. apply dict_of_rows_lookup.
    + rewrite combined_ids. exact Hnd.
    + apply combined_elem. split; [exact Hin|reflexivity].
  - intros did Hin. apply elem_of_dom, Hdom.
    unfold r, hybrid, page_ids, slice in Hin. cbv zeta in Hin.
    apply list_elem_of_fmap in Hin as (x & -> & Hx).
    apply subseteq_take, subseteq_drop in Hx.
    rewrite <- (combined_ids ft_scores sem_scores iteration).
    apply list_elem_of_fmap. exists x. split; [reflexivity|exact Hx].
Qed.

Lemma hybrid_score_map_witness :
  NoDup [Sample.A; Sample.B]
  /\ score_map (hybrid Sample.ft_result Sample.sem_result [Sample.A; Sample.B] 1 1)
       !! Sample.B
     = Some (0 * 0.4 + 0.9 * 0.6)%float.
Proof.
  assert (Hnd : NoDup [Sample.A; Sample.B]).
  { apply NoDup_cons. split; [|apply NoDup_singleton].
    rewrite list_elem_of_singleton. discriminate. }
  split; [exact Hnd|].
  destruct (hybrid_score_map Sample.ft_result Sample.sem_result
              [Sample.A; Sample.B] 1 1 Hnd) as (_ & Hscore & _).
  rewrite Hscore.
  - vm_compute. reflexivity.
  - apply elem_of_cons. right. apply list_elem_of_singleton. reflexivity.
Defined.

End SearchPages.

Module ServicesFacts.
Import Models Process Services ServicesSpec StripFacts.

Lemma split_char_cons sep s : exists l ls, split_char sep s = l :: ls.
Proof.
  destruct s as [|c s]; cbn; [eauto|].
  destruct (c =? sep)%N; [eauto|]. destruct (split_char sep s); eauto.
Qed.

Lemma split_char_pieces sep s :
  exists l ls, split_char sep s = l :: ls
               /\ (exists post, s = l ++ post)
               /\ Forall (piece_of s) ls
               /\ Forall (fun l' => sep ∉ l') (l :: ls).
Proof.
  induction s as [|c s (l & ls & E & (post & Hl) & Hls & Hsep)]; cbn.
  - exists [], []. split; [reflexivity|]. split; [exists []; reflexivity|].
    split; [constructor|]. constructor; [apply not_elem_of_nil|constructor].
  - destruct (N.eqb_spec c sep) as [->|Hne].
    + exists [], (split_char sep s). split; [reflexivity|]. split; [eexists; reflexivity|].
      split.
      * rewrite E. constructor.
        -- exists [sep], post. cbn. f_equal. exact Hl.
        -- eapply Forall_impl; [exact Hls|]. intros x (pre & post' & Hx).
           exists (sep :: pre), post'. cbn. f_equal. exact Hx.
      * constructor; [apply not_elem_of_nil|]. rewrite E. exact Hsep.
    + rewrite E. exists (c :: l), ls. split; [reflexivity|].
      split; [exists post; cbn; f_equal; exact Hl|]. split.
      * eapply Forall_impl; [exact Hls|]. intros x (pre & post' & Hx).
        exists (c :: pre), post'. cbn. f_equal. exact Hx.
      * apply Forall_cons in Hsep as [Hl0 Hrest]. constructor; [|exact Hrest].
        rewrite not_elem_of_cons. split; [congruence|exact Hl0].
Qed.

Lemma split_char_piece sep s l : l ∈ split_char sep s -> piece_of s l /\ sep ∉ l.
Proof.
  destruct (split_char_pieces sep s) as (l0 & ls & E & (post & Hl) & Hls & Hsep).
  rewrite E. intros Hin. split.
  - apply elem_of_cons in Hin as [->|Hin].
    + exists [], post. exact Hl.
    + rewrite Forall_forall in Hls. apply Hls. exact Hin.
  - rewrite Forall_forall in Hsep. apply Hsep. exact Hin.
Qed.









Lemma slice_prefix {A} (s : list A) (n : Z) : 0 <= n -> slice s 0 n = take (Z.to_nat n) s.
Proof.
  intros Hn. change (slice s 0 n) with (slice s 0 (0 + n)).
  rewrite SearchFacts.slice_page by lia. reflexivity.
Qed.







End ServicesFacts.

Module ServiceRuns.
Import Models Process ProcessSpec ProcessFacts RunSpec RunFacts Services ServicesSpec
       ServicesFacts.

Lemma step_classify_titled env u text s t :
  classifier_result env text (db s) = Ok (titled t) ->
  let s' := (step_classify env u text s).1 in
  vocabulary (db s') = vocabulary (db s) /\ links (doc s') = links (doc s).
Proof.
  intros Hc. cbv zeta.
  set (p := fun s : Session => (vocabulary (db s), links (doc s))).
  enough (Hp : p (step_classify env u text s).1 = p s).
  { split; [exact (f_equal fst Hp)|exact (f_equal snd Hp)]. }
  unfold step_classify.
  rewrite (frame_after_try p) by (intros e; frame_run).
  rewrite bind_run, call_classifier_run, Hc.
  match goal with
  | |- p (?m s).1 = _ => assert (F : frame p m); [|exact (F s)]
  end.
  unfold apply_title_date, classify_document_type, classify_correspondent.
  cbn [titled cr_title cr_date cr_document_type cr_correspondent cr_tags truthy for_each].
  frame_run.
Qed.

Lemma process_document_titled env document_id u store d text t :
  uuid_UUID env document_id = Ok u ->
  documents store !! u = Some d ->
  ocr_extract_text env (file_path d) = Ok text ->
  classifier_result env text store = Ok (titled t) ->
  let store' := (process_document env document_id store).1 in
  vocabulary store' = vocabulary store
  /\ forall d', documents store' !! u = Some d' -> links d' = links d.
Proof.
  intros Hid Hdoc Hocr Hc store'. subst store'.
  destruct (process_document_stages env document_id u store d text Hid Hdoc Hocr)
    as (s1 & s2 & s3 & s4 & s5 & E1 & E2 & E3 & E4 & E5 & Hk & ->).
  destruct (complete_run env u s5 Hk) as (_ & Hrow & _ & Hv).
  set (p := fun s : Session => (vocabulary (db s), links (doc s))).
  assert (F1 : p s1 = (vocabulary store, links d)) by (subst s1; reflexivity).
  assert (C1 : classifier_result env text (db s1) = classifier_result env text store).
  { pose proof (f_equal fst F1) as V1. cbn in V1. unfold vocabulary in V1.
    injection V1 as Ht _ Hd Hco. unfold classifier_result. rewrite Ht, Hd, Hco.
    reflexivity. }
  rewrite <- C1 in Hc.
  destruct (step_classify_titled env u text s1 t Hc) as [V2 L2]. rewrite <- E2 in V2, L2.
  assert (F3 : p s3 = p s2) by (subst s3; by_frame p).
  assert (F4 : p s4 = p s3) by (subst s4; by_frame p).
  assert (F5 : p s5 = p s4) by (subst s5; by_frame p).
  assert (F : p s5 = (vocabulary store, links d)).
  { rewrite F5, F4, F3, <- F1. unfold p. rewrite V2, L2. reflexivity. }
  split; [rewrite Hv; exact (f_equal fst F)|].
  intros d' Hd'. rewrite Hrow in Hd'. injection Hd' as <-. exact (f_equal snd F).
Qed.



(** With the services as they are, a first-time run for a document whose
    file is missing ends with status [done]: the content is the empty
    string, the embedding is the vector of 384 zeros, and title, links,
    custom fields and the tables of names are as they were; no model is
    asked. *)
Theorem missing_file_run_is_done
        (base : Env) (b : Ocr.Backend)
        (generate : str -> list str -> list str -> list str -> result ClassificationResult)
        (extract : str -> list ExtractedField) (encode : str -> result (list float))
        (document_id : str) (u : UUID) (store : DB) (d : Document) :
  let env := service_env base b generate extract encode in
  uuid_UUID base document_id = Ok u ->
  documents store !! u = Some d ->
  Ocr.path_exists b (Ocr._resolve_path b (file_path d)) = false ->
  let store' := (process_document env document_id store).1 in
  (process_document env document_id store).2
  = Returned [(py "status", py "done"); (py "document_id", document_id)]
  /\ vocabulary store' = vocabulary store
  /\ fields_of u store' = fields_of u store
  /\ exists d', documents store' !! u = Some d'
                /\ status d' = done
                /\ content d' = Some []
                /\ title d' = title d
                /\ embedding d' = Some (replicate 384 0%float)
                /\ links d' = links d.
Proof.
  intros env Hid Hdoc Hmiss store'.
  assert (Hocr : ocr_extract_text env (file_path d) = Ok []).
  { cbn. unfold Ocr.extract_text. rewrite Hmiss. reflexivity. }
  assert (Hc : classifier_result env [] store = Ok (titled [])) by reflexivity.
  destruct (process_document_done env document_id u store d [] Hid Hdoc Hocr)
    as (Hret & _ & _).
  destruct (process_document_titled env document_id u store d [] _ Hid Hdoc Hocr Hc)
    as [Hv Hl].
  destruct (process_document_row env document_id u store d [] Hid Hdoc Hocr)
    as (d' & Hrow & Hst & Hcont & Ht & Hemb & _).
  pose proof (process_document_fields env document_id u store d [] Hid Hdoc Hocr) as Hf.
  split; [exact Hret|]. split; [exact Hv|]. split.
  { subst store'. rewrite Hf. cbn. apply app_nil_r. }
  exists d'. split; [exact Hrow|]. split; [exact Hst|]. split; [exact Hcont|].
  split; [rewrite Ht; reflexivity|]. split; [rewrite Hemb; reflexivity|].
  apply Hl. exact Hrow.
Qed.

Lemma missing_file_run_is_done_witness :
  uuid_UUID Sample.good_env Sample.doc_id_str = Ok Sample.doc_id
  /\ documents Sample.store !! Sample.doc_id = Some Sample.pending_doc
  /\ Ocr.path_exists (Sample.backend false (Ok (py "text")) (Ok (py "text")))
       (Ocr._resolve_path (Sample.backend false (Ok (py "text")) (Ok (py "text")))
          (file_path Sample.pending_doc)) = false
  /\ (process_document
        (service_env Sample.good_env
           (Sample.backend false (Ok (py "text")) (Ok (py "text")))
           (fun _ _ _ _ => Ok Sample.invoice) (fun _ => Sample.invoice_fields)
           (fun _ => Raise (py "no model")))
        Sample.doc_id_str Sample.store).2
     = Returned [(py "status", py "done"); (py "document_id", Sample.doc_id_str)].
Proof.
  split; [vm_compute; reflexivity|]. split; [vm_compute; reflexivity|].
  split; [reflexivity|].
  destruct (missing_file_run_is_done Sample.good_env
              (Sample.backend false (Ok (py "text")) (Ok (py "text")))
              (fun _ _ _ _ => Ok Sample.invoice) (fun _ => Sample.invoice_fields)
              (fun _ => Raise (py "no model"))
              Sample.doc_id_str Sample.doc_id Sample.store Sample.pending_doc)
    as (Hret & _);
    [vm_compute; reflexivity|vm_compute; reflexivity|reflexivity|exact Hret].
Defined.

End ServiceRuns.

Module RagFacts.
Import Models Rag RagSpec.

Lemma snippet_200 (s : str) : slice (slice s 0 800) 0 200 = take 200 s.
Proof.
  rewrite !ServicesFacts.slice_prefix by lia.
  change (Z.to_nat 800) with 800%nat. change (Z.to_nat 200) with 200%nat.
  rewrite take_take. reflexivity.
Qed.

Lemma visit_all rows : forall acc,
  fold_left visit rows acc
  = (acc.1 ++ map (fun row => py "[Document: " ++ title_or_filename row.1.2 ++ py "]"
                              ++ [10%N] ++ slice (default [] (content row.1.2)) 0 800)
                  (filter relevant rows),
     acc.2 ++ map source_of (filter relevant rows)).
Proof.
  induction rows as [|[[id doc] distance] rows IH]; intros [parts srcs].
  - cbn. rewrite !app_nil_r. reflexivity.
  - cbn [fold_left]. rewrite IH. rewrite filter_cons.
    destruct (decide (relevant (id, doc, distance))) as [Hr|Hr].
    + unfold relevant in Hr. cbn [snd] in Hr. unfold visit. rewrite Hr.
      cbn [fst snd map]. rewrite <- !app_assoc. unfold source_of at 2. cbn [fst snd].
      rewrite snippet_200. reflexivity.
    + assert (Hlt : (similarity distance <? 0.1)%float = true).
      { destruct (similarity distance <? 0.1)%float eqn:E; [reflexivity|].
        exfalso. apply Hr. exact E. }
      unfold visit. rewrite Hlt. reflexivity.
Qed.

Lemma nan_relevant id doc d : is_nan d = true -> relevant (id, doc, Some d).
Proof.
  unfold relevant, similarity, is_nan. cbn [snd].
  rewrite FloatAxioms.ltb_spec, FloatAxioms.sub_spec, FloatAxioms.eqb_spec.
  destruct (Prim2SF d) as [s|s| |s m e] eqn:Ed; cbn; try (destruct s; discriminate);
    try discriminate.
  - intros _. reflexivity.
  - unfold SFeqb. cbn. destruct s; rewrite ?Z.compare_refl, ?Pos.compare_cont_refl;
      rewrite ?Pos.compare_refl; discriminate.
Qed.

Lemma none_not_relevant id doc : ~ relevant (id, doc, None).
Proof. unfold relevant. cbn. discriminate. Qed.

(** Whenever [answer] returns, its sources are the rows among the five
    nearest whose similarity is not below 0.1, in order of distance, each
    with the title or else the file name of the document and the first
    200 characters of its content; they do not depend on what the model
    answers.  A row without a distance is never a source, a row whose
    distance is NaN always is.  Without rows, or without a relevant row,
    the answer is the fixed text for that case. *)
Theorem answer_sources (b : Backend) (question : str) (reply : Reply) :
  answer b question = Ok reply ->
  exists query_embedding,
    embed_text b question = Ok query_embedding
    /\ let rows := take 5 (nearest b query_embedding) in
       reply_sources reply = map source_of (filter relevant rows)
       /\ (length (reply_sources reply) <= 5)%nat
       /\ Forall (fun s => len (cs_snippet s) <= 200) (reply_sources reply)
       /\ (rows = [] -> reply_answer reply = no_documents)
       /\ (rows <> [] -> filter relevant rows = [] ->
           reply_answer reply = no_relevant_documents)
       /\ (forall id doc d, is_nan d = true -> relevant (id, doc, Some d))
       /\ (forall id doc, ~ relevant (id, doc, None)).
Proof.
  unfold answer. intros H.
  destruct (embed_text b question) as [qe|e]; [|discriminate].
  exists qe. split; [reflexivity|]. cbv zeta.
  set (rows := take 5 (nearest b qe)) in *.
  assert (Hsrc : reply_sources reply = map source_of (filter relevant rows)).
  { destruct rows as [|row rows'] eqn:Er; [injection H as <-; reflexivity|].
    rewrite visit_all in H. cbn [fst snd app] in H.
    destruct (filter relevant (row :: rows')) as [|r rs];
      cbn [map] in H; injection H as <-; reflexivity. }
  split; [exact Hsrc|]. split; [|split; [|split; [|split; [|split]]]].
  - rewrite Hsrc, length_map. etransitivity; [apply length_filter|].
    unfold rows. rewrite length_take. lia.
  - rewrite Hsrc. apply Forall_fmap, Forall_forall. intros row _. cbn.
    unfold len. rewrite length_take. lia.
  - intros Er. rewrite Er in H. injection H as <-. reflexivity.
  - intros Hne Hnone. destruct rows as [|row rows']; [contradiction|].
    rewrite visit_all, Hnone in H. injection H as <-. reflexivity.
  - apply nan_relevant.
  - apply none_not_relevant.
Qed.

Lemma answer_sources_witness :
  answer (mkBackend (fun _ => Ok [1%float])
                    (fun _ => [(Sample.doc_id, Sample.pending_doc, Some 0.25%float);
                               (8%N, Sample.pending_doc, None)])
                    (fun _ => Answer (py "It is a scan.")))
         (py "What is it?")
  = Ok (mkReply (py "It is a scan.") [mkChatSource Sample.doc_id (py "scan.pdf") []])
  /\ (length [mkChatSource Sample.doc_id (py "scan.pdf") []] <= 5)%nat.
Proof.
  split; [vm_compute; reflexivity|].
  destruct (answer_sources
              (mkBackend (fun _ => Ok [1%float])
                         (fun _ => [(Sample.doc_id, Sample.pending_doc, Some 0.25%float);
                                    (8%N, Sample.pending_doc, None)])
                         (fun _ => Answer (py "It is a scan.")))
              (py "What is it?")
              (mkReply (py "It is a scan.") [mkChatSource Sample.doc_id (py "scan.pdf") []]))
    as (qe & _ & _ & Hlen & _); [vm_compute; reflexivity|exact Hlen].
Defined.

End RagFacts.

Module WatcherFacts.
Import Watcher WatcherSpec.

Lemma clock_60 (j : nat) : (j <= 60)%nat -> (clock j <? 60)%float = (j <? 60)%nat.
Proof.
  intros Hj.
  assert (H : Forall (fun j => (clock j <? 60)%float = (j <? 60)%nat) (seq 0 61)).
  { vm_compute. repeat constructor. }
  rewrite Forall_forall in H. apply H. apply elem_of_seq. lia.
Qed.

Lemma wait_loop_run getsize (m : nat) : forall poll : nat,
  (poll + m = 60)%nat ->
  (forall k, (k < poll)%nat -> ~ stable_at getsize k) ->
  exists r n,
    wait_loop (S m) getsize poll (previous_at getsize poll) (clock poll) 1 60 = Some (r, n)
    /\ (n <= 60)%nat
    /\ (r = Stable ->
        exists k, n = S k /\ stable_at getsize k
                  /\ forall k', (k' < k)%nat -> ~ stable_at getsize k')
    /\ (r = TimedOut -> n = 60%nat /\ forall k, (k < 60)%nat -> ~ stable_at getsize k).
Proof.
  induction m as [|m IH]; intros poll Hm Hnone.
  - cbn [wait_loop]. rewrite clock_60 by lia.
    destruct (Nat.ltb_spec poll 60); [lia|].
    exists TimedOut, poll. split; [reflexivity|]. split; [lia|].
    split; [discriminate|]. intros _. split; [lia|]. intros k Hk. apply Hnone. lia.
  - change (wait_loop (S (S m)) getsize poll (previous_at getsize poll) (clock poll) 1 60)
      with (if (clock poll <? 60)%float then
              match getsize poll with
              | Raise _ =>
                  wait_loop (S m) getsize (S poll) (previous_at getsize poll)
                            (clock (S poll)) 1 60
              | Ok current_size =>
                  if (current_size =? previous_at getsize poll) && (current_size >? 0)
                  then Some (Stable, S poll)
                  else wait_loop (S m) getsize (S poll) current_size (clock (S poll)) 1 60
              end
            else Some (TimedOut, poll)).
    rewrite clock_60 by lia. destruct (Nat.ltb_spec poll 60); [|lia].
    destruct (getsize poll) as [c|e] eqn:Eg.
    + destruct ((c =? previous_at getsize poll) && (c >? 0)) eqn:Ec.
      * apply andb_true_iff in Ec as [E1 E2]. apply Z.eqb_eq in E1.
        apply Z.gtb_lt in E2.
        exists Stable, (S poll). split; [reflexivity|]. split; [lia|].
        split; [|discriminate]. intros _. exists poll. split; [reflexivity|].
        split; [|exact Hnone]. exists c. repeat split; assumption.
      * assert (Hp : previous_at getsize (S poll) = c) by (cbn; rewrite Eg; reflexivity).
        rewrite <- Hp. apply IH; [lia|]. intros k Hk.
        destruct (decide (k = poll)) as [->|Hne]; [|apply Hnone; lia].
        intros (c' & Hc' & Hprev & Hpos). rewrite Eg in Hc'. injection Hc' as <-.
        apply andb_false_iff in Ec as [Ec|Ec].
        -- apply Z.eqb_neq in Ec. contradiction.
        -- rewrite Z.gtb_ltb, Z.ltb_ge in Ec. lia.
    + assert (Hp : previous_at getsize (S poll) = previous_at getsize poll)
        by (cbn; rewrite Eg; reflexivity).
      rewrite <- Hp. apply IH; [lia|]. intros k Hk.
      destruct (decide (k = poll)) as [->|Hne]; [|apply Hnone; lia].
      intros (c' & Hc' & _). rewrite Eg in Hc'. discriminate.
Qed.

(** Called with its defaults, [_wait_for_write] always ends, after at most
    60 polls.  It returns early exactly at the first poll that sees a
    positive size equal to the size seen by the last poll that did not
    raise; without such a poll it leaves the loop after 60 polls.  So a
    file that stays empty is never taken as complete. *)
Theorem wait_for_write_ends (getsize : nat -> result Z) :
  exists r n,
    _wait_for_write 61 getsize = Some (r, n)
    /\ (n <= 60)%nat
    /\ (r = Stable ->
        exists k, n = S k /\ stable_at getsize k
                  /\ forall k', (k' < k)%nat -> ~ stable_at getsize k')
    /\ (r = TimedOut -> n = 60%nat /\ forall k, (k < 60)%nat -> ~ stable_at getsize k)
    /\ ((forall k, getsize k = Ok 0) -> r = TimedOut).
Proof.
  destruct (wait_loop_run getsize 60 0%nat eq_refl) as (r & n & Hrun & Hn & Hs & Ht).
  { intros k Hk. lia. }
  exists r, n. split; [exact Hrun|]. split; [exact Hn|]. split; [exact Hs|].
  split; [exact Ht|]. intros Hzero. destruct r; [|reflexivity].
  destruct (Hs eq_refl) as (k & _ & (c & Hc & _ & Hpos) & _).
  rewrite Hzero in Hc. injection Hc as <-. lia.
Qed.

End WatcherFacts.

Module ApiFacts.
Import Models Process ProcessSpec ProcessFacts RunSpec RunFacts Services ServicesFacts Api
       ApiSpec.

Lemma split_char_app sep a b :
  split_char sep (a ++ sep :: b) = split_char sep a ++ split_char sep b.
Proof.
  induction a as [|c a IH]; cbn.
  - rewrite N.eqb_refl. reflexivity.
  - rewrite IH. destruct (c =? sep)%N; [reflexivity|].
    destruct (split_char_cons sep a) as (l & ls & ->). reflexivity.
Qed.

Lemma split_char_none sep e : sep ∉ e -> split_char sep e = [e].
Proof.
  induction e as [|c e IH]; [reflexivity|]. intros Hn. cbn.
  apply not_elem_of_cons in Hn as [Hc He].
  destruct (N.eqb_spec c sep) as [->|_]; [contradiction|]. rewrite IH by exact He.
  reflexivity.
Qed.

(** The extension of a file name is what follows its last dot,
    lower-cased; a name without a dot has the empty extension. *)
Theorem get_extension_after_last_dot (lower : str -> str) (stem e : str) :
  46%N ∉ e ->
  _get_extension lower (stem ++ 46%N :: e) = lower e
  /\ _get_extension lower e = [].
Proof.
  intros He. unfold _get_extension. split.
  - rewrite bool_decide_eq_true_2
      by (apply elem_of_app; right; apply elem_of_cons; left; reflexivity).
    rewrite split_char_app, (split_char_none _ e He), last_snoc. reflexivity.
  - rewrite bool_decide_eq_false_2 by exact He. reflexivity.
Qed.

Lemma get_extension_after_last_dot_witness :
  (46%N ∉ py "PDF")
  /\ _get_extension Sample.ascii_lower (py "scan.2024" ++ 46%N :: py "PDF") = py "pdf".
Proof.
  assert (H : 46%N ∉ py "PDF").
  { apply (bool_decide_unpack _). vm_compute. exact I. }
  split; [exact H|].
  destruct (get_extension_after_last_dot Sample.ascii_lower (py "scan.2024") (py "PDF") H)
    as [Hext _].
  rewrite Hext. vm_compute. reflexivity.
Defined.

Lemma slugify_agree env name :
  Process._slugify env name
  = if truthy (Api._slugify env name) then Api._slugify env name else py "untitled".
Proof. reflexivity. Qed.

Lemma scalar_none {A} (rows : list A) : scalar_one_or_none rows = Ok None -> rows = [].
Proof. destruct rows as [|x [|y rows]]; cbn; [reflexivity|discriminate|discriminate]. Qed.

(** A tag made through the API is the tag the pipeline uses for the same
    name, when its slug is not empty: classifying a document with that
    name adds no tag row, and links the document to the tag made.  Making
    the tag keeps the slugs of the table distinct, and a second request
    with the same name is refused with status 409. *)
Theorem created_tag_is_reused (env : Env) (name color : str) (d d' : DB) (tag : Tag)
        (u : UUID) (s : Session) :
  create_tag env name color d = (d', Returned tag) ->
  tag_slug tag <> [] ->
  db s = d' ->
  let r := classify_tag env u name s in
  tags (db r.1) = tags d'
  /\ (r.2 = Ok tt -> mkDocumentTag u (tag_id tag) ∈ document_tags (db r.1))
  /\ (NoDup (map tag_slug (tags d)) -> NoDup (map tag_slug (tags d')))
  /\ (exists detail, forall color',
         create_tag env name color' d' = (d', HTTPException 409 detail)).
Proof.
  unfold create_tag. intros Hc Hslug Hdb.
  set (slug := Api._slugify env name) in *.
  destruct (scalar_one_or_none (select_tag_by_slug slug d)) as [[t|]|e] eqn:Esel;
    try discriminate.
  injection Hc as <- <-. cbn [tag_slug] in Hslug.
  apply scalar_none in Esel.
  assert (Hsel' : select_tag_by_slug slug (add_tag name slug color d)
                  = [mkTag (tags_id_seq d) name color slug]).
  { unfold select_tag_by_slug in *. cbn. rewrite filter_app, Esel.
    rewrite filter_cons, decide_True by reflexivity. reflexivity. }
  assert (Hps : Process._slugify env name = slug).
  { rewrite slugify_agree. fold slug. destruct slug; [contradiction|reflexivity]. }
  cbv zeta. split; [|split; [|split]].
  - unfold classify_tag. rewrite Hps.
    destruct slug as [|c0 slug0] eqn:Es; [contradiction|]. cbn [truthy negb].
    rewrite <- Es in *. unfold bind, get_db, lift. rewrite Hdb, Hsel'. cbn.
    destruct (select_document_tag u (tags_id_seq d) _) as [|a [|a' rows]];
      cbn; rewrite ?Hdb; reflexivity.
  - unfold classify_tag. rewrite Hps.
    destruct slug as [|c0 slug0] eqn:Es; [contradiction|]. cbn [truthy negb].
    rewrite <- Es in *. unfold bind, get_db, lift. rewrite Hdb, Hsel'. cbn.
    rewrite ?Hdb.
    destruct (select_document_tag u (tags_id_seq d) (add_tag name slug color d))
      as [|a [|a' rows]] eqn:Ea; cbn; rewrite ?Hdb.
    + intros _. apply elem_of_app. right. apply list_elem_of_singleton. reflexivity.
    + intros _. assert (Hin : a ∈ select_document_tag u (tags_id_seq d)
                                   (add_tag name slug color d)).
      { rewrite Ea. apply elem_of_cons. left. reflexivity. }
      unfold select_document_tag in Hin. apply list_elem_of_filter in Hin as [[H1 H2] Hin].
      destruct a as [ad at_]. cbn in H1, H2. subst. exact Hin.
    + discriminate.
  - intros Hnd. cbn. rewrite map_app. apply NoDup_app. split; [exact Hnd|]. split.
    + intros x Hx Hx'. cbn in Hx'. apply list_elem_of_singleton in Hx'. subst x.
      apply list_elem_of_fmap in Hx as (t & Ht & Hin).
      apply (filter_nil_none _ _ t Esel Hin). symmetry. exact Ht.
    + cbn. apply NoDup_singleton.
  - eexists. intros color'. rewrite Hsel'. cbn. reflexivity.
Qed.

Lemma created_tag_is_reused_witness :
  create_tag Sample.good_env (py "Tax 2024") (py "#3b82f6") Sample.store
  = (add_tag (py "Tax 2024") (py "tax-2024") (py "#3b82f6") Sample.store,
     Returned (mkTag 1 (py "Tax 2024") (py "#3b82f6") (py "tax-2024")))
  /\ tag_slug (mkTag 1 (py "Tax 2024") (py "#3b82f6") (py "tax-2024")) <> []
  /\ tags (db (classify_tag Sample.good_env Sample.doc_id (py "Tax 2024")
                 (mkSession Sample.store
                    (add_tag (py "Tax 2024") (py "tax-2024") (py "#3b82f6") Sample.store)
                    Sample.doc_id Sample.pending_doc)).1)
     = tags (add_tag (py "Tax 2024") (py "tax-2024") (py "#3b82f6") Sample.store).
Proof.
  split; [vm_compute; reflexivity|]. split; [vm_compute; discriminate|].
  destruct (created_tag_is_reused Sample.good_env (py "Tax 2024") (py "#3b82f6")
              Sample.store
              (add_tag (py "Tax 2024") (py "tax-2024") (py "#3b82f6") Sample.store)
              (mkTag 1 (py "Tax 2024") (py "#3b82f6") (py "tax-2024"))
              Sample.doc_id
              (mkSession Sample.store
                 (add_tag (py "Tax 2024") (py "tax-2024") (py "#3b82f6") Sample.store)
                 Sample.doc_id Sample.pending_doc))
    as (Htags & _);
    [vm_compute; reflexivity|vm_compute; discriminate|reflexivity|exact Htags].
Defined.

Lemma filter_complement {A} (P : A -> Prop) `{!forall x, Decision (P x)} (l : list A) :
  filter P (filter (fun x => ~ P x) l) = [].
Proof.
  induction l as [|x l IH]; [reflexivity|]. rewrite (filter_cons (fun x => ~ P x)).
  destruct (decide (~ P x)) as [Hn|Hn]; [|exact IH].
  rewrite filter_cons, decide_False by exact Hn. exact IH.
Qed.

Lemma delete_row_about u d :
  about u (delete_row u d) = (None, [], [], [])
  /\ foreign u (delete_row u d) = foreign u d.
Proof.
  unfold about, foreign, delete_row. cbn. split.
  - rewrite lookup_delete_eq.
    rewrite (filter_complement (fun cf => cf_document_id cf = u)).
    rewrite (filter_complement (fun a => dt_document_id a = u)).
    rewrite (filter_complement (fun l => log_document_id l = u)). reflexivity.
  - rewrite delete_delete_eq, !list_filter_filter.
    f_equal; [f_equal; [f_equal|]|]; apply list_filter_iff; intros x; tauto.
Qed.

(** When [delete_document] returns, the store holds nothing about the
    document any more (row, custom fields, tag associations, log entries),
    everything about the other documents and the tables of names are as
    they were, and the file of the document is not on the disk.  A task
    that was queued for the document then returns the [Document not found]
    dict and leaves the store alone. *)
Theorem deleted_document_is_gone (env : Env) (document_id : str) (doc_id : UUID)
        (w w' : DB * Disk) :
  delete_document doc_id w = (w', Returned tt) ->
  uuid_UUID env document_id = Ok doc_id ->
  about doc_id w'.1 = (None, [], [], [])
  /\ (forall u', u' <> doc_id -> about u' w'.1 = about u' w.1)
  /\ (tags w'.1, document_types w'.1, correspondents w'.1)
     = (tags w.1, document_types w.1, correspondents w.1)
  /\ (forall doc, documents w.1 !! doc_id = Some doc ->
                  path_join (MEDIA_DIR w.2) (file_path doc) ∉ paths w'.2)
  /\ process_document env document_id w'.1
     = (w'.1, Process.Returned [(py "status", py "error");
                                (py "message", py "Document not found")])
  /\ reprocess_document env document_id w'.1
     = (w'.1, Process.Returned [(py "status", py "error");
                                (py "message", py "Document not found")]).
Proof.
  destruct w as [d k]. unfold delete_document. intros Hdel Hid.
  destruct (documents d !! doc_id) as [doc|] eqn:Hdoc; [|discriminate].
  injection Hdel as <-. cbn [fst snd].
  destruct (delete_row_about doc_id d) as [Hgone Hrest].
  split; [exact Hgone|]. split; [|split; [|split]].
  - intros u' Hne. apply (foreign_about doc_id); assumption.
  - reflexivity.
  - intros doc' Hd'. assert (doc' = doc) as -> by congruence. clear Hd'.
    set (abs_path := path_join (MEDIA_DIR k) (file_path doc)).
    set (k1 := if bool_decide (abs_path ∈ paths k) then remove abs_path k else k).
    assert (H1 : abs_path ∉ paths k1).
    { unfold k1. destruct (bool_decide_reflect (abs_path ∈ paths k)) as [Hin|Hout];
        [|exact Hout]. cbn. intros Hx. apply elem_of_difference in Hx as [_ Hx].
      apply Hx, elem_of_singleton. reflexivity. }
    assert (Hsub : forall p, paths (remove p k1) ⊆ paths k1).
    { intros p x Hx. cbn in Hx. apply elem_of_difference in Hx as [Hx _]. exact Hx. }
    destruct (thumbnail_path doc) as [t|]; [|exact H1].
    destruct (truthy t); [|exact H1].
    case_bool_decide; [|exact H1].
    intros Hin. apply H1. apply (Hsub _ _ Hin).
  - assert (Hnone : documents (delete_row doc_id d) !! doc_id = None)
      by exact (f_equal (fun x => x.1.1.1) Hgone).
    unfold process_document, reprocess_document. rewrite Hid, Hnone. split; reflexivity.
Qed.

Lemma deleted_document_is_gone_witness :
  delete_document Sample.doc_id
    (Sample.store, mkDisk (py "/data/media") (py "/data/thumbnails") ∅)
  = ((delete_row Sample.doc_id Sample.store,
      mkDisk (py "/data/media") (py "/data/thumbnails") ∅), Returned tt)
  /\ uuid_UUID Sample.good_env Sample.doc_id_str = Ok Sample.doc_id
  /\ about Sample.doc_id (delete_row Sample.doc_id Sample.store) = (None, [], [], []).
Proof.
  split; [vm_compute; reflexivity|]. split; [vm_compute; reflexivity|].
  destruct (deleted_document_is_gone Sample.good_env Sample.doc_id_str Sample.doc_id
              (Sample.store, mkDisk (py "/data/media") (py "/data/thumbnails") ∅)
              (delete_row Sample.doc_id Sample.store,
               mkDisk (py "/data/media") (py "/data/thumbnails") ∅))
    as (Hgone & _); [vm_compute; reflexivity|vm_compute; reflexivity|exact Hgone].
Defined.

Lemma own_tags doc_id ids :
  filter (fun a => dt_document_id a = doc_id) (map (mkDocumentTag doc_id) ids)
  = map (mkDocumentTag doc_id) ids.
Proof.
  induction ids as [|i ids IH]; [reflexivity|]. cbn [map].
  rewrite filter_cons, decide_True by reflexivity. f_equal. exact IH.
Qed.

Lemma other_tags doc_id ids :
  filter (fun a => dt_document_id a <> doc_id) (map (mkDocumentTag doc_id) ids) = [].
Proof.
  induction ids as [|i ids IH]; [reflexivity|]. cbn [map].
  rewrite filter_cons, decide_False by (intros Hn; apply Hn; reflexivity). exact IH.
Qed.

Lemma own_fields doc_id g fs :
  rows_of doc_id g fs -> filter (fun cf => cf_document_id cf = doc_id) g = g.
Proof.
  intros [Hg _]. induction Hg as [|cf g Hcf _ IH]; [reflexivity|].
  rewrite filter_cons, decide_True by exact Hcf. f_equal. exact IH.
Qed.

Lemma other_fields doc_id g fs :
  rows_of doc_id g fs -> filter (fun cf => cf_document_id cf <> doc_id) g = [].
Proof.
  intros [Hg _]. induction Hg as [|cf g Hcf _ IH]; [reflexivity|].
  rewrite filter_cons, decide_False by (intros Hn; apply Hn; exact Hcf). exact IH.
Qed.

Lemma add_fields doc_id fs : forall d0,
  exists g, rows_of doc_id g fs
    /\ custom_fields (fold_left (fun d f => add_custom_field doc_id f d) fs d0)
       = custom_fields d0 ++ g
    /\ document_tags (fold_left (fun d f => add_custom_field doc_id f d) fs d0)
       = document_tags d0
    /\ documents (fold_left (fun d f => add_custom_field doc_id f d) fs d0) = documents d0
    /\ processing_logs (fold_left (fun d f => add_custom_field doc_id f d) fs d0)
       = processing_logs d0.
Proof.
  induction fs as [|f fs IH]; intros d0; cbn [fold_left].
  - exists []. split; [split; [constructor|reflexivity]|]. rewrite app_nil_r. repeat split.
  - destruct (IH (add_custom_field doc_id f d0)) as (g & [Hg1 Hg2] & I1 & I2 & I3 & I4).
    eexists (_ :: g). rewrite I1, I2, I3, I4. cbn. rewrite <- app_assoc.
    split; [|repeat split]. split.
    + constructor; [reflexivity|exact Hg1].
    + cbn. f_equal. exact Hg2.
Qed.

(** When a [PATCH] returns, the row keeps each of title, document type,
    correspondent and date for which the request has no value (so none of
    them can be cleared) and takes the values the request has; content,
    status, embedding and file facts are untouched.  Tag ids, if given,
    replace the associations of the document, in the order given; custom
    fields, if given, replace its fields.  Nothing about another document
    changes.  When it does not return, the store is as it was. *)
Theorem update_document_replaces (accepts : DB -> bool) (utcnow : datetime)
        (doc_id : UUID) (data : DocumentUpdate) (d d' : DB) (r : response Document) :
  update_document accepts utcnow doc_id data d = (d', r) ->
  match r with
  | Returned row =>
      exists old,
        documents d !! doc_id = Some old
        /\ documents d' !! doc_id = Some row
        /\ title row = from_option Some (title old) (du_title data)
        /\ document_type_id row
           = from_option Some (document_type_id old) (du_document_type_id data)
        /\ correspondent_id row
           = from_option Some (correspondent_id old) (du_correspondent_id data)
        /\ created_date row = from_option Some (created_date old) (du_created_date data)
        /\ modified_date row = utcnow
        /\ (content row, status row, embedding row, file_facts row)
           = (content old, status old, embedding old, file_facts old)
        /\ filter (fun a => dt_document_id a = doc_id) (document_tags d')
           = from_option (map (mkDocumentTag doc_id))
                         (filter (fun a => dt_document_id a = doc_id) (document_tags d))
                         (du_tag_ids data)
        /\ fields_of doc_id d'
           = from_option (map triple) (fields_of doc_id d) (du_custom_fields data)
        /\ (forall u', u' <> doc_id -> about u' d' = about u' d)
  | _ => d' = d
  end.
Proof.
  unfold update_document. intros H.
  destruct (documents d !! doc_id) as [old|] eqn:Hold; [|injection H as <- <-; reflexivity].
  cbv zeta in H.
  destruct (accepts _) eqn:Hacc; injection H as <- <-; [|reflexivity]. clear Hacc.
  exists old. split; [reflexivity|]. split; [cbn; apply lookup_insert_eq|].
  split; [destruct data as [[?|] ? [?|] [?|] [?|] ?]; reflexivity|].
  split; [destruct data as [[?|] ? [?|] [?|] [?|] ?]; reflexivity|].
  split; [destruct data as [[?|] ? [?|] [?|] [?|] ?]; reflexivity|].
  split; [destruct data as [[?|] ? [?|] [?|] [?|] ?]; reflexivity|].
  split; [reflexivity|].
  split; [destruct data as [[?|] ? [?|] [?|] [?|] ?]; reflexivity|].
  set (d1 := replace_tags doc_id (du_tag_ids data) d).
  set (d2 := replace_fields doc_id (du_custom_fields data) d1).
  assert (T1 : filter (fun a => dt_document_id a = doc_id) (document_tags d1)
               = from_option (map (mkDocumentTag doc_id))
                   (filter (fun a => dt_document_id a = doc_id) (document_tags d))
                   (du_tag_ids data)
               /\ foreign doc_id d1 = foreign doc_id d
               /\ custom_fields d1 = custom_fields d).
  { unfold d1, replace_tags, foreign. destruct (du_tag_ids data) as [ids|]; cbn;
      [|repeat split].
    rewrite !filter_app, filter_complement, own_tags, other_tags, app_nil_r.
    split; [reflexivity|]. split; [|reflexivity].
    rewrite list_filter_filter. do 2 f_equal. apply list_filter_iff. intros x. tauto. }
  destruct T1 as (T1 & T2 & T3).
  assert (F1 : fields_of doc_id d2
               = from_option (map triple) (fields_of doc_id d1) (du_custom_fields data)
               /\ foreign doc_id d2 = foreign doc_id d1
               /\ document_tags d2 = document_tags d1).
  { unfold d2, replace_fields, foreign, fields_of. destruct (du_custom_fields data) as [fs|];
      [|repeat split].
    destruct (add_fields doc_id fs
                (set_custom_fields
                   (filter (fun cf => cf_document_id cf <> doc_id) (custom_fields d1)) d1))
      as (g & Hg & I1 & I2 & I3 & I4).
    rewrite I1, I2, I3, I4. cbn.
    rewrite !filter_app, filter_complement, (own_fields _ _ _ Hg),
      (other_fields _ _ _ Hg), app_nil_r.
    split; [exact (proj2 Hg)|]. split; [|reflexivity].
    rewrite list_filter_filter. do 3 f_equal. apply list_filter_iff. intros x. tauto. }
  destruct F1 as (F1 & F2 & F3).
  split; [|split].
  - cbn. rewrite F3. exact T1.
  - unfold fields_of in *. cbn. rewrite F1, T3. reflexivity.
  - intros u' Hne. apply (foreign_about doc_id); [exact Hne|].
    rewrite <- T2, <- F2. unfold foreign. cbn. rewrite delete_insert_eq. reflexivity.
Qed.

Lemma update_document_replaces_witness :
  update_document (fun _ => true) 1700000001 Sample.doc_id
    (mkDocumentUpdate (Some (py "Scan of an invoice")) (Some []) None None None None)
    Sample.store
  = (set_documents
       (<[Sample.doc_id := set_modified_date 1700000001
                             (set_title (Some (py "Scan of an invoice"))
                                        Sample.pending_doc)]>
          (documents Sample.store))
       (set_document_tags [] Sample.store),
     Returned (set_modified_date 1700000001
                 (set_title (Some (py "Scan of an invoice")) Sample.pending_doc)))
  /\ exists old, documents Sample.store !! Sample.doc_id = Some old
                 /\ content (set_modified_date 1700000001
                               (set_title (Some (py "Scan of an invoice"))
                                          Sample.pending_doc))
                    = content old.
Proof.
  assert (H : update_document (fun _ => true) 1700000001 Sample.doc_id
                (mkDocumentUpdate (Some (py "Scan of an invoice")) (Some []) None None
                                  None None)
                Sample.store
              = (set_documents
                   (<[Sample.doc_id := set_modified_date 1700000001
                                         (set_title (Some (py "Scan of an invoice"))
                                                    Sample.pending_doc)]>
                      (documents Sample.store))
                   (set_document_tags [] Sample.store),
                 Returned (set_modified_date 1700000001
                             (set_title (Some (py "Scan of an invoice"))
                                        Sample.pending_doc)))).
  { vm_compute. reflexivity. }
  split; [exact H|].
  destruct (update_document_replaces _ _ _ _ _ _ _ H)
    as (old & Hold & _ & _ & _ & _ & _ & _ & Hsame & _).
  exists old. split; [exact Hold|]. exact (f_equal (fun x => x.1.1.1) Hsame).
Defined.

End ApiFacts.

Module UploadFacts.
Import Models Process Api Upload UploadSpec.




End UploadFacts.

Module PdfFacts.
Import Models Process ProcessSpec ProcessFacts Pdf.

(** With the PDF service as it is and the thumbnail directory in place,
    the thumbnail stage fails only when the size of the file cannot be
    read.  Otherwise it logs [Thumbnail generated] with status [success],
    also when no thumbnail was made; the thumbnail path is set exactly
    when one was made, and the page count becomes the one the service
    counts: 0 for a missing file, 1 for a file that is not a PDF.  The file
    info always has its three keys. *)
Theorem thumbnail_stage_with_pdf_service (base : Env) (b : Backend) (u : UUID)
        (s : Session) :
  makedirs base (Process.THUMBNAIL_DIR base) = Ok tt ->
  let env := pdf_env base b in
  let fp := file_path (doc s) in
  let thumb := uuid_hex u ++ py ".png" in
  let made := generate_thumbnail b fp (path_join (Process.THUMBNAIL_DIR base) thumb) in
  let s' := (step_thumbnail env u s).1 in
  thumbnail_path (doc s') = (if made then Some thumb else thumbnail_path (doc s))
  /\ match get_file_info b fp with
     | Ok file_info =>
         processing_logs (db s')
         = processing_logs (db s)
           ++ [mkProcessingLog (processing_logs_id_seq (db s)) u (py "thumbnail")
                 (py "success") (py "Thumbnail generated")]
         /\ page_count (doc s') = Some (get_page_count b fp)
         /\ is_Some (fi_size file_info) /\ is_Some (fi_mime_type file_info)
         /\ fi_pages file_info = Some (get_page_count b fp)
     | Raise e =>
         getsize b (_resolve_path b fp) = Raise e
         /\ processing_logs (db s')
            = processing_logs (db s)
              ++ [mkProcessingLog (processing_logs_id_seq (db s)) u (py "thumbnail")
                    (py "error") e]
         /\ page_count (doc s') = page_count (doc s)
     end
  /\ (path_exists b (_resolve_path b fp) = false ->
      made = false /\ get_page_count b fp = 0
      /\ get_file_info b fp = Ok (mkFileInfo (Some 0) (Some (py "unknown")) (Some 0)))
  /\ (path_exists b (_resolve_path b fp) = true -> is_pdf b (_resolve_path b fp) = false ->
      get_page_count b fp = 1).
Proof.
  intros Hdir env fp thumb made s'. subst s'.
  unfold step_thumbnail, apply_file_info, try_except, _log_step, bind, lift,
    get_doc, assign, ret, flush, modify_db.
  cbn. rewrite Hdir. cbn. fold fp thumb made.
  assert (Hinfo : match get_file_info b fp with
                  | Ok file_info =>
                      is_Some (fi_size file_info) /\ is_Some (fi_mime_type file_info)
                      /\ fi_pages file_info = Some (get_page_count b fp)
                  | Raise e => getsize b (_resolve_path b fp) = Raise e
                  end).
  { unfold get_file_info, get_page_count.
    destruct (path_exists b (_resolve_path b fp)); cbn; [|repeat split; eauto].
    destruct (getsize b (_resolve_path b fp)); cbn; [repeat split; eauto|reflexivity]. }
  split; [|split; [|split]].
  - destruct made; cbn; destruct (get_file_info b fp) as [fi|e]; cbn;
      try reflexivity;
      destruct (truthy_int (file_size (doc s))); cbn;
      destruct (truthy_opt (mime_type (doc s))); reflexivity.
  - destruct (get_file_info b fp) as [fi|e]; cbn.
    + destruct Hinfo as (H1 & H2 & H3). rewrite H3.
      destruct made; cbn;
        destruct (truthy_int (file_size (doc s))); cbn;
        destruct (truthy_opt (mime_type (doc s))); cbn; repeat split; assumption.
    + destruct made; cbn; repeat split; exact Hinfo.
  - intros Hmiss. unfold made, generate_thumbnail, get_page_count, get_file_info.
    fold fp. rewrite Hmiss. repeat split.
  - intros Hex Hpdf. unfold get_page_count. fold fp. rewrite Hex, Hpdf. reflexivity.
Qed.

Lemma thumbnail_stage_with_pdf_service_witness :
  makedirs Sample.good_env (Process.THUMBNAIL_DIR Sample.good_env) = Ok tt
  /\ thumbnail_path
       (doc (step_thumbnail
               (pdf_env Sample.good_env
                  (mkBackend (py "/data/media") (fun _ => false) (fun _ => Ok 0)
                     (fun _ => Raise (py "no magic")) Sample.ascii_lower
                     (fun _ => Ok 3) (fun _ _ => Ok true)))
               Sample.doc_id Sample.session).1)
     = thumbnail_path (doc Sample.session).
Proof.
  split; [reflexivity|].
  destruct (thumbnail_stage_with_pdf_service Sample.good_env
              (mkBackend (py "/data/media") (fun _ => false) (fun _ => Ok 0)
                 (fun _ => Raise (py "no magic")) Sample.ascii_lower
                 (fun _ => Ok 3) (fun _ _ => Ok true))
              Sample.doc_id Sample.session eq_refl) as (Hthumb & _).
  rewrite Hthumb. reflexivity.
Defined.

End PdfFacts.

Module UniqueFacts.
Import Models Process ProcessSpec ProcessFacts RunSpec RunFacts UniqueSpec.

Lemma consistent_of_frame {A} (m : M A) :
  frame (fun s => (vocabulary (db s), committed s)) m -> invariant consistent m.
Proof.
  intros Hf s [Hd Hc]. specialize (Hf s).
  pose proof (f_equal fst Hf) as Hv. pose proof (f_equal snd Hf) as Hcm. cbn in Hv, Hcm.
  unfold vocabulary in Hv. injection Hv as Ht Ha Hty Hco.
  split; [|rewrite Hcm; exact Hc].
  unfold unique_slugs. rewrite Ht, Ha, Hty, Hco. exact Hd.
Qed.

Lemma consistent_commit : invariant consistent commit.
Proof. intros s [Hd Hc]. split; exact Hd. Qed.

Lemma consistent_classify_tag env u tag_name :
  invariant consistent (classify_tag env u tag_name).
Proof.
  intros s [(Ht & Hty & Hco & Ha) Hc].
  pose proof (classify_tag_unique env u tag_name s (conj Ht Ha)) as [Ht' Ha'].
  assert (F : frame (fun s => (document_types (db s), correspondents (db s), committed s))
                    (classify_tag env u tag_name)).
  { unfold classify_tag. frame_auto. }
  specialize (F s). cbn beta in F. injection F as F1 F2 F3.
  split; [|rewrite F3; exact Hc].
  unfold unique_slugs. rewrite F1, F2. repeat split; assumption.
Qed.

Lemma snoc_unique {A B} (f : A -> B) `{!EqDecision B} (l : list A) (x : A) :
  NoDup (map f l) -> filter (fun y => f y = f x) l = [] -> NoDup (map f (l ++ [x])).
Proof.
  intros Hnd Hnone. rewrite map_app. apply NoDup_app. split; [exact Hnd|]. split.
  - intros b Hb Hb'. cbn in Hb'. apply list_elem_of_singleton in Hb'. subst b.
    apply list_elem_of_fmap in Hb as (y & Hy & Hin).
    apply (filter_nil_none _ _ y Hnone Hin). symmetry. exact Hy.
  - cbn. apply NoDup_singleton.
Qed.

Lemma consistent_classify_document_type env name :
  invariant consistent (classify_document_type env name).
Proof.
  intros s [(Ht & Hty & Hco & Ha) Hc]. unfold classify_document_type.
  destruct (truthy name); [|split; [repeat split|]; assumption].
  unfold bind, get_db, lift. cbv zeta.
  destruct (select_document_type_by_slug (_slugify env name) (db s))
    as [|t [|t' rows]] eqn:E; cbn; (split; [|exact Hc]); repeat split; try assumption.
  cbn. apply (snoc_unique dtype_slug); [exact Hty|exact E].
Qed.

Lemma consistent_classify_correspondent env name :
  invariant consistent (classify_correspondent env name).
Proof.
  intros s [(Ht & Hty & Hco & Ha) Hc]. unfold classify_correspondent.
  destruct (truthy name); [|split; [repeat split|]; assumption].
  unfold bind, get_db, lift. cbv zeta.
  destruct (select_correspondent_by_slug (_slugify env name) (db s))
    as [|t [|t' rows]] eqn:E; cbn; (split; [|exact Hc]); repeat split; try assumption.
  cbn. apply (snoc_unique corr_slug); [exact Hco|exact E].
Qed.

Ltac consistent_step :=
  first
    [ apply consistent_commit
    | apply consistent_classify_tag
    | apply consistent_classify_document_type
    | apply consistent_classify_correspondent
    | apply invariant_for_each; intros ?
    | apply invariant_try_except; [|intros ?]
    | (apply consistent_of_frame; solve [frame_run])
    | apply invariant_bind; [|intros ?]
    | progress cbv zeta
    | match goal with
      | |- invariant _ (if ?b then _ else _) => destruct b
      | |- invariant _ (match ?x with _ => _ end) => destruct x
      end ].

Lemma consistent_process_body env document_id u :
  invariant consistent (process_body env document_id u).
Proof.
  unfold process_body, step_ocr, step_classify, step_fields, step_embeddings,
    step_thumbnail.
  repeat consistent_step.
Qed.

Lemma consistent_process_fatal u e : invariant consistent (process_fatal u e).
Proof. unfold process_fatal. repeat consistent_step. Qed.

Lemma consistent_reprocess_body env document_id u :
  invariant consistent (reprocess_body env document_id u).
Proof.
  unfold reprocess_body, step_reclassify, step_reextract_fields, step_reembed.
  repeat consistent_step.
Qed.

Lemma consistent_reprocess_fatal : invariant consistent reprocess_fatal.
Proof. unfold reprocess_fatal. repeat consistent_step. Qed.

(** The tasks respect the unique constraints they rely on: from a store
    in which no two tags, no two document types and no two correspondents
    share a slug and no association is there twice, a first-time run and a
    rerun leave such a store, whatever the services return and however the
    run ends.  So the rows the pipeline adds never collide with a row of
    the table. *)
Theorem runs_keep_slugs_unique (env : Env) (document_id : str) (store : DB) :
  unique_slugs store ->
  unique_slugs (process_document env document_id store).1
  /\ unique_slugs (reprocess_document env document_id store).1.
Proof.
  intros Hs. unfold process_document, reprocess_document.
  destruct (uuid_UUID env document_id) as [u|e]; [|split; exact Hs].
  destruct (documents store !! u) as [d|]; [|split; exact Hs].
  assert (H0 : consistent (mkSession store store u d)) by (split; exact Hs).
  split.
  - pose proof (consistent_process_body env document_id u _ H0) as Hb.
    destruct (process_body env document_id u _) as [s [r|e]]; cbn [fst] in *.
    + apply Hb.
    + apply (consistent_process_fatal u e s Hb).
  - pose proof (consistent_reprocess_body env document_id u _ H0) as Hb.
    destruct (reprocess_body env document_id u _) as [s [r|e]]; cbn [fst] in *.
    + apply Hb.
    + apply (consistent_reprocess_fatal s Hb).
Qed.

Lemma runs_keep_slugs_unique_witness :
  unique_slugs Sample.store
  /\ unique_slugs (process_document Sample.good_env Sample.doc_id_str Sample.store).1.
Proof.
  assert (H : unique_slugs Sample.store).
  { repeat split; vm_compute; constructor. }
  split; [exact H|].
  destruct (runs_keep_slugs_unique Sample.good_env Sample.doc_id_str Sample.store H)
    as [Hrun _].
  exact Hrun.
Defined.

End UniqueFacts.

Module BackupFacts.
Import Models Services ServicesFacts Api Backup BackupSpec.

Lemma basename_no_slash p : 47%N ∉ basename p.
Proof.
  unfold basename. destruct (last (split_char 47%N p)) as [l|] eqn:E;
    [|apply not_elem_of_nil].
  cbn. apply (split_char_piece 47%N p l). apply last_Some in E as (l' & ->).
  apply elem_of_app. right. apply list_elem_of_singleton. reflexivity.
Qed.

Lemma join_entry dir name : dir <> [] -> 47%N ∉ name -> entry_of dir (path_join dir name).
Proof.
  intros Hdir Hname. exists name. split; [exact Hname|]. unfold path_join.
  assert (Habs : isabs name = false).
  { destruct name as [|c name]; [reflexivity|]. cbn.
    apply N.eqb_neq. intros ->. apply Hname. apply elem_of_cons. left. reflexivity. }
  rewrite Habs. destruct (last dir) as [c|] eqn:El.
  - destruct (N.eqb_spec c 47) as [->|_]; [right; split; reflexivity|left; reflexivity].
  - apply last_None in El. contradiction.
Qed.

(** Whatever name is asked for, with slashes, [..] or an absolute path in
    it, the backup endpoints only reach entries of the backup directory:
    the file served is one, and the only file that deleting can remove is
    one. *)
Theorem backup_paths_stay_inside (BACKUP_DIR : str) (files : gset str) (filename : str) :
  BACKUP_DIR <> [] ->
  (forall filepath name,
      download_backup BACKUP_DIR files filename = Returned (filepath, name) ->
      entry_of BACKUP_DIR filepath /\ filepath ∈ files)
  /\ (forall p, p ∈ files -> p ∉ (delete_backup BACKUP_DIR files filename).1 ->
                entry_of BACKUP_DIR p)
  /\ (delete_backup BACKUP_DIR files filename).1 ⊆ files.
Proof.
  intros Hdir.
  pose proof (join_entry BACKUP_DIR (basename filename) Hdir (basename_no_slash filename))
    as Hentry.
  unfold download_backup, delete_backup. cbv zeta.
  destruct (bool_decide_reflect (path_join BACKUP_DIR (basename filename) ∈ files))
    as [Hin|Hout]; cbn [negb fst].
  - split; [|split].
    + intros filepath name [= <- <-]. split; assumption.
    + intros p Hp Hgone. destruct (decide (p = path_join BACKUP_DIR (basename filename)))
        as [->|Hne]; [exact Hentry|].
      exfalso. apply Hgone. apply elem_of_difference. split; [exact Hp|].
      rewrite elem_of_singleton. exact Hne.
    + intros p Hp. apply elem_of_difference in Hp as [Hp _]. exact Hp.
  - split; [|split].
    + intros filepath name H. discriminate H.
    + intros p Hp Hgone. contradiction.
    + intros p Hp. exact Hp.
Qed.

Lemma backup_paths_stay_inside_witness :
  py "/data/backups" <> []
  /\ (delete_backup (py "/data/backups") {[py "/etc/passwd"]} (py "../../etc/passwd")).1
     ⊆ {[py "/etc/passwd"]}.
Proof.
  split; [vm_compute; discriminate|].
  destruct (backup_paths_stay_inside (py "/data/backups") {[py "/etc/passwd"]}
              (py "../../etc/passwd")) as (_ & _ & Hsub);
    [vm_compute; discriminate|exact Hsub].
Defined.

End BackupFacts.
